(** * NactiveHealth backend: authorization and audit middleware

    A shallow embedding of [auth.ts], [validation.ts], [types.ts] and of the
    route table of the server file, with the properties of the
    authorization / audit pipeline stated over it.

    JavaScript values are a small inductive type; the request, the response
    and the record store are explicit state threaded through an
    error-and-state monad, so that a [try]/[catch] of the source is a
    [try_catch] here and the patched [res.send] is a stack of wrappers held
    by the response object. *)

From Stdlib Require Import ZArith List String Ascii Bool Lia Permutation Sorted.
Import ListNotations.
Local Open Scope string_scope.
Local Open Scope Z_scope.
Local Open Scope list_scope.

Set Implicit Arguments.
Set Warnings "-register-all".

(** ** JavaScript values *)

(** A JS number as the code meets it: an integer or [NaN]. *)
Inductive jsnum : Type :=
| NaN
| Num (z : Z).

Inductive jsval : Type :=
| JUndefined
| JNull
| JBool (b : bool)
| JNumber (n : jsnum)
| JString (s : string)
| JDate (t : Z)
| JArray (l : list jsval)
| JObject (fields : list (string * jsval)).

(** [ToBoolean]: what [!v], [v ? a : b] and [v || w] test. *)
Definition truthy (v : jsval) : bool :=
  match v with
  | JUndefined | JNull => false
  | JBool b => b
  | JNumber NaN => false
  | JNumber (Num z) => negb (z =? 0)
  | JString s => negb (String.eqb s "")
  | JDate _ | JArray _ | JObject _ => true
  end.

(** [a || b] *)
Definition js_or (a b : jsval) : jsval := if truthy a then a else b.

Fixpoint assoc (k : string) (fields : list (string * jsval)) : option jsval :=
  match fields with
  | [] => None
  | (k', v) :: rest => if String.eqb k k' then Some v else assoc k rest
  end.

(** [v?.k]: [undefined] on [null] and [undefined], the property otherwise
    (primitives, dates and arrays carry no such property). *)
Definition opt_prop (v : jsval) (k : string) : jsval :=
  match v with
  | JObject fields => match assoc k fields with Some x => x | None => JUndefined end
  | _ => JUndefined
  end.

(** An optional string seen as a JS value ([undefined] when missing). *)
Definition of_opt_string (o : option string) : jsval :=
  match o with Some s => JString s | None => JUndefined end.

(** ** types.ts *)

Inductive UserRole : Type := doctor | nurse | admin.

Definition UserRole_eqb (a b : UserRole) : bool :=
  match a, b with
  | doctor, doctor | nurse, nurse | admin, admin => true
  | _, _ => false
  end.

Definition UserRole_to_string (r : UserRole) : string :=
  match r with doctor => "doctor" | nurse => "nurse" | admin => "admin" end.

(** [roles.includes(r)] *)
Definition includes (roles : list UserRole) (r : UserRole) : bool :=
  existsb (UserRole_eqb r) roles.

(** The fields [AuthenticatedRequest.user] declares, which are those of a
    user of the store. *)
Module User.
Record t : Type := mk { id : Z; username : string; role : UserRole }.
Definition to_js (u : t) : jsval :=
  JObject [("id", JNumber (Num (id u))); ("username", JString (username u));
           ("role", JString (UserRole_to_string (role u)))].
End User.

(** What [jwt.verify] decodes and [authenticateToken] attaches as
    [req.user]: the three fields the program reads, and the other claims of
    the token ([iat] and [exp] on a token of [login]), which are fields of
    the same object. *)
Module Payload.
Record t : Type := mk { identity : User.t; claims : list (string * jsval) }.
Definition to_js (p : t) : jsval :=
  JObject ([("id", JNumber (Num (User.id (identity p))));
            ("username", JString (User.username (identity p)));
            ("role", JString (UserRole_to_string (User.role (identity p))))]
           ++ claims p).
End Payload.

Coercion Payload.identity : Payload.t >-> User.t.

Module Patient.
Record t : Type := mk {
  id : Z; full_name : string; date_of_birth : Z; gender : string;
  phone : option string; created_at : Z }.
Definition to_js (p : t) : jsval :=
  JObject [("id", JNumber (Num (id p))); ("full_name", JString (full_name p));
           ("date_of_birth", JDate (date_of_birth p)); ("gender", JString (gender p));
           ("phone", match phone p with Some s => JString s | None => JNull end);
           ("created_at", JDate (created_at p))].
End Patient.

Module Encounter.
Record t : Type := mk {
  id : Z; patient_id : Z; clinician_role : string;
  notes : option string; created_at : Z }.
Definition to_js (e : t) : jsval :=
  JObject [("id", JNumber (Num (id e))); ("patient_id", JNumber (Num (patient_id e)));
           ("clinician_role", JString (clinician_role e));
           ("notes", match notes e with Some s => JString s | None => JNull end);
           ("created_at", JDate (created_at e))].
End Encounter.

Module Prescription.
Record t : Type := mk {
  id : Z; encounter_id : Z; drug_name : string; dosage : string;
  frequency : string; duration : string; created_by : Z; created_at : Z }.
Definition fields (p : t) : list (string * jsval) :=
  [("id", JNumber (Num (id p))); ("encounter_id", JNumber (Num (encounter_id p)));
   ("drug_name", JString (drug_name p)); ("dosage", JString (dosage p));
   ("frequency", JString (frequency p)); ("duration", JString (duration p));
   ("created_by", JNumber (Num (created_by p))); ("created_at", JDate (created_at p))].
End Prescription.

Module AuditLog.
Record t : Type := mk {
  id : Z; user_role : UserRole; action : string; entity_type : string;
  entity_id : option Z; timestamp : Z }.
Definition to_js (a : t) : jsval :=
  JObject [("id", JNumber (Num (id a))); ("user_role", JString (UserRole_to_string (user_role a)));
           ("action", JString (action a)); ("entity_type", JString (entity_type a));
           ("entity_id", match entity_id a with Some z => JNumber (Num z) | None => JNull end);
           ("timestamp", JDate (timestamp a))].
End AuditLog.

(** ** validation.ts: the schemas, as data *)

Inductive JoiType : Type :=
| Joi_string
| Joi_number
| Joi_date_iso
| Joi_string_valid (allowed : list string).

Record JoiKey : Type := mkJoiKey {
  joi_type : JoiType;
  joi_required : bool;
  joi_allow_empty_null : bool (* [.allow('', null)] *) }.

Definition JoiSchema : Type := list (string * JoiKey).

Definition loginSchema : JoiSchema :=
  [("username", mkJoiKey Joi_string true false);
   ("password", mkJoiKey Joi_string true false)].

Definition patientSchema : JoiSchema :=
  [("full_name", mkJoiKey Joi_string true false);
   ("date_of_birth", mkJoiKey Joi_date_iso true false);
   ("gender", mkJoiKey (Joi_string_valid ["male"; "female"; "other"]) true false);
   ("phone", mkJoiKey Joi_string false true)].

Definition encounterSchema : JoiSchema :=
  [("patient_id", mkJoiKey Joi_number true false);
   ("clinician_role", mkJoiKey Joi_string true false);
   ("notes", mkJoiKey Joi_string false true)].

Definition prescriptionSchema : JoiSchema :=
  [("encounter_id", mkJoiKey Joi_number true false);
   ("drug_name", mkJoiKey Joi_string true false);
   ("dosage", mkJoiKey Joi_string true false);
   ("frequency", mkJoiKey Joi_string true false);
   ("duration", mkJoiKey Joi_string true false)].

(** ** The platform

    What the program calls but does not define: the token verifier, the
    builtins [parseInt], [JSON.parse], [JSON.stringify] and [new Date], and
    Joi's validation engine.  Every property below holds for any platform. *)

Record Runtime : Type := mkRuntime {
  (** [jwt.verify(token, JWT_SECRET, cb)]: [None] when [cb] gets an error,
      the decoded payload otherwise. *)
  jwt_verify : string -> option Payload.t;
  (** [parseInt(v)], with the implicit [ToString] of its argument. *)
  parseInt : jsval -> jsnum;
  (** [JSON.parse(s)]: [None] when it throws a [SyntaxError]. *)
  JSON_parse : string -> option jsval;
  JSON_stringify : jsval -> string;
  (** [new Date(v)]: [None] for an invalid date. *)
  Date_new : jsval -> option Z;
  (** [schema.validate(body, { abortEarly: false })]: the messages of
      [error.details], empty when there is no [error]. *)
  Joi_validate : JoiSchema -> jsval -> list string
}.

(** ** The record store *)

(** Modelled from the spec: the tables of the record store, whose Prisma
    schema is not among the sources, after the data model of the spec and
    the interfaces of [types.ts]; with them the id sequence of each table,
    the store's clock, the faults still to come and what [console.error]
    has printed. *)
Record World : Type := mkWorld {
  users : list User.t;
  patients : list Patient.t;
  encounters : list Encounter.t;
  prescriptions : list Prescription.t;
  auditLogs : list AuditLog.t;
  (** next value of the id sequence of each table, and the store's clock *)
  patient_seq : Z;
  encounter_seq : Z;
  prescription_seq : Z;
  audit_seq : Z;
  now : Z;
  (** one flag per store call still to come: [true] makes that call fail
      (connection lost, constraint or range violation); no flag, no fault *)
  faults : list bool;
  (** [console.error] *)
  console : list string
}.

(** ** Request and response objects *)

Record Request : Type := mkRequest {
  cookies_token : option string;
  params_id : option string;
  query_search : option string;
  body : jsval;
  user : option Payload.t
}.

Record Response : Type := mkResponse {
  statusCode : Z;
  (** the [auditLog] wrappers installed on [res.send], outermost first *)
  send_wrappers : list (string * string);
  (** what the original [send] wrote to the caller: status and body *)
  delivered : list (Z * string)
}.

Record St : Type := mkSt { world : World; req : Request; res : Response }.

Definition set_world (st : St) (w : World) : St := mkSt w (req st) (res st).
Definition set_req (st : St) (r : Request) : St := mkSt (world st) r (res st).
Definition set_res (st : St) (r : Response) : St := mkSt (world st) (req st) r.

(** ** Computations that may throw *)

Inductive outcome (A : Type) : Type :=
| Returned (a : A)
| Thrown (e : string).
Arguments Thrown {A} e.

Definition M (A : Type) : Type := St -> outcome A * St.

Definition ret {A} (a : A) : M A := fun st => (Returned a, st).
Definition throw {A} (e : string) : M A := fun st => (Thrown e, st).
Definition bind {A B} (m : M A) (k : A -> M B) : M B :=
  fun st => match m st with
            | (Returned a, st') => k a st'
            | (Thrown e, st') => (Thrown e, st')
            end.
Definition try_catch {A} (m : M A) (h : string -> M A) : M A :=
  fun st => match m st with
            | (Returned a, st') => (Returned a, st')
            | (Thrown e, st') => h e st'
            end.

Notation "x <- m ;; k" := (bind m (fun x => k))
  (at level 100, m at next level, right associativity).
Notation "m ;;; k" := (bind m (fun _ => k))
  (at level 100, right associativity).

Definition get : M St := fun st => (Returned st, st).

Definition with_console (w : World) (c : list string) : World :=
  mkWorld (users w) (patients w) (encounters w) (prescriptions w) (auditLogs w)
          (patient_seq w) (encounter_seq w) (prescription_seq w) (audit_seq w)
          (now w) (faults w) c.

Definition with_faults (w : World) (fs : list bool) : World :=
  mkWorld (users w) (patients w) (encounters w) (prescriptions w) (auditLogs w)
          (patient_seq w) (encounter_seq w) (prescription_seq w) (audit_seq w)
          (now w) fs (console w).

Definition console_error (msg : string) : M unit :=
  fun st => (Returned tt, set_world st (with_console (world st) (console (world st) ++ [msg]))).

(** Modelled from the spec: a call to the store through the Prisma client
    of [./database], which is not among the sources.  It consumes its fault
    flag, and either fails (any persistence failure) or runs [op] on the
    tables. *)
Definition store_call {A} (op : World -> outcome A * World) : M A :=
  fun st =>
    let w := world st in
    match faults w with
    | true :: fs => (Thrown "PrismaClientKnownRequestError", set_world st (with_faults w fs))
    | false :: fs => let (o, w') := op (with_faults w fs) in (o, set_world st w')
    | [] => let (o, w') := op w in (o, set_world st w')
    end.

(** ** The audit table *)

(** Modelled from the spec: the [entity_id] of an AuditLogEntry is an
    optional integer (the schema of the table is not among the sources);
    the client refuses any other value. *)
Definition storable_entity_id (v : jsval) : option (option Z) :=
  match v with
  | JNull | JUndefined => Some None
  | JNumber (Num z) => Some (Some z)
  | _ => None
  end.

Definition with_auditLogs (w : World) (l : list AuditLog.t) (seq : Z) : World :=
  mkWorld (users w) (patients w) (encounters w) (prescriptions w) l
          (patient_seq w) (encounter_seq w) (prescription_seq w) seq
          (now w) (faults w) (console w).

(** Modelled from the spec:
    [prisma.auditLog.create({ data: { user_role, action, entity_type, entity_id } })]
    on a table that is not among the sources; an AuditLogEntry is {id,
    user_role, action, entity_type, entity_id?, timestamp}, append-only. *)
Definition prisma_auditLog_create
    (user_role : UserRole) (action entity_type : string) (entity_id : jsval)
  : M AuditLog.t :=
  store_call (fun w =>
    match storable_entity_id entity_id with
    | Some eid =>
        let row := AuditLog.mk (audit_seq w) user_role action entity_type eid (now w) in
        (Returned row, with_auditLogs w (auditLogs w ++ [row]) (audit_seq w + 1))
    | None => (Thrown "PrismaClientValidationError", w)
    end).

(** ** Express' response object *)

(** [res.status(code)] *)
Definition res_status (code : Z) : M unit :=
  fun st => (Returned tt,
             set_res st (mkResponse code (send_wrappers (res st)) (delivered (res st)))).

(** The [send] of Express on a string chunk: the response goes out with the
    current status; a second one finds the headers sent and throws. *)
Definition express_write (s : string) : M unit :=
  fun st =>
    match delivered (res st) with
    | [] => (Returned tt,
             set_res st (mkResponse (statusCode (res st)) (send_wrappers (res st))
                                    [(statusCode (res st), s)]))
    | _ :: _ => (Thrown "ERR_HTTP_HEADERS_SENT", st)
    end.

Definition Middleware : Type := M unit -> M unit.

Section Auth.

Variable R : Runtime.

(** *** auth.ts, [auditLog]: the function put in place of [res.send] *)

(** [req.params.id ? parseInt(req.params.id) : parsedData?.id] *)
Definition derive_entityId (rq : Request) (parsedData : jsval) : jsval :=
  if truthy (of_opt_string (params_id rq))
  then JNumber (parseInt R (of_opt_string (params_id rq)))
  else opt_prop parsedData "id".

(** [typeof data === 'string' ? JSON.parse(data) : data] *)
Definition parsed (data : jsval) : option jsval :=
  match data with
  | JString s => JSON_parse R s
  | _ => Some data
  end.

Definition parse_data (data : jsval) : M jsval :=
  match parsed data with
  | Some v => ret v
  | None => throw "SyntaxError"
  end.

(** Lines 47-65: everything the replacement does before it hands over to
    the original [send].  The promise of [create] is detached; its [.catch]
    is the inner handler. *)
Definition audit_record (action entityType : string) (data : jsval) : M unit :=
  st <- get;;
  if (200 <=? statusCode (res st)) && (statusCode (res st) <? 300) then
    match user (req st) with
    | Some u =>
        try_catch
          (parsedData <- parse_data data;;
           let entityId := derive_entityId (req st) parsedData in
           try_catch
             (_ <- prisma_auditLog_create (User.role u) action entityType
                                          (js_or entityId JNull);;
              ret tt)
             (fun _ => console_error "Audit log error:"))
          (fun _ => console_error "Error in audit log middleware:")
    | None => ret tt
    end
  else ret tt.

(** [res.send = function(data) { ...; return originalSend.call(this, data) }] *)
Definition auditLog_send (action entityType : string)
    (originalSend : jsval -> M unit) (data : jsval) : M unit :=
  audit_record action entityType data ;;; originalSend data.

(** A call of [res.send]: the wrappers from the outermost in, each handing
    the same [data] to the one it replaced, down to Express' own [send]. *)
Fixpoint send_through (ws : list (string * string)) (data : jsval) (original : M unit)
  : M unit :=
  match ws with
  | [] => original
  | (action, entityType) :: ws' =>
      auditLog_send action entityType (fun d => send_through ws' d original) data
  end.

(** [res.json(body)]: Express stringifies and calls [this.send] with the text. *)
Definition res_json (body : jsval) : M unit :=
  st <- get;;
  let s := JSON_stringify R body in
  send_through (send_wrappers (res st)) (JString s) (express_write s).

(** [res.send(data)]: on a string Express writes it; on anything else its
    own [send] goes through [this.json], which calls [this.send] again. *)
Definition res_send (data : jsval) : M unit :=
  st <- get;;
  send_through (send_wrappers (res st)) data
    (match data with
     | JString s => express_write s
     | _ => res_json data
     end).

Definition error_body (msg : string) : jsval := JObject [("error", JString msg)].

(** [res.status(code).json(body)] *)
Definition respond (code : Z) (body : jsval) : M unit :=
  res_status code ;;; res_json body.

(** *** auth.ts, the three middlewares *)

Definition set_user (u : Payload.t) : M unit :=
  fun st =>
    let r := req st in
    (Returned tt,
     set_req st (mkRequest (cookies_token r) (params_id r) (query_search r) (body r) (Some u))).

(** [!token] holds of a cookie that is missing and of one that is empty;
    past it the token is a string. *)
Definition authenticateToken : Middleware := fun next =>
  st <- get;;
  let token := of_opt_string (cookies_token (req st)) in
  if negb (truthy token) then
    respond 401 (error_body "Access token required")
  else
    match cookies_token (req st) with
    | Some t =>
        match jwt_verify R t with
        | None => respond 403 (error_body "Invalid token")
        | Some u => set_user u ;;; next
        end
    | None => respond 401 (error_body "Access token required")
    end.

Definition requireRole (roles : list UserRole) : Middleware := fun next =>
  st <- get;;
  match user (req st) with
  | Some u =>
      if negb (includes roles (User.role u)) then
        respond 403 (error_body "Insufficient permissions")
      else next
  | None => respond 403 (error_body "Insufficient permissions")
  end.

Definition auditLog (action entityType : string) : Middleware := fun next =>
  (fun st =>
     (Returned tt,
      set_res st (mkResponse (statusCode (res st))
                             ((action, entityType) :: send_wrappers (res st))
                             (delivered (res st))))) ;;;
  next.

(** *** validation.ts, [validate] *)

Definition validate (schema : JoiSchema) : Middleware := fun next =>
  st <- get;;
  match Joi_validate R schema (body (req st)) with
  | [] => next
  | msgs => respond 400 (error_body (String.concat ", " msgs))
  end.

End Auth.

(** ** The clinical tables

    The Prisma client and its schema are not part of the sources.  A create
    checks the types of its fields and the references the data model
    declares (an Encounter's patient, a Prescription's encounter and
    creator), draws the id from the table's sequence and stamps the row with
    the store's clock; [findUnique] and [findMany] only read. *)

Definition optional_string (v : jsval) : option (option string) :=
  match v with
  | JString s => Some (Some s)
  | JNull | JUndefined => Some None
  | _ => None
  end.

Definition with_patients (w : World) (l : list Patient.t) (seq : Z) : World :=
  mkWorld (users w) l (encounters w) (prescriptions w) (auditLogs w)
          seq (encounter_seq w) (prescription_seq w) (audit_seq w)
          (now w) (faults w) (console w).

Definition with_encounters (w : World) (l : list Encounter.t) (seq : Z) : World :=
  mkWorld (users w) (patients w) l (prescriptions w) (auditLogs w)
          (patient_seq w) seq (prescription_seq w) (audit_seq w)
          (now w) (faults w) (console w).

Definition with_prescriptions (w : World) (l : list Prescription.t) (seq : Z) : World :=
  mkWorld (users w) (patients w) (encounters w) l (auditLogs w)
          (patient_seq w) (encounter_seq w) seq (audit_seq w)
          (now w) (faults w) (console w).

Definition invalid {A} (w : World) : outcome A * World :=
  (Thrown "PrismaClientValidationError", w).

Definition find_patient (z : Z) (w : World) : option Patient.t :=
  find (fun p => Patient.id p =? z) (patients w).
Definition find_encounter (z : Z) (w : World) : option Encounter.t :=
  find (fun e => Encounter.id e =? z) (encounters w).
Definition find_user (z : Z) (w : World) : option User.t :=
  find (fun u => User.id u =? z) (users w).

(** Modelled from the spec: [prisma.patient.create]; a Patient is {id,
    full_name, date_of_birth, gender, phone?, created_at}. *)
Definition prisma_patient_create
    (full_name : jsval) (date_of_birth : option Z) (gender phone : jsval)
  : M Patient.t :=
  store_call (fun w =>
    match full_name, date_of_birth, gender, optional_string phone with
    | JString n, Some d, JString g, Some ph =>
        let row := Patient.mk (patient_seq w) n d g ph (now w) in
        (Returned row, with_patients w (patients w ++ [row]) (patient_seq w + 1))
    | _, _, _, _ => invalid w
    end).

(** Modelled from the spec: the ids of the tables are the [Int] of the
    Prisma schema, 32-bit integers. *)
Definition int32 (z : Z) : bool := (-2147483648 <=? z) && (z <=? 2147483647).

(** Modelled from the spec: [prisma.patient.findUnique({ where: { id } })],
    the patient with that id when there is one; an id that is no 32-bit
    integer, which no row of the table carries, is refused by the client,
    as is [NaN]. *)
Definition prisma_patient_findUnique (id : jsnum) : M (option Patient.t) :=
  store_call (fun w =>
    match id with
    | Num z =>
        match find_patient z w with
        | Some p => (Returned (Some p), w)
        | None => if int32 z then (Returned None, w) else invalid w
        end
    | NaN => invalid w
    end).

(** Modelled from the spec: [prisma.encounter.findUnique({ where: { id } })],
    the encounter with that id when there is one; an id that is no 32-bit
    integer, which no row of the table carries, is refused by the client,
    as is [NaN]. *)
Definition prisma_encounter_findUnique (id : jsnum) : M (option Encounter.t) :=
  store_call (fun w =>
    match id with
    | Num z =>
        match find_encounter z w with
        | Some e => (Returned (Some e), w)
        | None => if int32 z then (Returned None, w) else invalid w
        end
    | NaN => invalid w
    end).

(** Modelled from the spec: [prisma.encounter.create]; an Encounter is {id,
    patient_id, clinician_role, notes?, created_at} and its patient_id must
    reference an existing Patient at creation time. *)
Definition prisma_encounter_create (patient_id : jsnum) (clinician_role notes : jsval)
  : M Encounter.t :=
  store_call (fun w =>
    match patient_id, clinician_role, optional_string notes with
    | Num pid, JString cr, Some n =>
        match find_patient pid w with
        | Some _ =>
            let row := Encounter.mk (encounter_seq w) pid cr n (now w) in
            (Returned row, with_encounters w (encounters w ++ [row]) (encounter_seq w + 1))
        | None => (Thrown "PrismaClientKnownRequestError", w)
        end
    | _, _, _ => invalid w
    end).

(** Modelled from the spec: [prisma.prescription.create]; a Prescription
    is {id, encounter_id, drug_name, dosage, frequency, duration, created_by,
    created_at}; its encounter_id must reference an existing Encounter and
    its created_by a User. *)
Definition prisma_prescription_create
    (encounter_id : jsnum) (drug_name dosage frequency duration : jsval) (created_by : Z)
  : M Prescription.t :=
  store_call (fun w =>
    match encounter_id, drug_name, dosage, frequency, duration with
    | Num eid, JString dn, JString dos, JString fr, JString du =>
        match find_encounter eid w, find_user created_by w with
        | Some _, Some _ =>
            let row := Prescription.mk (prescription_seq w) eid dn dos fr du created_by (now w) in
            (Returned row,
             with_prescriptions w (prescriptions w ++ [row]) (prescription_seq w + 1))
        | _, _ => (Thrown "PrismaClientKnownRequestError", w)
        end
    | _, _, _, _, _ => invalid w
    end).

(** *** Queries *)

(** Letters A to Z to lower case. *)
Definition lower_ascii (c : ascii) : ascii :=
  let n := nat_of_ascii c in
  if ((65 <=? n) && (n <=? 90))%nat then ascii_of_nat (n + 32) else c.

Fixpoint toLowerCase (s : string) : string :=
  match s with
  | EmptyString => EmptyString
  | String c s' => String (lower_ascii c) (toLowerCase s')
  end.

Fixpoint starts_with (sub s : string) : bool :=
  match sub, s with
  | EmptyString, _ => true
  | String a sub', String b s' => Ascii.eqb a b && starts_with sub' s'
  | String _ _, EmptyString => false
  end.

(** [f] holds of [s] or of what is left of [s] after some of its characters. *)
Fixpoint any_suffix (f : string -> bool) (s : string) : bool :=
  f s ||
  match s with
  | EmptyString => false
  | String _ s' => any_suffix f s'
  end.

(** Modelled from the spec: the pattern match of the store (PostgreSQL's
    [LIKE]): in the pattern [%] stands for any text, [_] for any one
    character, and a backslash takes the character after it as it is; a
    pattern that ends in a lone backslash, which the pattern of a
    [contains] never does, matches nothing. *)
Fixpoint like (pattern s : string) : bool :=
  match pattern with
  | EmptyString => match s with EmptyString => true | String _ _ => false end
  | String c pattern' =>
      if Ascii.eqb c "%" then any_suffix (like pattern') s
      else if Ascii.eqb c "_" then
        match s with
        | String _ s' => like pattern' s'
        | EmptyString => false
        end
      else if Ascii.eqb c "092" then
        match pattern', s with
        | String e pattern'', String d s' => Ascii.eqb e d && like pattern'' s'
        | _, _ => false
        end
      else
        match s with
        | String d s' => Ascii.eqb c d && like pattern' s'
        | EmptyString => false
        end
  end.

(** Modelled from the spec: [{ contains: search }] of the Prisma client,
    which matches against the pattern [%search%] and leaves the [%], [_]
    and backslashes of the search text to the pattern match. *)
Definition contains (search s : string) : bool :=
  like ("%" ++ search ++ "%") s.

(** [OR: [{ full_name: { contains, mode: 'insensitive' } }, { phone: { contains } }]]:
    with [mode: 'insensitive'] the client compares whatever the case, without
    it the text as it is written; a patient without a phone does not match
    on it. *)
Definition patient_where (search : string) (p : Patient.t) : bool :=
  contains (toLowerCase search) (toLowerCase (Patient.full_name p)) ||
  match Patient.phone p with
  | Some ph => contains search ph
  | None => false
  end.

(** Modelled from the spec: [orderBy: { key: 'desc' }] of the Prisma client,
    newest first; rows with the same key keep their order. *)
Fixpoint insert_desc {A} (key : A -> Z) (x : A) (l : list A) : list A :=
  match l with
  | [] => [x]
  | y :: l' => if key y <=? key x then x :: l else y :: insert_desc key x l'
  end.

Fixpoint orderBy_desc {A} (key : A -> Z) (l : list A) : list A :=
  match l with
  | [] => []
  | x :: l' => insert_desc key x (orderBy_desc key l')
  end.

(** Modelled from the spec: the rows of
    [prisma.patient.findMany({ where, orderBy: { created_at: 'desc' }, take: 50 })],
    up to 50 rows, newest first. *)
Definition patient_rows (where_search : option string) (w : World) : list Patient.t :=
  firstn 50
    (orderBy_desc Patient.created_at
       (match where_search with
        | Some s => filter (patient_where s) (patients w)
        | None => patients w
        end)).

Definition prisma_patient_findMany (where_search : option string) : M (list Patient.t) :=
  store_call (fun w => (Returned (patient_rows where_search w), w)).

(** Modelled from the spec:
    [prisma.auditLog.findMany({ orderBy: { timestamp: 'desc' }, take: 100 })],
    the most recent 100 entries, newest first. *)
Definition prisma_auditLog_findMany : M (list AuditLog.t) :=
  store_call (fun w =>
    (Returned (firstn 100 (orderBy_desc AuditLog.timestamp (auditLogs w))), w)).

(** Modelled from the spec: the [include] of the records route, the
    prescriptions of an encounter, newest first, each with its creator. *)
Definition prescriptions_of (e : Encounter.t) (w : World)
  : list (Prescription.t * option User.t) :=
  map (fun p => (p, find_user (Prescription.created_by p) w))
      (orderBy_desc Prescription.created_at
         (filter (fun p => Prescription.encounter_id p =? Encounter.id e) (prescriptions w))).

Definition prisma_encounter_findMany (patient_id : jsnum)
  : M (list (Encounter.t * list (Prescription.t * option User.t))) :=
  store_call (fun w =>
    match patient_id with
    | Num pid =>
        (Returned
           (map (fun e => (e, prescriptions_of e w))
                (orderBy_desc Encounter.created_at
                   (filter (fun e => Encounter.patient_id e =? pid) (encounters w)))),
         w)
    | NaN => invalid w
    end).

(** ** The server file: handlers and routes

    A request is taken as it reaches its route: what the application puts
    before every route (cookie parser, helmet, cors, logger, rate limiter,
    JSON body parser) is the platform's. *)

Section Routes.

Variable R : Runtime.

(** [const { a, b } = req.body]: a [TypeError] on [null] and [undefined]. *)
Definition destructure (b : jsval) : M jsval :=
  match b with
  | JUndefined | JNull => throw "TypeError"
  | _ => ret b
  end.

(** [try { ... } catch (error) { console.error(error);
    res.status(500).json({ error: 'Database error' }) }] *)
Definition handler_try (m : M unit) : M unit :=
  try_catch m (fun e =>
    console_error e ;;; respond R 500 (error_body "Database error")).

Definition created_body (id : Z) (message : string) : jsval :=
  JObject [("id", JNumber (Num id)); ("message", JString message)].

(** [POST /api/patients] *)
Definition post_patients : M unit :=
  handler_try
    (st <- get;;
     b <- destructure (body (req st));;
     patient <- prisma_patient_create
                  (opt_prop b "full_name")
                  (Date_new R (opt_prop b "date_of_birth"))
                  (opt_prop b "gender")
                  (opt_prop b "phone");;
     respond R 201 (created_body (Patient.id patient) "Patient created successfully")).

(** [GET /api/patients] *)
Definition get_patients : M unit :=
  handler_try
    (st <- get;;
     let search := of_opt_string (query_search (req st)) in
     patients <- prisma_patient_findMany
                   (if truthy search then query_search (req st) else None);;
     res_json R (JArray (map Patient.to_js patients))).

(** [GET /api/patients/:id] *)
Definition get_patient : M unit :=
  handler_try
    (st <- get;;
     let id := of_opt_string (params_id (req st)) in
     patient <- prisma_patient_findUnique (parseInt R id);;
     match patient with
     | None => respond R 404 (error_body "Patient not found")
     | Some p => res_json R (Patient.to_js p)
     end).

(** [POST /api/encounters] *)
Definition post_encounters : M unit :=
  handler_try
    (st <- get;;
     b <- destructure (body (req st));;
     let patient_id := opt_prop b "patient_id" in
     patient <- prisma_patient_findUnique (parseInt R patient_id);;
     match patient with
     | None => respond R 404 (error_body "Patient not found")
     | Some _ =>
         encounter <- prisma_encounter_create (parseInt R patient_id)
                        (opt_prop b "clinician_role") (opt_prop b "notes");;
         respond R 201 (created_body (Encounter.id encounter) "Encounter created successfully")
     end).

(** [POST /api/prescriptions] *)
Definition post_prescriptions : M unit :=
  handler_try
    (st <- get;;
     b <- destructure (body (req st));;
     let encounter_id := opt_prop b "encounter_id" in
     encounter <- prisma_encounter_findUnique (parseInt R encounter_id);;
     match encounter with
     | None => respond R 404 (error_body "Encounter not found")
     | Some _ =>
         created_by <- match user (req st) with
                       | Some u => ret (User.id u)
                       | None => throw "TypeError"
                       end;;
         prescription <- prisma_prescription_create (parseInt R encounter_id)
                           (opt_prop b "drug_name") (opt_prop b "dosage")
                           (opt_prop b "frequency") (opt_prop b "duration") created_by;;
         respond R 201 (created_body (Prescription.id prescription)
                                  "Prescription created successfully")
     end).

(** [{ ...p, prescribed_by: p.creator.username }] *)
Definition prescribed (pc : Prescription.t * option User.t) : M jsval :=
  match snd pc with
  | Some u =>
      ret (JObject (Prescription.fields (fst pc) ++
                    [("creator", JObject [("username", JString (User.username u))]);
                     ("prescribed_by", JString (User.username u))]))
  | None => throw "TypeError"
  end.

Fixpoint map_M {A B} (f : A -> M B) (l : list A) : M (list B) :=
  match l with
  | [] => ret []
  | x :: l' => y <- f x;; ys <- map_M f l';; ret (y :: ys)
  end.

(** [GET /api/patients/:id/records] *)
Definition get_patient_records : M unit :=
  handler_try
    (st <- get;;
     let patientId := parseInt R (of_opt_string (params_id (req st))) in
     patient <- prisma_patient_findUnique patientId;;
     match patient with
     | None => respond R 404 (error_body "Patient not found")
     | Some p =>
         encounters <- prisma_encounter_findMany patientId;;
         prescriptions <- map_M prescribed (List.concat (map snd encounters));;
         res_json R
           (JObject [("patient", Patient.to_js p);
                     ("encounters", JArray (map (fun e => Encounter.to_js (fst e)) encounters));
                     ("prescriptions", JArray prescriptions)])
     end).

(** [GET /api/audit-logs] *)
Definition get_audit_logs : M unit :=
  handler_try
    (auditLogs <- prisma_auditLog_findMany;;
     res_json R (JArray (map AuditLog.to_js auditLogs))).

(** [app.METHOD(path, m1, ..., mk, handler)] *)
Fixpoint chain (ms : list Middleware) (handler : M unit) : M unit :=
  match ms with
  | [] => handler
  | m :: ms' => m (chain ms' handler)
  end.

Inductive Route : Type :=
| POST_patients
| GET_patients
| GET_patient
| POST_encounters
| POST_prescriptions
| GET_patient_records
| GET_audit_logs.

Definition allowed_roles (rt : Route) : list UserRole :=
  match rt with
  | POST_patients | GET_patients | GET_patient | GET_patient_records => [doctor; nurse; admin]
  | POST_encounters => [doctor; nurse]
  | POST_prescriptions => [doctor]
  | GET_audit_logs => [admin]
  end.

Definition route (rt : Route) : M unit :=
  match rt with
  | POST_patients =>
      chain [authenticateToken R; requireRole R [doctor; nurse; admin];
             validate R patientSchema; auditLog "CREATE" "patient"] post_patients
  | GET_patients =>
      chain [authenticateToken R; requireRole R [doctor; nurse; admin]] get_patients
  | GET_patient =>
      chain [authenticateToken R; requireRole R [doctor; nurse; admin];
             auditLog "READ" "patient"] get_patient
  | POST_encounters =>
      chain [authenticateToken R; requireRole R [doctor; nurse];
             validate R encounterSchema; auditLog "CREATE" "encounter"] post_encounters
  | POST_prescriptions =>
      chain [authenticateToken R; requireRole R [doctor];
             validate R prescriptionSchema; auditLog "CREATE" "prescription"]
            post_prescriptions
  | GET_patient_records =>
      chain [authenticateToken R; requireRole R [doctor; nurse; admin];
             auditLog "READ" "patient_records"] get_patient_records
  | GET_audit_logs =>
      chain [authenticateToken R; requireRole R [admin]] get_audit_logs
  end.

(** The audit declaration of a route, when it has one. *)
Definition audited (rt : Route) : option (string * string) :=
  match rt with
  | POST_patients => Some ("CREATE", "patient")
  | GET_patient => Some ("READ", "patient")
  | POST_encounters => Some ("CREATE", "encounter")
  | POST_prescriptions => Some ("CREATE", "prescription")
  | GET_patient_records => Some ("READ", "patient_records")
  | GET_patients | GET_audit_logs => None
  end.

(** A response object as Express hands it to the first middleware. *)
Definition fresh_response : Response := mkResponse 200 [] [].

(** One request served against the store [w]. *)
Definition serve (rt : Route) (rq : Request) (w : World) : outcome unit * St :=
  route rt (mkSt w rq fresh_response).

End Routes.

(** ** A platform to run the examples on

    The three seeded accounts behind three fixed tokens, [parseInt] on
    decimal strings, and a compact JSON printer and reader for texts without
    escapes or fractions (a date prints as its quoted timestamp).  It agrees
    with the real platform on the inputs of the examples below. *)

Module Demo.

(** the claims [jwt.sign] adds with [expiresIn: '24h'] *)
Definition session_claims : list (string * jsval) :=
  [("iat", JNumber (Num 1700000000)); ("exp", JNumber (Num 1700086400))].

Definition dr_smith : Payload.t := Payload.mk (User.mk 1 "dr_smith" doctor) session_claims.
Definition nurse_jane : Payload.t :=
  Payload.mk (User.mk 2 "nurse_jane" nurse) session_claims.
Definition administrator : Payload.t := Payload.mk (User.mk 3 "admin" admin) session_claims.

Definition jwt_verify (token : string) : option Payload.t :=
  if String.eqb token "doctor.jwt" then Some dr_smith
  else if String.eqb token "nurse.jwt" then Some nurse_jane
  else if String.eqb token "admin.jwt" then Some administrator
  else None.

Definition digit (c : ascii) : option Z :=
  let n := nat_of_ascii c in
  if ((48 <=? n) && (n <=? 57))%nat then Some (Z.of_nat (n - 48)) else None.

(** the longest prefix of decimal digits, with what follows it *)
Fixpoint digits (acc : option Z) (s : string) : option Z * string :=
  match s with
  | EmptyString => (acc, s)
  | String c s' =>
      match digit c with
      | Some d => digits (Some (10 * match acc with Some a => a | None => 0 end + d)) s'
      | None => (acc, s)
      end
  end.

Definition signed_digits (s : string) : option Z * string :=
  match s with
  | String "-"%char s' =>
      match digits None s' with
      | (Some z, rest) => (Some (- z), rest)
      | (None, _) => (None, s)
      end
  | _ => digits None s
  end.

Definition parseInt (v : jsval) : jsnum :=
  match v with
  | JString s => match fst (signed_digits s) with Some z => Num z | None => NaN end
  | JNumber n => n
  | _ => NaN
  end.

Definition quote : string := String "034"%char EmptyString.

Fixpoint decimal (fuel : nat) (n : Z) (acc : string) : string :=
  match fuel with
  | O => acc
  | S fuel' =>
      let acc' := String (ascii_of_nat (48 + Z.to_nat (n mod 10))) acc in
      if n <? 10 then acc' else decimal fuel' (n / 10) acc'
  end.

Definition Z_to_string (z : Z) : string :=
  if z <? 0 then String "-"%char (decimal (S (Z.to_nat (Z.log2 (- z)))) (- z) EmptyString)
  else decimal (S (Z.to_nat (Z.log2 z))) z EmptyString.

Fixpoint JSON_stringify (v : jsval) : string :=
  match v with
  | JUndefined | JNull | JNumber NaN => "null"
  | JBool true => "true"
  | JBool false => "false"
  | JNumber (Num z) => Z_to_string z
  | JString s => (quote ++ s ++ quote)%string
  | JDate t => (quote ++ Z_to_string t ++ quote)%string
  | JArray l =>
      ("[" ++ String.concat "," (map JSON_stringify l) ++ "]")%string
  | JObject fields =>
      ("{" ++ String.concat ","
                (map (fun kv => (quote ++ fst kv ++ quote ++ ":" ++ JSON_stringify (snd kv))%string)
                     fields)
           ++ "}")%string
  end.

(** the characters up to the closing quote, and what follows it *)
Fixpoint until_quote (s : string) : option (string * string) :=
  match s with
  | EmptyString => None
  | String c s' =>
      if Ascii.eqb c "034"%char then Some (EmptyString, s')
      else match until_quote s' with
           | Some (a, rest) => Some (String c a, rest)
           | None => None
           end
  end.

Definition literal (word : string) (v : jsval) (s : string) : option (jsval * string) :=
  if starts_with word s
  then Some (v, String.substring (String.length word)
                                 (String.length s - String.length word) s)
  else None.

Fixpoint read_value (fuel : nat) (s : string) : option (jsval * string) :=
  match fuel with
  | O => None
  | S fuel' =>
      match s with
      | String "n"%char _ => literal "null" JNull s
      | String "t"%char _ => literal "true" (JBool true) s
      | String "f"%char _ => literal "false" (JBool false) s
      | String "034"%char s' =>
          match until_quote s' with
          | Some (a, rest) => Some (JString a, rest)
          | None => None
          end
      | String "["%char (String "]"%char rest) => Some (JArray [], rest)
      | String "["%char s' =>
          match read_elements fuel' s' with
          | Some (l, rest) => Some (JArray l, rest)
          | None => None
          end
      | String "{"%char (String "}"%char rest) => Some (JObject [], rest)
      | String "{"%char s' =>
          match read_members fuel' s' with
          | Some (l, rest) => Some (JObject l, rest)
          | None => None
          end
      | _ =>
          match signed_digits s with
          | (Some z, rest) => Some (JNumber (Num z), rest)
          | (None, _) => None
          end
      end
  end
with read_elements (fuel : nat) (s : string) : option (list jsval * string) :=
  match fuel with
  | O => None
  | S fuel' =>
      match read_value fuel' s with
      | Some (v, String ","%char rest) =>
          match read_elements fuel' rest with
          | Some (l, rest') => Some (v :: l, rest')
          | None => None
          end
      | Some (v, String "]"%char rest) => Some ([v], rest)
      | _ => None
      end
  end
with read_members (fuel : nat) (s : string) : option (list (string * jsval) * string) :=
  match fuel with
  | O => None
  | S fuel' =>
      match s with
      | String "034"%char s' =>
          match until_quote s' with
          | Some (k, String ":"%char s'') =>
              match read_value fuel' s'' with
              | Some (v, String ","%char rest) =>
                  match read_members fuel' rest with
                  | Some (l, rest') => Some ((k, v) :: l, rest')
                  | None => None
                  end
              | Some (v, String "}"%char rest) => Some ([(k, v)], rest)
              | _ => None
              end
          | _ => None
          end
      | _ => None
      end
  end.

Definition JSON_parse (s : string) : option jsval :=
  match read_value (S (String.length s)) s with
  | Some (v, EmptyString) => Some v
  | _ => None
  end.

(** a timestamp already in milliseconds, as a number or a decimal string *)
Definition Date_new (v : jsval) : option Z :=
  match parseInt v with Num z => Some z | NaN => None end.

(** the required keys must be present *)
Definition Joi_validate (schema : JoiSchema) (body : jsval) : list string :=
  flat_map (fun kk =>
              if joi_required (snd kk) && negb (truthy (opt_prop body (fst kk)))
              then [(quote ++ fst kk ++ quote ++ " is required")%string]
              else [])
           schema.

Definition platform : Runtime :=
  mkRuntime jwt_verify parseInt JSON_parse JSON_stringify Date_new Joi_validate.

Definition jane : Patient.t := Patient.mk 1 "Jane Doe" 631152000000 "female" (Some "555-CALL") 1000.
Definition john : Patient.t := Patient.mk 2 "John Roe" 0 "male" None 2000.

Definition clinic : World :=
  mkWorld [User.mk 1 "dr_smith" doctor; User.mk 2 "nurse_jane" nurse; User.mk 3 "admin" admin]
          [jane; john] [] [] [] 3 1 1 1 3000 [] [].

Definition request (token : option string) (id search : option string) (body : jsval)
  : Request := mkRequest token id search body None.


(** a response under way on an audited READ route, status 200 *)
Definition reading (id : option string) (w : World) : St :=
  mkSt w (mkRequest (Some "doctor.jwt") id None JUndefined (Some dr_smith))
       (mkResponse 200 [("READ", "patient")] []).

Definition jane_text : string := JSON_stringify (Patient.to_js jane).

(** the store about to reject its next call *)
Definition failing : World :=
  mkWorld (users clinic) (patients clinic) [] [] [] 3 1 1 1 3000 [true] [].



(** a response under way on an audited CREATE route, status 201 *)
Definition creating (body : jsval) (w : World) : St :=
  mkSt w (mkRequest (Some "doctor.jwt") None None body (Some dr_smith))
       (mkResponse 201 [("CREATE", "patient")] []).

Definition patient_body : jsval :=
  JObject [("full_name", JString "Ann Poe"); ("date_of_birth", JString "946684800000");
           ("gender", JString "other")].

Definition prescription_for (encounter_id : Z) : jsval :=
  JObject [("encounter_id", JNumber (Num encounter_id)); ("drug_name", JString "Amoxicillin");
           ("dosage", JString "500mg"); ("frequency", JString "8h");
           ("duration", JString "7d")].

Definition prescription_body : jsval := prescription_for 7.

Definition visit_body : jsval :=
  JObject [("patient_id", JNumber (Num 1)); ("clinician_role", JString "doctor")].

(** the clinic after two visits and two prescriptions *)
Definition ward : World :=
  mkWorld (users clinic) (patients clinic)
          [Encounter.mk 1 1 "doctor" None 2500; Encounter.mk 2 2 "nurse" (Some "flu") 2600]
          [Prescription.mk 1 1 "Amoxicillin" "500mg" "8h" "7d" 1 2700;
           Prescription.mk 2 2 "Ibuprofen" "200mg" "12h" "3d" 1 2800]
          [] 3 3 3 1 3000 [] [].

End Demo.

(** ** auth.ts, the session endpoints: [getMe], [login], [logout] *)

(** [res.cookie(name, value, options)] and [res.clearCookie(name, options)],
    as the headers they put on the response. *)
Record CookieOptions : Type := mkCookieOptions {
  httpOnly : bool;
  secure : bool;
  sameSite : string;
  maxAge : option Z;
  path : option string
}.

Inductive CookieOp : Type :=
| SetCookie (name value : string) (options : CookieOptions)
| ClearCookie (name : string) (options : CookieOptions).

(** A row of the users table with the column [World.users] leaves out. *)
Module Account.
Record t : Type := mk {
  id : Z; username : string; role : UserRole; password_hash : string }.
Definition identity (a : t) : User.t := User.mk (id a) (username a) (role a).
End Account.

(** What [login] calls beside the platform of the routes. *)
Record AuthPlatform : Type := mkAuthPlatform {
  (** [bcrypt.compareSync(password, hash)] on two strings *)
  bcrypt_compareSync : string -> string -> bool;
  (** [jwt.sign({ id, username, role }, JWT_SECRET, { expiresIn: '24h' })] *)
  jwt_sign : User.t -> string;
  (** [process.env.NODE_ENV === 'production'] *)
  production : bool
}.

(** The state of a session endpoint: the state of a route, the credential
    rows [login] reads, and the cookie headers set so far. *)
Record Exchange : Type := mkExchange {
  exchange_st : St;
  accounts : list Account.t;
  cookie_ops : list CookieOp
}.

Definition MX (A : Type) : Type := Exchange -> outcome A * Exchange.

Definition retX {A} (a : A) : MX A := fun x => (Returned a, x).
Definition bindX {A B} (m : MX A) (k : A -> MX B) : MX B :=
  fun x => match m x with
           | (Returned a, x') => k a x'
           | (Thrown e, x') => (Thrown e, x')
           end.
Definition try_catchX {A} (m : MX A) (h : string -> MX A) : MX A :=
  fun x => match m x with
           | (Returned a, x') => (Returned a, x')
           | (Thrown e, x') => h e x'
           end.
Definition getX : MX Exchange := fun x => (Returned x, x).

(** A computation on the request, the response and the store, run inside an
    exchange. *)
Definition liftX {A} (m : M A) : MX A :=
  fun x => let (o, st') := m (exchange_st x) in
           (o, mkExchange st' (accounts x) (cookie_ops x)).

Definition cookie_header (op : CookieOp) : MX unit :=
  fun x => (Returned tt, mkExchange (exchange_st x) (accounts x) (cookie_ops x ++ [op])).

Section Session.

Variable R : Runtime.
Variable P : AuthPlatform.

(** [getMe]: [res.json({ user: req.user })] sends the decoded payload as it
    was attached, the claims the program never reads included. *)
Definition getMe : M unit :=
  st <- get;;
  match user (req st) with
  | None => respond R 401 (error_body "Not authenticated")
  | Some u => res_json R (JObject [("user", Payload.to_js u)])
  end.

(** [app.get('/api/auth/me', authenticateToken, getMe)] *)
Definition route_me : M unit := chain [authenticateToken R] getMe.

(** Modelled from the spec: [prisma.user.findUnique({ where: { username } })]
    on the credential store (username unique, password hash, role), whose
    schema is not among the sources; a username that is no string is
    refused by the client. *)
Definition prisma_user_findUnique (username : jsval) : MX (option Account.t) :=
  bindX (liftX (store_call (fun w =>
                  match username with
                  | JString _ => (Returned tt, w)
                  | _ => invalid w
                  end)))
        (fun _ x =>
           (Returned (match username with
                      | JString n =>
                          find (fun a => String.eqb (Account.username a) n) (accounts x)
                      | _ => None
                      end), x)).

(** [bcrypt.compareSync(password, hash)]: it throws on a password that is no
    string. *)
Definition compareSync (password : jsval) (hash : string) : MX bool :=
  match password with
  | JString p => retX (bcrypt_compareSync P p hash)
  | _ => liftX (throw "Illegal arguments")
  end.

Definition login_cookie : CookieOptions :=
  mkCookieOptions true (production P) (if production P then "none" else "lax")
                  (Some (24 * 60 * 60 * 1000)) None.

Definition login_body (u : User.t) : jsval :=
  JObject [("message", JString "Login successful"); ("user", User.to_js u)].

(** [login] *)
Definition login : MX unit :=
  bindX getX (fun x =>
  bindX (liftX (destructure (body (req (exchange_st x))))) (fun b =>
  let username := opt_prop b "username" in
  let password := opt_prop b "password" in
  if negb (truthy username) || negb (truthy password) then
    liftX (respond R 400 (error_body "Username and password required"))
  else
    try_catchX
      (bindX (prisma_user_findUnique username) (fun found =>
       match found with
       | None => liftX (respond R 401 (error_body "Invalid credentials"))
       | Some a =>
           bindX (compareSync password (Account.password_hash a)) (fun ok =>
           if negb ok then liftX (respond R 401 (error_body "Invalid credentials"))
           else
             let token := jwt_sign P (Account.identity a) in
             bindX (cookie_header (SetCookie "token" token login_cookie)) (fun _ =>
             liftX (res_json R (login_body (Account.identity a)))))
       end))
      (fun _ =>
         bindX (liftX (console_error "Login error:")) (fun _ =>
         liftX (respond R 500 (error_body "Internal server error")))))).

(** [validate], in front of a session endpoint. *)
Definition validateX (schema : JoiSchema) (next : MX unit) : MX unit :=
  bindX getX (fun x =>
  match Joi_validate R schema (body (req (exchange_st x))) with
  | [] => next
  | msgs => liftX (respond R 400 (error_body (String.concat ", " msgs)))
  end).

(** [app.post('/api/auth/login', validate(loginSchema), login)] *)
Definition route_login : MX unit := validateX loginSchema login.

Definition logout_cookie : CookieOptions :=
  mkCookieOptions true (production P) (if production P then "none" else "lax")
                  None (Some "/").

(** [logout], the whole of [app.post('/api/auth/logout', logout)] *)
Definition logout : MX unit :=
  bindX (cookie_header (ClearCookie "token" logout_cookie)) (fun _ =>
  liftX (res_json R (JObject [("message", JString "Logged out successfully")]))).

(** A session endpoint served: a fresh response, no cookie header yet. *)
Definition serveX (m : MX unit) (rq : Request) (w : World) (accts : list Account.t)
  : outcome unit * Exchange :=
  m (mkExchange (mkSt w rq fresh_response) accts []).

End Session.

(** The accounts of the demonstration platform, with a password check that
    compares the password with the hash as texts. *)
Module DemoAuth.

Definition auth : AuthPlatform :=
  mkAuthPlatform String.eqb
                 (fun u => (UserRole_to_string (User.role u) ++ ".jwt")%string)
                 false.

Definition seeded : list Account.t :=
  [Account.mk 1 "dr_smith" doctor "password123";
   Account.mk 2 "nurse_jane" nurse "password123";
   Account.mk 3 "admin" admin "password123"].

Definition credentials (username password : string) : jsval :=
  JObject [("username", JString username); ("password", JString password)].

End DemoAuth.

(** * Statements

    The notions the properties are stated with. *)

(** What the store holds beside the audit trail and the logs. *)
Definition clinical (w : World) :=
  (users w, patients w, encounters w, prescriptions w,
   (patient_seq w, encounter_seq w, prescription_seq w, now w)).

(** The store once a call has consumed its fault flag. *)
Definition called (w : World) : World := with_faults w (tl (faults w)).

(** The row the recording step writes. *)
Definition audit_row (w : World) (u : User.t) (action entityType : string)
    (eid : option Z) : AuditLog.t :=
  AuditLog.mk (audit_seq w) (User.role u) action entityType eid (now w).

(** The store once the recording step has written [row]. *)
Definition recorded (w : World) (row : AuditLog.t) : World :=
  with_auditLogs (called w) (auditLogs w ++ [row]) (audit_seq w + 1).

(** The step has persisted a record: the trail is one row longer. *)
Definition persisted (st st' : St) : Prop :=
  exists row, auditLogs (world st') = auditLogs (world st) ++ [row].

(** A number as an identifier: 0 and [NaN], which are falsy, give none. *)
Definition nonzero (n : jsnum) : option Z :=
  match n with
  | Num z => if z =? 0 then None else Some z
  | NaN => None
  end.

(** The [id] of the response body, as an identifier. *)
Definition body_entity_id (v : jsval) : option Z :=
  match opt_prop v "id" with
  | JNumber n => nonzero n
  | _ => None
  end.

(** The [id] of the body, when it is the one looked at, is falsy or an
    integer: anything else the store refuses. *)
Definition body_id_storable (rq : Request) (v : jsval) : Prop :=
  truthy (of_opt_string (params_id rq)) = false ->
  truthy (opt_prop v "id") = true ->
  exists z, opt_prop v "id" = JNumber (Num z).

(** The request with the decoded identity attached. *)
Definition attach (st : St) (u : Payload.t) : St :=
  set_req st (mkRequest (cookies_token (req st)) (params_id (req st))
                        (query_search (req st)) (body (req st)) (Some u)).

(** The schema a route validates its body against, when it has one. *)
Definition schema_of (rt : Route) : option JoiSchema :=
  match rt with
  | POST_patients => Some patientSchema
  | POST_encounters => Some encounterSchema
  | POST_prescriptions => Some prescriptionSchema
  | _ => None
  end.

(** The state in which the handler of a route starts. *)
Definition admitted (rt : Route) (rq : Request) (w : World) (u : Payload.t) : St :=
  mkSt w
       (mkRequest (cookies_token rq) (params_id rq) (query_search rq) (body rq) (Some u))
       (mkResponse 200 (match audited rt with Some d => [d] | None => [] end) []).

(** Neither the audit trail nor the console changed. *)
Definition quiet (w w' : World) : Prop :=
  auditLogs w' = auditLogs w /\ console w' = console w.

(** A step of a handler that works on the store only, and leaves the audit
    trail and the console alone. *)
Definition store_step {A} (m : M A) : Prop :=
  forall st, exists o w', m st = (o, set_world st w') /\ quiet (world st) w'.

(** [sub] occurs in [s]. *)
Definition occurs_in (sub s : string) : Prop :=
  exists pre post, s = (pre ++ sub ++ post)%string.

(** The characters the pattern match of the store reads as its own. *)
Definition wildcard (c : ascii) : bool :=
  Ascii.eqb c "%" || Ascii.eqb c "_" || Ascii.eqb c "092".

(** A search text with none of them. *)
Fixpoint plain (s : string) : bool :=
  match s with
  | EmptyString => true
  | String c s' => negb (wildcard c) && plain s'
  end.

(** The patients the [where] of the list route keeps: the name contains the
    search text whatever the case of either, or the phone contains it as
    it is written. *)
Definition matches (search : string) (p : Patient.t) : Prop :=
  occurs_in (toLowerCase search) (toLowerCase (Patient.full_name p))
  \/ exists ph, Patient.phone p = Some ph /\ occurs_in search ph.

(** The same test with the phone compared whatever the case, as C8 has it. *)
Definition matches_insensitive (search : string) (p : Patient.t) : Prop :=
  occurs_in (toLowerCase search) (toLowerCase (Patient.full_name p))
  \/ exists ph, Patient.phone p = Some ph
                /\ occurs_in (toLowerCase search) (toLowerCase ph).

(** Newest first: no row is followed by a row with a greater key. *)
Definition newest_first {A} (key : A -> Z) (l : list A) : Prop :=
  StronglySorted (fun a b => key b <= key a) l.

(** C8 as the claim words it: the rows are exactly the patients whose name
    or phone contains the search text, case set aside; at most 50, newest
    first. *)
Definition search_as_stated (search : string) (w : World) : Prop :=
  (forall p, In p (patient_rows (Some search) w)
             <-> In p (patients w) /\ matches_insensitive search p)
  /\ (List.length (patient_rows (Some search) w) <= 50)%nat
  /\ newest_first Patient.created_at (patient_rows (Some search) w).

Section Statements.

Variable R : Runtime.

(** [res.status(code).json(body)] on a response not yet sent. *)
Definition answered (code : Z) (body : jsval) (st : St) : St :=
  set_res st (mkResponse code (send_wrappers (res st))
                         [(code, JSON_stringify R body)]).

(** What the recording step needs to go through: the body parses, the
    identifier it derives is [null] or an integer, the store takes the write. *)
Definition recording_succeeds (data : jsval) (st : St) : Prop :=
  exists v eid,
    parsed R data = Some v
    /\ storable_entity_id (js_or (derive_entityId R (req st) v) JNull) = Some eid
    /\ hd false (faults (world st)) = false.

(** C4 as the claim words it. *)
Definition persisted_as_stated (action entityType : string) (data : jsval) (st : St)
  : Prop :=
  persisted st (snd (audit_record R action entityType data st))
  <-> (200 <= statusCode (res st) < 300 /\ user (req st) <> None).

(** The identifier the record carries, as C5 words it: the integer path
    identifier when the path has an [:id] parameter, otherwise the [id] of
    the response body, otherwise null. *)
Definition stated_entity_id (rq : Request) (v : jsval) : option Z :=
  match params_id rq with
  | Some s => match parseInt R (JString s) with Num z => Some z | NaN => None end
  | None => match opt_prop v "id" with JNumber (Num z) => Some z | _ => None end
  end.

(** The same order with the code's coercion: a path parameter that is
    present and not empty decides alone, the body's [id] is looked at only
    without one, and an identifier that is falsy (0, [NaN], absent) is null. *)
Definition coerced_entity_id (rq : Request) (v : jsval) : option Z :=
  match params_id rq with
  | Some s => if String.eqb s "" then body_entity_id v
              else nonzero (parseInt R (JString s))
  | None => body_entity_id v
  end.

(** The response body behind what is sent: the value the text parses to on
    the platform, and what is no text as it is. *)
Definition sent_value (data v : jsval) : Prop :=
  match data with
  | JString text => JSON_parse R text = Some v
  | _ => v = data
  end.

(** C5 as the claim words it. *)
Definition entity_id_as_stated (action entityType : string) (data : jsval) (st : St)
  : Prop :=
  forall u v,
    200 <= statusCode (res st) < 300 ->
    user (req st) = Some u ->
    sent_value data v ->
    body_id_storable (req st) v ->
    hd false (faults (world st)) = false ->
    auditLogs (world (snd (audit_record R action entityType data st)))
    = auditLogs (world st)
      ++ [audit_row (world st) u action entityType (stated_entity_id (req st) v)].

(** The identifier is falsy, in the cases C10 lists: the path parameter
    parses to 0 or [NaN], or, without a path parameter, the [id] of the
    response body is 0 or absent. *)
Definition falsy_identifier (rq : Request) (v : jsval) : Prop :=
  (exists s, params_id rq = Some s /\ s <> ""
             /\ (parseInt R (JString s) = Num 0 \/ parseInt R (JString s) = NaN))
  \/ ((params_id rq = None \/ params_id rq = Some "")
      /\ (opt_prop v "id" = JNumber (Num 0) \/ opt_prop v "id" = JUndefined)).

(** A handler that writes each of [bodies] with [res.json], one after the
    other, going on when a write fails. *)
Fixpoint writes (bodies : list jsval) : M unit :=
  match bodies with
  | [] => ret tt
  | b :: bs => try_catch (res_json R b) (fun _ => ret tt) ;;; writes bs
  end.

(** The requests on which every recording step goes through: one recorder
    installed, a success status, an identity attached, no fault pending in
    the store, and bodies whose texts parse to a storable identifier. *)
Definition records_every_write (action entityType : string) (bodies : list jsval)
    (st : St) : Prop :=
  send_wrappers (res st) = [(action, entityType)]
  /\ 200 <= statusCode (res st) < 300
  /\ user (req st) <> None
  /\ faults (world st) = []
  /\ forall b, In b bodies ->
       exists v eid,
         parsed R (JString (JSON_stringify R b)) = Some v
         /\ storable_entity_id (js_or (derive_entityId R (req st) v) JNull) = Some eid.

(** C6 as the claim words it: one recording step, however many writes. *)
Definition recorded_once_as_stated (action entityType : string) (bodies : list jsval)
    (st : St) : Prop :=
  bodies <> [] ->
  records_every_write action entityType bodies st ->
  List.length (auditLogs (world (snd (writes bodies st))))
  = S (List.length (auditLogs (world st))).

(** C3 as the claim words it: 401 without the cookie, 403 with a cookie that
    fails verification, the identity attached and the handler run otherwise. *)
Definition session_as_stated (next : M unit) (st : St) : Prop :=
  (cookies_token (req st) = None ->
   authenticateToken R next st = respond R 401 (error_body "Access token required") st)
  /\ (forall t, cookies_token (req st) = Some t -> jwt_verify R t = None ->
                authenticateToken R next st = respond R 403 (error_body "Invalid token") st)
  /\ (forall t u, cookies_token (req st) = Some t -> jwt_verify R t = Some u ->
                  authenticateToken R next st = next (attach st u)).

(** The last function of a route, after its middlewares. *)
Definition handler (rt : Route) : M unit :=
  match rt with
  | POST_patients => post_patients R
  | GET_patients => get_patients R
  | GET_patient => get_patient R
  | POST_encounters => post_encounters R
  | POST_prescriptions => post_prescriptions R
  | GET_patient_records => get_patient_records R
  | GET_audit_logs => get_audit_logs R
  end.

(** The request carries a cookie that verifies to [u], [u]'s role is allowed
    on the route, and the body passes the route's schema when it has one. *)
Definition authorized (rt : Route) (rq : Request) (u : Payload.t) : Prop :=
  exists t, cookies_token rq = Some t /\ t <> "" /\ jwt_verify R t = Some u
            /\ In (User.role u) (allowed_roles rt)
            /\ match schema_of rt with
               | Some schema => Joi_validate R schema (body rq) = []
               | None => True
               end.

(** The body of a handler's [try]: started on a response not yet sent, it
    ends in one [res.status(code).json(body)], or throws before any. *)
Definition try_body (m : M unit) : Prop :=
  forall st, delivered (res st) = [] ->
    (exists code body w',
        m st = respond R code body (set_world st w') /\ quiet (world st) w')
    \/ (exists e w', m st = (Thrown e, set_world st w') /\ quiet (world st) w').

(** C1 as the claim words it: on every protected route, the two list
    endpoints included, a success leaves exactly one record, with the role
    of the acting identity. *)
Definition one_record_as_stated (rt : Route) (rq : Request) (w : World) : Prop :=
  forall code text,
    delivered (res (snd (serve R rt rq w))) = [(code, text)] ->
    200 <= code < 300 ->
    exists u row,
      user (req (snd (serve R rt rq w))) = Some u
      /\ auditLogs (world (snd (serve R rt rq w))) = auditLogs w ++ [row]
      /\ AuditLog.user_role row = User.role u.


End Statements.

(** ** More notions, for the properties of whole requests *)

(** Neither the audit trail, nor the console, nor the users changed. *)
Definition steady (w w' : World) : Prop :=
  quiet w w' /\ users w' = users w.

(** A step of a handler that only reads the store. *)
Definition readonly_step {A} (m : M A) : Prop :=
  forall st, exists o w',
    m st = (o, set_world st w') /\ steady (world st) w'
    /\ clinical w' = clinical (world st).

(** A step of a handler that writes to a clinical table when it returns, and
    leaves the tables alone when it throws. *)
Definition creating_step {A} (m : M A) : Prop :=
  forall st, exists o w',
    m st = (o, set_world st w') /\ steady (world st) w'
    /\ (forall e, o = Thrown e -> clinical w' = clinical (world st)).

(** The statuses with which the handler of a route answers from inside its
    [try]. *)
Definition handler_codes (rt : Route) : list Z :=
  match rt with
  | POST_patients => [201]
  | POST_encounters | POST_prescriptions => [201; 404]
  | GET_patient | GET_patient_records => [200; 404]
  | GET_patients | GET_audit_logs => [200]
  end.

(** The ids of a table are all different and below the table's sequence. *)
Definition ids_fresh (ids : list Z) (seq : Z) : Prop :=
  NoDup ids /\ Forall (fun i => i < seq) ids.

(** The store is well formed: ids are fresh in every table, every encounter
    is the encounter of a patient, every prescription belongs to an
    encounter and was created by a user. *)
Definition well_formed (w : World) : Prop :=
  ids_fresh (map Patient.id (patients w)) (patient_seq w)
  /\ ids_fresh (map Encounter.id (encounters w)) (encounter_seq w)
  /\ ids_fresh (map Prescription.id (prescriptions w)) (prescription_seq w)
  /\ ids_fresh (map AuditLog.id (auditLogs w)) (audit_seq w)
  /\ (forall e, In e (encounters w) ->
        exists p, In p (patients w) /\ Patient.id p = Encounter.patient_id e)
  /\ (forall p, In p (prescriptions w) ->
        (exists e, In e (encounters w) /\ Encounter.id e = Prescription.encounter_id p)
        /\ (exists u, In u (users w) /\ User.id u = Prescription.created_by p)).

(** A computation that keeps the store well formed. *)
Definition keeps_well_formed {A} (m : M A) : Prop :=
  forall st, well_formed (world st) -> well_formed (world (snd (m st))).

(** The patient row a POST /api/patients inserts, and the store with it. *)
Definition new_patient (w : World) (n : string) (d : Z) (g : string) (ph : option string)
  : Patient.t :=
  Patient.mk (patient_seq w) n d g ph (now w).

Definition with_new_patient (w : World) (row : Patient.t) : World :=
  with_patients (called w) (patients w ++ [row]) (patient_seq w + 1).

(** The body of a POST /api/patients the store accepts: an object whose
    name and gender are strings, whose date of birth is a date, and whose
    phone is a string, null or missing. *)
Definition patient_fields (R : Runtime) (b : jsval) (n : string) (d : Z) (g : string)
    (ph : option string) : Prop :=
  (exists fields, b = JObject fields)
  /\ opt_prop b "full_name" = JString n
  /\ Date_new R (opt_prop b "date_of_birth") = Some d
  /\ opt_prop b "gender" = JString g
  /\ optional_string (opt_prop b "phone") = Some ph.

(** The body of a POST /api/encounters the store accepts, and the row it
    inserts. *)
Definition encounter_fields (R : Runtime) (b : jsval) (pid : Z) (cr : string)
    (n : option string) : Prop :=
  (exists fields, b = JObject fields)
  /\ parseInt R (opt_prop b "patient_id") = Num pid
  /\ opt_prop b "clinician_role" = JString cr
  /\ optional_string (opt_prop b "notes") = Some n.

Definition new_encounter (w : World) (pid : Z) (cr : string) (n : option string)
  : Encounter.t :=
  Encounter.mk (encounter_seq w) pid cr n (now w).



(** A prescription as the records route shows it, with its creator [c]. *)
Definition shown_prescription (row : Prescription.t * User.t) : jsval :=
  JObject (Prescription.fields (fst row) ++
           [("creator", JObject [("username", JString (User.username (snd row)))]);
            ("prescribed_by", JString (User.username (snd row)))]).

(** The body of the records of patient [p]. *)
Definition records_body (p : Patient.t) (encs : list Encounter.t)
    (rows : list (Prescription.t * User.t)) : jsval :=
  JObject [("patient", Patient.to_js p);
           ("encounters", JArray (map Encounter.to_js encs));
           ("prescriptions", JArray (map shown_prescription rows))].

(** A login request that the schema lets through, with both fields, texts
    that are not empty. *)
Definition login_request (R : Runtime) (rq : Request) (name password : string) : Prop :=
  Joi_validate R loginSchema (body rq) = []
  /\ (exists fields, body rq = JObject fields)
  /\ opt_prop (body rq) "username" = JString name
  /\ opt_prop (body rq) "password" = JString password
  /\ name <> "" /\ password <> "".

Section WholeRequests.

Variable R : Runtime.

(** The body of a handler's [try], with its statuses: it ends in one answer
    with one of [codes], having touched the clinical tables only if the
    answer is 201, or throws with the tables as they were. *)
Definition try_shape (codes : list Z) (m : M unit) : Prop :=
  forall st, delivered (res st) = [] -> statusCode (res st) = 200 ->
    (exists code body w',
        m st = respond R code body (set_world st w')
        /\ steady (world st) w' /\ In code codes
        /\ (code <> 201 -> clinical w' = clinical (world st)))
    \/ (exists e w',
          m st = (Thrown e, set_world st w')
          /\ steady (world st) w' /\ clinical w' = clinical (world st)).

(** What the [catch] of a handler makes of an exception. *)
Definition caught (e : string) (st : St) : St :=
  answered R 500 (error_body "Database error")
           (set_world st (with_console (world st) (console (world st) ++ [e]))).

End WholeRequests.

(** * Properties *)

Lemma UserRole_eqb_eq (a b : UserRole) : UserRole_eqb a b = true <-> a = b.
Proof. destruct a, b; simpl; split; intro H; congruence. Qed.

Lemma includes_In (roles : list UserRole) (r : UserRole) :
  includes roles r = true <-> In r roles.
Proof.
  unfold includes. rewrite existsb_exists. split.
  - intros [x [Hin Heq]]. apply UserRole_eqb_eq in Heq. now subst.
  - intro Hin. exists r. split; [assumption | now apply UserRole_eqb_eq].
Qed.

(** ** The audit recorder, seen from the response *)

(** Case analysis on an innermost [match] of the goal. *)
Ltac break_match :=
  match goal with
  | |- context [match ?x with _ => _ end] =>
      lazymatch x with
      | context [match _ with _ => _ end] => fail
      | _ => let E := fresh "E" in destruct x eqn:E
      end
  end.

Section AuditRecorder.

Variable R : Runtime.

(** The recording step returns, whatever fails inside it, and touches
    nothing but the audit trail, the fault flags and the console. *)
Lemma audit_record_frame (action entityType : string) (data : jsval) (st : St) :
  exists w', audit_record R action entityType data st = (Returned tt, set_world st w')
             /\ clinical w' = clinical (world st).
Proof.
  destruct st as [w rq rs].
  unfold audit_record, bind, get, try_catch, parse_data, parsed, prisma_auditLog_create,
    store_call, console_error, ret, throw, set_world; simpl.
  repeat (break_match; simpl in *; try discriminate);
    repeat match goal with
           | H : (_, _) = (_, _) |- _ => inversion H; subst; clear H
           end;
    try (eexists; split; [reflexivity | destruct w; reflexivity]).
Qed.

Lemma set_world_same (st : St) : set_world st (world st) = st.
Proof. now destruct st. Qed.

(** On an error status, or with no identity attached, the step does nothing. *)
Lemma audit_record_skips (action entityType : string) (data : jsval) (st : St) :
  ~ (200 <= statusCode (res st) < 300) \/ user (req st) = None ->
  audit_record R action entityType data st = (Returned tt, st).
Proof.
  intros H. unfold audit_record, bind, get, ret.
  destruct ((200 <=? statusCode (res st)) && (statusCode (res st) <? 300)) eqn:E.
  - destruct H as [H | H]; [exfalso; apply H; lia | now rewrite H].
  - reflexivity.
Qed.

(** A call of the patched [send] is the original [send], run on the same
    request and response after the recording steps have had their turn. *)
Lemma send_through_original (ws : list (string * string)) (data : jsval)
    (original : M unit) (st : St) :
  exists w', clinical w' = clinical (world st)
             /\ send_through R ws data original st = original (set_world st w').
Proof.
  revert st. induction ws as [| [a e] ws IH]; intros st; simpl.
  - exists (world st). now rewrite set_world_same.
  - unfold auditLog_send, bind.
    destruct (audit_record_frame a e data st) as [w1 [-> Hc1]].
    destruct (IH (set_world st w1)) as [w2 [Hc2 ->]].
    exists w2. split; [simpl in Hc2; congruence | reflexivity].
Qed.

Lemma send_through_skips (ws : list (string * string)) (data : jsval)
    (original : M unit) (st : St) :
  ~ (200 <= statusCode (res st) < 300) \/ user (req st) = None ->
  send_through R ws data original st = original st.
Proof.
  intros H. induction ws as [| [a e] ws IH]; simpl; [reflexivity |].
  unfold auditLog_send, bind. now rewrite audit_record_skips.
Qed.

(** Express' own [send] looks at the response object only. *)
Lemma express_write_set_world (s : string) (st : St) (w' : World) :
  express_write s (set_world st w') =
  (fst (express_write s st), set_world (snd (express_write s st)) w').
Proof. unfold express_write; simpl. now destruct (delivered (res st)). Qed.

(** [res.json] with any wrappers installed: the outcome and the response
    object are those of Express' [send] on the stringified body. *)
Lemma res_json_original (body : jsval) (st : St) :
  exists w', clinical w' = clinical (world st)
             /\ res_json R body st =
                (fst (express_write (JSON_stringify R body) st),
                 set_world (snd (express_write (JSON_stringify R body) st)) w').
Proof.
  unfold res_json, bind, get.
  destruct (send_through_original (send_wrappers (res st))
              (JString (JSON_stringify R body))
              (express_write (JSON_stringify R body)) st) as [w' [Hc ->]].
  exists w'. split; [assumption | apply express_write_set_world].
Qed.

Lemma res_json_skips (body : jsval) (st : St) :
  ~ (200 <= statusCode (res st) < 300) \/ user (req st) = None ->
  res_json R body st = express_write (JSON_stringify R body) st.
Proof. intros H. unfold res_json, bind, get. now apply send_through_skips. Qed.

Lemma respond_error (code : Z) (body : jsval) (st : St) :
  ~ (200 <= code < 300) ->
  delivered (res st) = [] ->
  respond R code body st = (Returned tt, answered R code body st).
Proof.
  intros Hcode Hfresh. unfold respond, bind, res_status.
  rewrite res_json_skips by (left; exact Hcode).
  unfold express_write; simpl. rewrite Hfresh. reflexivity.
Qed.

Lemma respond_any (code : Z) (body : jsval) (st : St) :
  delivered (res st) = [] ->
  exists w', clinical w' = clinical (world st)
             /\ respond R code body st = (Returned tt, set_world (answered R code body st) w').
Proof.
  intros Hfresh. unfold respond, bind, res_status.
  match goal with |- context [res_json R body ?s] =>
    destruct (res_json_original body s) as [w' [Hc ->]] end.
  exists w'. split; [exact Hc |].
  unfold express_write; simpl. rewrite Hfresh. reflexivity.
Qed.

Lemma audit_record_success (action entityType : string) (data : jsval) (st : St)
    (u : Payload.t) (v : jsval) (eid : option Z) :
  200 <= statusCode (res st) < 300 ->
  user (req st) = Some u ->
  parsed R data = Some v ->
  storable_entity_id (js_or (derive_entityId R (req st) v) JNull) = Some eid ->
  hd false (faults (world st)) = false ->
  audit_record R action entityType data st
  = (Returned tt,
     set_world st (recorded (world st) (audit_row (world st) u action entityType eid))).
Proof.
  intros Hs Hu Hp Hid Hf.
  unfold audit_record, bind, get, try_catch, parse_data.
  replace ((200 <=? statusCode (res st)) && (statusCode (res st) <? 300)) with true
    by (symmetry; apply andb_true_iff; split; lia).
  rewrite Hu, Hp. unfold ret at 1.
  unfold prisma_auditLog_create, store_call.
  destruct st as [w rq rs]; simpl in *.
  destruct (faults w) as [| [|] fs] eqn:Ef; simpl in Hf; try discriminate;
    simpl; rewrite Hid; unfold ret, recorded, called, audit_row, set_world,
      with_auditLogs, with_faults; simpl; rewrite ?Ef; simpl; reflexivity.
Qed.

(** Either the step leaves the audit trail as it was, or the conditions
    above hold and it has appended its one row. *)
Lemma audit_record_cases (action entityType : string) (data : jsval) (st : St) :
  auditLogs (world (snd (audit_record R action entityType data st)))
  = auditLogs (world st)
  \/ exists u v eid,
      200 <= statusCode (res st) < 300
      /\ user (req st) = Some u
      /\ parsed R data = Some v
      /\ storable_entity_id (js_or (derive_entityId R (req st) v) JNull) = Some eid
      /\ hd false (faults (world st)) = false
      /\ auditLogs (world (snd (audit_record R action entityType data st)))
         = auditLogs (world st) ++ [audit_row (world st) u action entityType eid].
Proof.
  destruct (Z_le_dec 200 (statusCode (res st))) as [H1 |];
    [destruct (Z_lt_dec (statusCode (res st)) 300) as [H2 |] |];
    try (left; rewrite audit_record_skips by (left; lia); reflexivity).
  destruct (user (req st)) as [u |] eqn:Hu;
    [| left; rewrite audit_record_skips by (right; exact Hu); reflexivity].
  destruct (parsed R data) as [v |] eqn:Hp.
  - destruct (storable_entity_id (js_or (derive_entityId R (req st) v) JNull))
      as [eid |] eqn:Hid.
    + destruct (hd false (faults (world st))) eqn:Hf.
      * left. unfold audit_record, bind, get, try_catch, parse_data.
        replace ((200 <=? statusCode (res st)) && (statusCode (res st) <? 300)) with true
          by (symmetry; apply andb_true_iff; split; lia).
        rewrite Hu, Hp. unfold ret at 1.
        unfold prisma_auditLog_create, store_call.
        destruct (faults (world st)) as [| [|] fs]; simpl in Hf; try discriminate.
        simpl. now destruct st as [[] ? ?].
      * right. exists u, v, eid.
        split; [lia |]. do 4 (split; [assumption || reflexivity |]).
        rewrite (audit_record_success action entityType data st
                   (conj H1 H2) Hu Hp Hid Hf).
        destruct st as [[] ? ?]; reflexivity.
    + left. unfold audit_record, bind, get, try_catch, parse_data.
      replace ((200 <=? statusCode (res st)) && (statusCode (res st) <? 300)) with true
        by (symmetry; apply andb_true_iff; split; lia).
      rewrite Hu, Hp. unfold ret at 1.
      unfold prisma_auditLog_create, store_call.
      destruct (faults (world st)) as [| [|] fs]; simpl; rewrite ?Hid; simpl;
        now destruct st as [[] ? ?].
  - left. unfold audit_record, bind, get, try_catch, parse_data.
    replace ((200 <=? statusCode (res st)) && (statusCode (res st) <? 300)) with true
      by (symmetry; apply andb_true_iff; split; lia).
    rewrite Hu, Hp. simpl. now destruct st as [[] ? ?].
Qed.

(** Under a success status and with an identity attached, the step either
    writes its row or logs its failure. *)
Lemma audit_record_logs (action entityType : string) (data : jsval) (st : St)
    (u : Payload.t) :
  200 <= statusCode (res st) < 300 ->
  user (req st) = Some u ->
  (exists eid,
      audit_record R action entityType data st
      = (Returned tt,
         set_world st (recorded (world st)
                                (audit_row (world st) u action entityType eid))))
  \/ (exists msg w',
        audit_record R action entityType data st = (Returned tt, set_world st w')
        /\ auditLogs w' = auditLogs (world st)
        /\ console w' = console (world st) ++ [msg]).
Proof.
  intros Hs Hu.
  destruct (parsed R data) as [v |] eqn:Hp.
  - destruct (storable_entity_id (js_or (derive_entityId R (req st) v) JNull))
      as [eid |] eqn:Hid.
    + destruct (hd false (faults (world st))) eqn:Hf.
      * right. unfold audit_record, bind, get, try_catch, parse_data.
        replace ((200 <=? statusCode (res st)) && (statusCode (res st) <? 300)) with true
          by (symmetry; apply andb_true_iff; split; lia).
        rewrite Hu, Hp. unfold ret at 1.
        unfold prisma_auditLog_create, store_call.
        destruct (faults (world st)) as [| [|] fs]; simpl in Hf; try discriminate.
        unfold console_error. simpl. eexists _, _. split; [reflexivity |].
        now destruct st as [[] ? ?].
      * left. exists eid. now apply audit_record_success with (v := v).
    + right. unfold audit_record, bind, get, try_catch, parse_data.
      replace ((200 <=? statusCode (res st)) && (statusCode (res st) <? 300)) with true
        by (symmetry; apply andb_true_iff; split; lia).
      rewrite Hu, Hp. unfold ret at 1.
      unfold prisma_auditLog_create, store_call, console_error.
      destruct (faults (world st)) as [| [|] fs]; simpl; rewrite ?Hid; simpl;
        (eexists _, _; split; [reflexivity |]); now destruct st as [[] ? ?].
  - right. unfold audit_record, bind, get, try_catch, parse_data.
    replace ((200 <=? statusCode (res st)) && (statusCode (res st) <? 300)) with true
      by (symmetry; apply andb_true_iff; split; lia).
    rewrite Hu, Hp. unfold throw, console_error. simpl.
    eexists _, _. split; [reflexivity |]. now destruct st as [[] ? ?].
Qed.

(** [res.status(code).json(body)] with no recorder, and with one. *)
Lemma respond_plain (code : Z) (body : jsval) (st : St) :
  send_wrappers (res st) = [] -> delivered (res st) = [] ->
  respond R code body st = (Returned tt, answered R code body st).
Proof.
  intros Hw Hfresh. unfold respond, bind at 1, res_status, res_json, bind at 1, get.
  cbn [res set_res send_wrappers]. rewrite Hw. cbn [send_through].
  unfold express_write. cbn [res set_res delivered]. rewrite Hfresh.
  unfold answered. cbn. now rewrite Hw.
Qed.

Lemma respond_recorder (code : Z) (body : jsval) (st : St)
    (action entityType : string) (w' : World) :
  send_wrappers (res st) = [(action, entityType)] -> delivered (res st) = [] ->
  audit_record R action entityType (JString (JSON_stringify R body))
    (set_res st (mkResponse code [(action, entityType)] []))
  = (Returned tt, set_world (set_res st (mkResponse code [(action, entityType)] [])) w') ->
  respond R code body st = (Returned tt, set_world (answered R code body st) w').
Proof.
  intros Hw Hfresh Ha. unfold respond, bind at 1, res_status, res_json, bind at 1, get.
  cbn [res set_res send_wrappers]. rewrite Hw, Hfresh. cbn [send_through].
  unfold auditLog_send, bind. rewrite Ha.
  unfold express_write, answered. cbn. now rewrite Hw.
Qed.

Lemma app_one_neq {A} (l : list A) (x : A) : l ++ [x] <> l.
Proof.
  intros H. apply (f_equal (@List.length A)) in H.
  rewrite length_app in H. simpl in H. lia.
Qed.

(** C4, amended: an audit record is persisted if and only if the status is
    in [200,300), an identity is attached and the recording step itself goes
    through (the body parses, the derived identifier is null or an integer,
    the store accepts the write); otherwise the trail is as it was, and on an
    error status or with no identity attached the step does nothing at all. *)
Theorem audit_persisted_iff (action entityType : string) (data : jsval) (st : St) :
  (persisted st (snd (audit_record R action entityType data st))
   <-> (200 <= statusCode (res st) < 300 /\ user (req st) <> None
        /\ recording_succeeds R data st))
  /\ (~ persisted st (snd (audit_record R action entityType data st)) ->
      auditLogs (world (snd (audit_record R action entityType data st)))
      = auditLogs (world st))
  /\ (~ (200 <= statusCode (res st) < 300) \/ user (req st) = None ->
      audit_record R action entityType data st = (Returned tt, st)).
Proof.
  split; [| split].
  - split.
    + intros [row Hrow].
      destruct (audit_record_cases action entityType data st) as [Hsame | Hrec].
      * rewrite Hsame in Hrow. symmetry in Hrow. now apply app_one_neq in Hrow.
      * destruct Hrec as (u & v & eid & Hs & Hu & Hp & Hid & Hf & _).
        split; [exact Hs |]. split; [congruence |]. now exists v, eid.
    + intros (Hs & Hu & v & eid & Hp & Hid & Hf).
      destruct (user (req st)) as [u |] eqn:Eu; [| congruence].
      rewrite (audit_record_success action entityType data st Hs Eu Hp Hid Hf).
      eexists. destruct st as [[] ? ?]. reflexivity.
  - intros Hnot.
    destruct (audit_record_cases action entityType data st) as [Hsame | Hrec];
      [exact Hsame |].
    destruct Hrec as (u & v & eid & _ & _ & _ & _ & _ & Hrow).
    exfalso. apply Hnot. eexists. exact Hrow.
  - apply audit_record_skips.
Qed.

Lemma coerced_storable (rq : Request) (v : jsval) :
  body_id_storable rq v ->
  storable_entity_id (js_or (derive_entityId R rq v) JNull)
  = Some (coerced_entity_id R rq v).
Proof.
  unfold body_id_storable, derive_entityId, coerced_entity_id, body_entity_id, js_or.
  intros Hb. destruct (params_id rq) as [s |]; simpl in *.
  - destruct (String.eqb s "") eqn:Es; simpl in *.
    + specialize (Hb eq_refl).
      destruct (truthy (opt_prop v "id")) eqn:Et.
      * destruct (Hb eq_refl) as [z Hz]. rewrite Hz in *. simpl in *.
        now destruct (z =? 0).
      * destruct (opt_prop v "id") as [| | | [| z] | | | |]; simpl in *;
          try discriminate; try reflexivity.
        now destruct (z =? 0).
    + destruct (parseInt R (JString s)) as [| z]; simpl; [reflexivity |].
      now destruct (z =? 0).
  - specialize (Hb eq_refl).
    destruct (truthy (opt_prop v "id")) eqn:Et.
    + destruct (Hb eq_refl) as [z Hz]. rewrite Hz in *. simpl in *.
      now destruct (z =? 0).
    + destruct (opt_prop v "id") as [| | | [| z] | | | |]; simpl in *;
        try discriminate; try reflexivity.
      now destruct (z =? 0).
Qed.

(** C5, amended: a successful audited response with an identity attached,
    whose body parses and whose write the store accepts, leaves exactly one
    new record; it carries the acting role, the declared action kind and the
    declared entity type, and its entity_id is the integer of the path's
    [:id] parameter when there is one and it is not zero, otherwise (no
    path parameter) the [id] field of the value the response text parses
    to, when that is not zero, otherwise null. *)
Theorem audit_entity_id_order (action entityType : string) (data : jsval) (st : St)
    (u : Payload.t) (v : jsval) :
  200 <= statusCode (res st) < 300 ->
  user (req st) = Some u ->
  sent_value R data v ->
  body_id_storable (req st) v ->
  hd false (faults (world st)) = false ->
  exists row,
    auditLogs (world (snd (audit_record R action entityType data st)))
    = auditLogs (world st) ++ [row]
    /\ AuditLog.user_role row = User.role u
    /\ AuditLog.action row = action
    /\ AuditLog.entity_type row = entityType
    /\ AuditLog.entity_id row = coerced_entity_id R (req st) v.
Proof.
  intros Hs Hu Hv Hb Hf.
  assert (Hp : parsed R data = Some v)
    by (destruct data; simpl in Hv; subst; solve [reflexivity | assumption]).
  rewrite (audit_record_success action entityType data st Hs Hu Hp
             (coerced_storable Hb) Hf).
  eexists. split; [destruct st as [[] ? ?]; reflexivity |].
  repeat split.
Qed.

Lemma falsy_identifier_null (rq : Request) (v : jsval) :
  falsy_identifier R rq v -> js_or (derive_entityId R rq v) JNull = JNull.
Proof.
  unfold falsy_identifier, derive_entityId, js_or.
  intros [(s & -> & Hne & Hz) | ([-> | ->] & Hz)]; simpl.
  - apply String.eqb_neq in Hne. rewrite Hne. simpl.
    now destruct Hz as [-> | ->].
  - now destruct Hz as [-> | ->].
  - now destruct Hz as [-> | ->].
Qed.

Lemma js_or_null_not_zero (x : jsval) :
  storable_entity_id (js_or x JNull) <> Some (Some 0).
Proof.
  unfold js_or. destruct x as [| | | [| z] | | | |]; simpl; try discriminate.
  - destruct b; simpl; discriminate.
  - destruct (z =? 0) eqn:Ez; simpl; [discriminate |].
    intros H. inversion H. subst. discriminate.
  - destruct (negb (String.eqb s "")); simpl; discriminate.
Qed.

(** C10: when the derived identifier is falsy (the path parameter parses to
    0 or [NaN], or the [id] of the response body is 0 or absent) the record
    persisted carries a null entity_id; and no record the recorder writes
    ever carries the entity_id 0. *)
Theorem falsy_entity_id_is_null (action entityType : string) (data : jsval) (st : St) :
  (forall u v,
      200 <= statusCode (res st) < 300 ->
      user (req st) = Some u ->
      parsed R data = Some v ->
      hd false (faults (world st)) = false ->
      falsy_identifier R (req st) v ->
      auditLogs (world (snd (audit_record R action entityType data st)))
      = auditLogs (world st) ++ [audit_row (world st) u action entityType None])
  /\ (forall row,
        auditLogs (world (snd (audit_record R action entityType data st)))
        = auditLogs (world st) ++ [row] ->
        AuditLog.entity_id row <> Some 0).
Proof.
  split.
  - intros u v Hs Hu Hp Hf Hz.
    assert (Hid : storable_entity_id (js_or (derive_entityId R (req st) v) JNull)
                  = Some None)
      by (now rewrite (falsy_identifier_null Hz)).
    rewrite (audit_record_success action entityType data st Hs Hu Hp Hid Hf).
    destruct st as [[] ? ?]. reflexivity.
  - intros row Hrow.
    destruct (audit_record_cases action entityType data st) as [Hsame | Hrec].
    + rewrite Hsame in Hrow. symmetry in Hrow. now apply app_one_neq in Hrow.
    + destruct Hrec as (u & v & eid & _ & _ & _ & Hid & _ & Hrow').
      rewrite Hrow' in Hrow. apply app_inj_tail in Hrow. destruct Hrow as [_ <-].
      simpl. intros ->. now apply js_or_null_not_zero in Hid.
Qed.

Lemma express_write_keeps (s : string) (st : St) :
  let st' := snd (express_write s st) in
  world st' = world st /\ req st' = req st
  /\ statusCode (res st') = statusCode (res st)
  /\ send_wrappers (res st') = send_wrappers (res st).
Proof. unfold express_write. destruct (delivered (res st)); simpl; auto. Qed.

(** C6, amended: the recording step runs once for every call of the patched
    [send] made under a success status, so a handler that writes once leaves
    exactly one record and one that writes k times leaves k of them. *)
Theorem recorded_once_per_write (action entityType : string) (bodies : list jsval)
    (st : St) :
  records_every_write R action entityType bodies st ->
  List.length (auditLogs (world (snd (writes R bodies st))))
  = (List.length (auditLogs (world st)) + List.length bodies)%nat.
Proof.
  revert st. induction bodies as [| b bs IH]; intros st H; simpl.
  - lia.
  - destruct H as (Hw & Hs & Hu & Hf & Hb).
    destruct (user (req st)) as [u |] eqn:Eu; [| congruence].
    destruct (Hb b (or_introl eq_refl)) as (v & eid & Hp & Hid).
    unfold bind at 1. unfold try_catch.
    assert (Hj : res_json R b st
                 = express_write (JSON_stringify R b)
                     (set_world st (recorded (world st)
                                      (audit_row (world st) u action entityType eid)))).
    { unfold res_json, bind at 1, get. rewrite Hw. simpl.
      unfold auditLog_send, bind.
      rewrite (audit_record_success action entityType _ st Hs Eu Hp Hid)
        by (now rewrite Hf).
      reflexivity. }
    rewrite Hj.
    match goal with |- context [express_write ?s ?st1] =>
      pose proof (express_write_keeps s st1) as Hk;
      destruct (express_write s st1) as [[[] | err] st2] eqn:Ew
    end; simpl in Hk; destruct Hk as (Hkw & Hkr & Hks & Hkws); unfold ret.
    all: rewrite IH;
      [ rewrite Hkw; simpl; rewrite length_app; simpl; lia
      | repeat split; try (rewrite ?Hkr, ?Hks, ?Hkws, ?Hkw; simpl;
                           rewrite ?Eu, ?Hf; simpl; (assumption || lia || congruence)) ].
    all: intros b' Hin; rewrite Hkr; apply Hb; now right.
Qed.

(** C7: a failure inside the audit-recording step (the body does not parse,
    the store rejects the write) neither changes the response nor raises to
    the caller: the replacement of [res.send] always reaches the original
    [send], with the data it was given and the request and response objects
    as the handler left them; all it may have changed is the audit trail,
    the console and the store's pending faults. *)
Theorem audit_failure_never_reaches_caller
    (action entityType : string) (originalSend : jsval -> M unit)
    (data : jsval) (st : St) :
  (exists w', clinical w' = clinical (world st)
              /\ auditLog_send R action entityType originalSend data st
                 = originalSend data (mkSt w' (req st) (res st)))
  /\ (forall body,
        fst (res_json R body st) = fst (express_write (JSON_stringify R body) st)
        /\ res (snd (res_json R body st))
           = res (snd (express_write (JSON_stringify R body) st))).
Proof.
  split.
  - unfold auditLog_send, bind.
    destruct (audit_record_frame action entityType data st) as [w' [-> Hc]].
    exists w'. split; [exact Hc | reflexivity].
  - intros body. destruct (res_json_original body st) as [w' [_ ->]].
    split; reflexivity.
Qed.

End AuditRecorder.

(** ** The role gate and the session middleware *)

Section Gate.

Variable R : Runtime.

(** C2: the guard of [requireRole] hands over to the downstream handler when
    an identity is attached whose role is one of the allowed ones; in every
    other case, and in particular with no identity attached, it answers 403
    and the downstream handler plays no part in the result. *)
Theorem requireRole_gate (roles : list UserRole) (next : M unit) (st : St) :
  (forall u, user (req st) = Some u -> In (User.role u) roles ->
             requireRole R roles next st = next st)
  /\ ((forall u, user (req st) = Some u -> ~ In (User.role u) roles) ->
      requireRole R roles next st
      = respond R 403 (error_body "Insufficient permissions") st
      /\ (delivered (res st) = [] ->
          requireRole R roles next st
          = (Returned tt, answered R 403 (error_body "Insufficient permissions") st)))
  /\ (user (req st) = None ->
      requireRole R roles next st
      = respond R 403 (error_body "Insufficient permissions") st).
Proof.
  assert (Hrej : (forall u, user (req st) = Some u -> ~ In (User.role u) roles) ->
                 requireRole R roles next st
                 = respond R 403 (error_body "Insufficient permissions") st).
  { intros H. unfold requireRole, bind, get.
    destruct (user (req st)) as [u |] eqn:Hu; [| reflexivity].
    destruct (includes roles (User.role u)) eqn:Hin; [| reflexivity].
    exfalso. apply (H u eq_refl). now apply includes_In. }
  split; [| split].
  - intros u Hu Hin. unfold requireRole, bind, get. rewrite Hu.
    apply includes_In in Hin. now rewrite Hin.
  - intros H. split; [now apply Hrej |].
    intros Hfresh. rewrite (Hrej H). apply respond_error; [lia | exact Hfresh].
  - intros Hnone. apply Hrej. intros u Hu. congruence.
Qed.

(** C3, amended: a cookie that is absent or empty is answered 401; a
    non-empty one that fails verification is answered 403; in both cases the
    downstream handler plays no part.  A non-empty cookie that verifies has
    its identity attached to the request and the downstream handler runs. *)
Theorem authenticateToken_cases (next : M unit) (st : St) :
  (cookies_token (req st) = None \/ cookies_token (req st) = Some "" ->
   authenticateToken R next st = respond R 401 (error_body "Access token required") st
   /\ (delivered (res st) = [] ->
       authenticateToken R next st
       = (Returned tt, answered R 401 (error_body "Access token required") st)))
  /\ (forall t, cookies_token (req st) = Some t -> t <> "" -> jwt_verify R t = None ->
       authenticateToken R next st = respond R 403 (error_body "Invalid token") st
       /\ (delivered (res st) = [] ->
           authenticateToken R next st
           = (Returned tt, answered R 403 (error_body "Invalid token") st)))
  /\ (forall t u, cookies_token (req st) = Some t -> t <> "" -> jwt_verify R t = Some u ->
       authenticateToken R next st = next (attach st u)
       /\ user (req (attach st u)) = Some u).
Proof.
  split; [| split].
  - intros H.
    assert (E : authenticateToken R next st
                = respond R 401 (error_body "Access token required") st).
    { unfold authenticateToken, bind, get. destruct H as [-> | ->]; reflexivity. }
    split; [exact E |].
    intros Hfresh. rewrite E. apply respond_error; [lia | exact Hfresh].
  - intros t Ht Hne Hv.
    assert (E : authenticateToken R next st
                = respond R 403 (error_body "Invalid token") st).
    { unfold authenticateToken, bind, get. rewrite Ht. simpl.
      apply String.eqb_neq in Hne. rewrite Hne. simpl. now rewrite Hv. }
    split; [exact E |].
    intros Hfresh. rewrite E. apply respond_error; [lia | exact Hfresh].
  - intros t u Ht Hne Hv. split; [| reflexivity].
    unfold authenticateToken, bind, get. rewrite Ht. simpl.
    apply String.eqb_neq in Hne. rewrite Hne. simpl. now rewrite Hv.
Qed.

End Gate.

(** ** Queries *)

Lemma starts_with_spec (sub s : string) :
  starts_with sub s = true <-> exists post, s = (sub ++ post)%string.
Proof.
  revert s. induction sub as [| c sub IH]; intros s; simpl.
  - split; [intros _; now exists s | reflexivity].
  - destruct s as [| d s].
    + split; [discriminate | intros [post H]; discriminate].
    + rewrite andb_true_iff, Ascii.eqb_eq, IH. split.
      * intros [-> [post ->]]. now exists post.
      * intros [post H]. inversion H. split; [reflexivity | now exists post].
Qed.

Lemma any_suffix_spec (f : string -> bool) (s : string) :
  any_suffix f s = true <-> exists pre post, s = (pre ++ post)%string /\ f post = true.
Proof.
  induction s as [| c s IH]; simpl.
  - rewrite orb_false_r. split.
    + intros H. now exists EmptyString, EmptyString.
    + intros (pre & post & E & H). destruct pre; simpl in E; [now subst | discriminate].
  - rewrite orb_true_iff, IH. split.
    + intros [H | (pre & post & -> & H)].
      * now exists EmptyString, (String c s).
      * now exists (String c pre), post.
    + intros (pre & post & E & H). destruct pre as [| d pre]; simpl in E.
      * left. now subst.
      * right. inversion E. now exists pre, post.
Qed.

Lemma like_percent (pattern s : string) :
  like (String "%" pattern) s = any_suffix (like pattern) s.
Proof. reflexivity. Qed.

Lemma like_literal (c : ascii) (pattern s : string) :
  wildcard c = false ->
  like (String c pattern) s
  = match s with
    | String d s' => Ascii.eqb c d && like pattern s'
    | EmptyString => false
    end.
Proof.
  unfold wildcard. intros H.
  apply orb_false_iff in H. destruct H as [H H3].
  apply orb_false_iff in H. destruct H as [H1 H2].
  cbn [like]. now rewrite H1, H2, H3.
Qed.

Lemma like_plain_prefix (q pattern s : string) :
  plain q = true ->
  like (q ++ pattern) s = true
  <-> exists post, s = (q ++ post)%string /\ like pattern post = true.
Proof.
  revert s. induction q as [| c q IH]; intros s Hq.
  - simpl. split; [intros H; now exists s | now intros (post & -> & H)].
  - cbn [plain] in Hq. apply andb_true_iff in Hq. destruct Hq as [Hc Hq].
    apply negb_true_iff in Hc.
    change (String c q ++ pattern)%string with (String c (q ++ pattern)).
    rewrite like_literal by exact Hc. destruct s as [| d s].
    + split; [discriminate | intros (post & E & _); discriminate].
    + rewrite andb_true_iff, Ascii.eqb_eq, (IH s Hq). split.
      * intros [-> (post & -> & H)]. now exists post.
      * intros (post & E & H). inversion E. split; [reflexivity | now exists post].
Qed.

Lemma like_anything (s : string) : like "%" s = true.
Proof.
  rewrite like_percent. apply any_suffix_spec.
  exists s, EmptyString. split; [| reflexivity].
  induction s as [| c s IH]; simpl; [reflexivity | now rewrite <- IH].
Qed.

(** On a search text without pattern characters, [contains] is the plain
    occurrence of the text. *)
Lemma contains_spec (sub s : string) :
  plain sub = true -> (contains sub s = true <-> occurs_in sub s).
Proof.
  intros Hp. unfold contains, occurs_in.
  change ("%" ++ sub ++ "%")%string with (String "%" (sub ++ "%")).
  rewrite like_percent, any_suffix_spec. split.
  - intros (pre & post & -> & H).
    apply (proj1 (@like_plain_prefix sub "%" post Hp)) in H.
    destruct H as (post' & -> & _).
    now exists pre, post'.
  - intros (pre & post & ->). exists pre, (sub ++ post)%string.
    split; [reflexivity |].
    apply (proj2 (@like_plain_prefix sub "%" (sub ++ post) Hp)).
    exists post. split; [reflexivity |].
    apply like_anything.
Qed.

Lemma wildcard_lower (c : ascii) : wildcard (lower_ascii c) = wildcard c.
Proof. destruct c as [[] [] [] [] [] [] [] []]; reflexivity. Qed.

Lemma plain_lower (s : string) : plain (toLowerCase s) = plain s.
Proof.
  induction s as [| c s IH]; simpl; [reflexivity |].
  now rewrite wildcard_lower, IH.
Qed.

Lemma patient_where_spec (search : string) (p : Patient.t) :
  plain search = true ->
  (patient_where search p = true <-> matches search p).
Proof.
  intros Hp.
  assert (Hl : plain (toLowerCase search) = true) by now rewrite plain_lower.
  unfold patient_where, matches.
  rewrite orb_true_iff, (@contains_spec (toLowerCase search) _ Hl).
  destruct (Patient.phone p) as [ph |].
  - rewrite (@contains_spec search ph Hp). split; intros [H | H]; auto.
    + right. now exists ph.
    + destruct H as [ph' [E H]]. inversion E. subst. now right.
  - split; intros [H | H]; auto; [discriminate | now destruct H as [? [? ?]]].
Qed.

Lemma filter_split {A} (f : A -> bool) (l : list A) :
  Permutation l (filter f l ++ filter (fun x => negb (f x)) l).
Proof.
  induction l as [| x l IH]; simpl; [reflexivity |].
  destruct (f x); simpl.
  - now apply perm_skip.
  - now apply Permutation_cons_app.
Qed.

Section Ordering.

Variables (A : Type) (key : A -> Z).

Lemma insert_desc_perm (x : A) (l : list A) : Permutation (x :: l) (insert_desc key x l).
Proof.
  induction l as [| y l IH]; simpl; [reflexivity |].
  destruct (key y <=? key x); [reflexivity |].
  rewrite perm_swap. now apply perm_skip.
Qed.

Lemma orderBy_desc_perm (l : list A) : Permutation l (orderBy_desc key l).
Proof.
  induction l as [| x l IH]; simpl; [reflexivity |].
  rewrite <- insert_desc_perm. now apply perm_skip.
Qed.

Lemma insert_desc_sorted (x : A) (l : list A) :
  newest_first key l -> newest_first key (insert_desc key x l).
Proof.
  unfold newest_first. induction l as [| y l IH]; intros Hs; simpl.
  - constructor; [constructor | constructor].
  - destruct (key y <=? key x) eqn:E.
    + apply Z.leb_le in E. constructor; [exact Hs |].
      constructor; [exact E |].
      apply StronglySorted_inv in Hs. destruct Hs as [_ Hall].
      eapply Forall_impl; [| exact Hall]. simpl. intros a Ha. lia.
    + apply Z.leb_gt in E. apply StronglySorted_inv in Hs. destruct Hs as [Hs Hall].
      constructor; [now apply IH |].
      apply (Permutation_Forall (insert_desc_perm x l)).
      constructor; [lia | exact Hall].
Qed.

Lemma orderBy_desc_sorted (l : list A) : newest_first key (orderBy_desc key l).
Proof.
  induction l as [| x l IH]; simpl; [constructor | now apply insert_desc_sorted].
Qed.

Lemma newest_first_app (l1 l2 : list A) :
  newest_first key (l1 ++ l2) ->
  newest_first key l1 /\ forall a b, In a l1 -> In b l2 -> key b <= key a.
Proof.
  unfold newest_first. induction l1 as [| x l1 IH]; simpl; intros Hs.
  - split; [constructor | intros a b []].
  - apply StronglySorted_inv in Hs. destruct Hs as [Hs Hall].
    destruct (IH Hs) as [Hs1 Hcross]. split.
    + constructor; [exact Hs1 |]. apply Forall_app in Hall. tauto.
    + intros a b [<- | Ha] Hb.
      * apply Forall_app in Hall. destruct Hall as [_ Hall].
        rewrite Forall_forall in Hall. now apply Hall.
      * now apply Hcross.
Qed.

(** [take: n] of the ordered rows: at most [n] of them, still ordered, and
    what is left out is no newer than what is kept. *)
Lemma take_newest (n : nat) (l : list A) :
  let rows := firstn n (orderBy_desc key l) in
  (List.length rows <= n)%nat
  /\ newest_first key rows
  /\ exists rest,
       Permutation l (rows ++ rest)
       /\ (forall a b, In a rows -> In b rest -> key b <= key a)
       /\ ((List.length l <= n)%nat -> rest = []).
Proof.
  intros rows. subst rows.
  pose proof (orderBy_desc_sorted l) as Hs.
  rewrite <- (firstn_skipn n (orderBy_desc key l)) in Hs.
  apply newest_first_app in Hs. destruct Hs as [Hs Hcross].
  split; [apply firstn_le_length |]. split; [exact Hs |].
  exists (skipn n (orderBy_desc key l)). split; [| split].
  - rewrite firstn_skipn. apply orderBy_desc_perm.
  - exact Hcross.
  - intros Hlen. apply skipn_all2.
    rewrite <- (Permutation_length (orderBy_desc_perm l)). exact Hlen.
Qed.

End Ordering.

(** ** The routes *)

Section Served.

Variable R : Runtime.

(** The equations of the four middlewares. *)
Lemma authenticateToken_missing (next : M unit) (st : St) :
  truthy (of_opt_string (cookies_token (req st))) = false ->
  authenticateToken R next st = respond R 401 (error_body "Access token required") st.
Proof.
  intros H. unfold authenticateToken, bind at 1, get at 1. now rewrite H.
Qed.

Lemma authenticateToken_invalid (next : M unit) (st : St) (t : string) :
  cookies_token (req st) = Some t -> String.eqb t "" = false -> jwt_verify R t = None ->
  authenticateToken R next st = respond R 403 (error_body "Invalid token") st.
Proof.
  intros Ht He Hv. unfold authenticateToken, bind at 1, get at 1.
  rewrite Ht. cbn [of_opt_string truthy]. rewrite He. cbn [negb]. now rewrite Hv.
Qed.

Lemma authenticateToken_verified (next : M unit) (st : St) (t : string) (u : Payload.t) :
  cookies_token (req st) = Some t -> String.eqb t "" = false -> jwt_verify R t = Some u ->
  authenticateToken R next st
  = next (set_req st (mkRequest (cookies_token (req st)) (params_id (req st))
                                (query_search (req st)) (body (req st)) (Some u))).
Proof.
  intros Ht He Hv. unfold authenticateToken, bind at 1, get at 1.
  rewrite Ht. cbn [of_opt_string truthy]. rewrite He. cbn [negb]. rewrite Hv.
  unfold bind, set_user. now rewrite Ht.
Qed.

Lemma requireRole_refuses (roles : list UserRole) (next : M unit) (st : St) :
  match user (req st) with
  | Some u => includes roles (User.role u) = false
  | None => True
  end ->
  requireRole R roles next st = respond R 403 (error_body "Insufficient permissions") st.
Proof.
  intros H. unfold requireRole, bind at 1, get at 1.
  destruct (user (req st)); [now rewrite H | reflexivity].
Qed.

Lemma requireRole_allows (roles : list UserRole) (next : M unit) (st : St) (u : Payload.t) :
  user (req st) = Some u -> includes roles (User.role u) = true ->
  requireRole R roles next st = next st.
Proof.
  intros Hu H. unfold requireRole, bind at 1, get at 1. now rewrite Hu, H.
Qed.

Lemma validate_passes (schema : JoiSchema) (next : M unit) (st : St) :
  Joi_validate R schema (body (req st)) = [] ->
  validate R schema next st = next st.
Proof. intros H. unfold validate, bind at 1, get at 1. now rewrite H. Qed.

Lemma validate_fails (schema : JoiSchema) (next : M unit) (st : St) :
  Joi_validate R schema (body (req st)) <> [] ->
  validate R schema next st
  = respond R 400
      (error_body (String.concat ", " (Joi_validate R schema (body (req st))))) st.
Proof.
  intros H. unfold validate, bind at 1, get at 1.
  now destruct (Joi_validate R schema (body (req st))).
Qed.

Lemma auditLog_installs (action entityType : string) (next : M unit) (st : St) :
  auditLog action entityType next st
  = next (set_res st (mkResponse (statusCode (res st))
                                 ((action, entityType) :: send_wrappers (res st))
                                 (delivered (res st)))).
Proof. reflexivity. Qed.

Ltac turned_down :=
  right; rewrite respond_error by (reflexivity || lia);
  do 3 eexists; split; [reflexivity | lia].

(** *** What a handler does to the trail and to the response *)

Lemma quiet_refl (w : World) : quiet w w.
Proof. now split. Qed.

Lemma quiet_trans (w1 w2 w3 : World) : quiet w1 w2 -> quiet w2 w3 -> quiet w1 w3.
Proof. unfold quiet. intros [? ?] [? ?]. split; congruence. Qed.

Lemma store_step_ret {A} (a : A) : store_step (ret a).
Proof. intros st. exists (Returned a), (world st). rewrite set_world_same. split; [reflexivity | apply quiet_refl]. Qed.

Lemma store_step_throw {A} (e : string) : store_step (@throw A e).
Proof. intros st. exists (Thrown e), (world st). rewrite set_world_same. split; [reflexivity | apply quiet_refl]. Qed.

Lemma store_step_get : store_step get.
Proof. intros st. exists (Returned st), (world st). rewrite set_world_same. split; [reflexivity | apply quiet_refl]. Qed.

Lemma store_step_destructure (b : jsval) : store_step (destructure b).
Proof. destruct b; simpl; (apply store_step_ret || apply store_step_throw). Qed.

Lemma store_step_bind {A B} (m : M A) (k : A -> M B) :
  store_step m -> (forall a, store_step (k a)) -> store_step (bind m k).
Proof.
  intros Hm Hk st. unfold bind.
  destruct (Hm st) as (o & w1 & -> & Hq1).
  destruct o as [a | e].
  - destruct (Hk a (set_world st w1)) as (o2 & w2 & -> & Hq2).
    exists o2, w2. split; [reflexivity | exact (quiet_trans Hq1 Hq2)].
  - exists (Thrown e), w1. now split.
Qed.

Lemma store_step_call {A} (op : World -> outcome A * World) :
  (forall w, quiet w (snd (op w))) -> store_step (store_call op).
Proof.
  intros Hop st. unfold store_call.
  destruct (faults (world st)) as [| [|] fs] eqn:Ef.
  - pose proof (Hop (world st)) as Hq. destruct (op (world st)) as [o w'].
    exists o, w'. now split.
  - eexists _, _. split; [reflexivity |]. now destruct st as [[] ? ?].
  - pose proof (Hop (with_faults (world st) fs)) as Hq.
    destruct (op (with_faults (world st) fs)) as [o w'].
    exists o, w'. split; [reflexivity |].
    destruct Hq as [Ha Hc]. simpl in Ha, Hc.
    split; [rewrite Ha | rewrite Hc]; now destruct st as [[] ? ?].
Qed.

Lemma store_step_map_M {A B} (f : A -> M B) (l : list A) :
  (forall a, store_step (f a)) -> store_step (map_M f l).
Proof.
  intros Hf. induction l as [| x l IH]; simpl.
  - apply store_step_ret.
  - apply store_step_bind; [apply Hf |]. intros y.
    apply store_step_bind; [exact IH |]. intros ys. apply store_step_ret.
Qed.

Ltac quiet_op :=
  intros w; unfold invalid; repeat break_match; simpl;
  try apply quiet_refl; now destruct w.

Lemma store_step_patient_create (n : jsval) (d : option Z) (g ph : jsval) :
  store_step (prisma_patient_create n d g ph).
Proof. apply store_step_call. quiet_op. Qed.

Lemma store_step_patient_findUnique (id : jsnum) :
  store_step (prisma_patient_findUnique id).
Proof. apply store_step_call. quiet_op. Qed.

Lemma store_step_patient_findMany (s : option string) :
  store_step (prisma_patient_findMany s).
Proof. apply store_step_call. quiet_op. Qed.

Lemma store_step_encounter_findUnique (id : jsnum) :
  store_step (prisma_encounter_findUnique id).
Proof. apply store_step_call. quiet_op. Qed.

Lemma store_step_encounter_create (pid : jsnum) (cr n : jsval) :
  store_step (prisma_encounter_create pid cr n).
Proof. apply store_step_call. quiet_op. Qed.

Lemma store_step_prescription_create (eid : jsnum) (a b c d : jsval) (by_ : Z) :
  store_step (prisma_prescription_create eid a b c d by_).
Proof. apply store_step_call. quiet_op. Qed.

Lemma store_step_encounter_findMany (pid : jsnum) :
  store_step (prisma_encounter_findMany pid).
Proof. apply store_step_call. quiet_op. Qed.

Lemma store_step_auditLog_findMany : store_step prisma_auditLog_findMany.
Proof. apply store_step_call. quiet_op. Qed.

Lemma store_step_prescribed (pc : Prescription.t * option User.t) :
  store_step (prescribed pc).
Proof.
  unfold prescribed. destruct (snd pc); [apply store_step_ret | apply store_step_throw].
Qed.

Lemma try_body_respond (code : Z) (body : jsval) : try_body R (respond R code body).
Proof.
  intros st _. left. exists code, body, (world st).
  rewrite set_world_same. split; [reflexivity | apply quiet_refl].
Qed.

Lemma res_json_respond (body : jsval) (st : St) :
  res_json R body st = respond R (statusCode (res st)) body st.
Proof. unfold respond, bind at 1, res_status. now destruct st as [? ? []]. Qed.

Lemma try_body_res_json (body : jsval) : try_body R (res_json R body).
Proof.
  intros st _. left. exists (statusCode (res st)), body, (world st).
  rewrite set_world_same. split; [apply res_json_respond | apply quiet_refl].
Qed.

Lemma try_body_bind {A} (m : M A) (k : A -> M unit) :
  store_step m -> (forall a, try_body R (k a)) -> try_body R (bind m k).
Proof.
  intros Hm Hk st Hfresh. unfold bind.
  destruct (Hm st) as (o & w1 & -> & Hq1).
  destruct o as [a | e].
  - destruct (Hk a (set_world st w1) Hfresh)
      as [(code & body & w2 & -> & Hq2) | (e & w2 & -> & Hq2)].
    + left. exists code, body, w2. split; [reflexivity | exact (quiet_trans Hq1 Hq2)].
    + right. exists e, w2. split; [reflexivity | exact (quiet_trans Hq1 Hq2)].
  - right. exists e, w1. now split.
Qed.

Create HintDb handlers.

#[local] Hint Resolve store_step_ret store_step_throw store_step_get store_step_destructure
  store_step_patient_create store_step_patient_findUnique store_step_patient_findMany
  store_step_encounter_findUnique store_step_encounter_create
  store_step_prescription_create store_step_encounter_findMany
  store_step_auditLog_findMany store_step_prescribed store_step_map_M : handlers.

Ltac try_body_steps :=
  repeat first
    [ apply try_body_respond
    | apply try_body_res_json
    | apply try_body_bind; [ now auto with handlers | intros ? ]
    | match goal with
      | |- try_body R (match ?x with _ => _ end) => destruct x
      | |- try_body R (bind (match ?x with _ => _ end) _) => destruct x
      end ].

Lemma handler_bodies (rt : Route) :
  exists m, handler R rt = handler_try R m /\ try_body R m.
Proof.
  destruct rt; (eexists; split; [reflexivity |]); try_body_steps.
Qed.

(** The middlewares of a route either turn the request down, with a 4xx
    answer and the store untouched, or let it through to the handler. *)
Lemma serve_cases (rt : Route) (rq : Request) (w : World) :
  (exists u, authorized R rt rq u /\ serve R rt rq w = handler R rt (admitted rt rq w u))
  \/ (exists code text rq',
        serve R rt rq w
        = (Returned tt, mkSt w rq' (mkResponse code [] [(code, text)]))
        /\ 400 <= code < 500).
Proof.
  unfold serve, authorized.
  destruct (truthy (of_opt_string (cookies_token rq))) eqn:Et.
  2:{ destruct rt; unfold route, chain; rewrite authenticateToken_missing by exact Et;
      turned_down. }
  destruct (cookies_token rq) as [t |] eqn:Ec; [| discriminate].
  cbn [of_opt_string truthy] in Et. apply negb_true_iff in Et.
  destruct (jwt_verify R t) as [u |] eqn:Ev.
  2:{ destruct rt; unfold route, chain;
      erewrite authenticateToken_invalid by (cbn [req]; eassumption); turned_down. }
  destruct (includes (allowed_roles rt) (User.role u)) eqn:Ei.
  2:{ destruct rt; unfold route, chain;
      erewrite authenticateToken_verified by (cbn [req]; eassumption);
      rewrite requireRole_refuses by exact Ei; turned_down. }
  destruct (schema_of rt) as [schema |] eqn:Es.
  - destruct (Joi_validate R schema (body rq)) as [| m ms] eqn:Ej.
    + left. exists u. split.
      * exists t. apply String.eqb_neq in Et. apply includes_In in Ei. now repeat split.
      * destruct rt; try discriminate; inversion Es; subst schema;
          unfold route, chain;
          erewrite authenticateToken_verified by (cbn [req]; eassumption);
          erewrite requireRole_allows by (cbn [req set_req user]; (reflexivity || eassumption));
          rewrite validate_passes by exact Ej;
          rewrite auditLog_installs; reflexivity.
    + destruct rt; try discriminate; inversion Es; subst schema;
        unfold route, chain;
        erewrite authenticateToken_verified by (cbn [req]; eassumption);
        erewrite requireRole_allows by (cbn [req set_req user]; (reflexivity || eassumption));
        rewrite validate_fails by (cbn [body req set_req]; rewrite Ej; discriminate);
        turned_down.
  - left. exists u. split.
    + exists t. apply String.eqb_neq in Et. apply includes_In in Ei. now repeat split.
    + destruct rt; try discriminate;
        unfold route, chain;
        erewrite authenticateToken_verified by (cbn [req]; eassumption);
        erewrite requireRole_allows by (cbn [req set_req user]; (reflexivity || eassumption));
        rewrite ?auditLog_installs; reflexivity.
Qed.

(** An authorized request reaches the handler of its route. *)
Lemma serve_authorized (rt : Route) (rq : Request) (w : World) (u : Payload.t) :
  authorized R rt rq u -> serve R rt rq w = handler R rt (admitted rt rq w u).
Proof.
  intros (t & Ec & Hne & Ev & Hin & Hsch).
  apply String.eqb_neq in Hne. apply includes_In in Hin.
  unfold serve.
  destruct rt; unfold route, chain; cbn [schema_of allowed_roles] in *;
    erewrite authenticateToken_verified by (cbn [req]; eassumption);
    erewrite requireRole_allows by (cbn [req set_req user]; (reflexivity || eassumption));
    rewrite ?validate_passes by exact Hsch;
    rewrite ?auditLog_installs; reflexivity.
Qed.

Lemma bind_returned {A B} (m : M A) (k : A -> M B) (st st' : St) (a : A) :
  m st = (Returned a, st') -> bind m k st = k a st'.
Proof. intros H. unfold bind. now rewrite H. Qed.

Lemma bind_thrown {A B} (m : M A) (k : A -> M B) (st st' : St) (e : string) :
  m st = (Thrown e, st') -> bind m k st = (Thrown e, st').
Proof. intros H. unfold bind. now rewrite H. Qed.

(** A store call whose fault flag is up is rejected; one whose flag is down
    runs on the store past the flag. *)
Lemma store_call_fault {A} (op : World -> outcome A * World) (st : St) :
  hd false (faults (world st)) = true ->
  store_call op st
  = (Thrown "PrismaClientKnownRequestError", set_world st (called (world st))).
Proof.
  intros H. unfold store_call, called.
  destruct (faults (world st)) as [| [|] fs]; simpl in H; try discriminate.
  reflexivity.
Qed.

Lemma store_call_runs {A} (op : World -> outcome A * World) (st : St) :
  hd false (faults (world st)) = false ->
  store_call op st
  = (fst (op (called (world st))), set_world st (snd (op (called (world st))))).
Proof.
  intros H. unfold store_call, called.
  destruct (faults (world st)) as [| [|] fs] eqn:Ef; simpl in H; try discriminate;
    cbn [tl].
  - replace (with_faults (world st) []) with (world st)
      by (destruct st as [[] ? ?]; simpl in *; now subst).
    now destruct (op (world st)).
  - now destruct (op (with_faults (world st) fs)).
Qed.

Lemma handler_try_thrown (m : M unit) (st st' : St) (e : string) :
  m st = (Thrown e, st') -> delivered (res st') = [] ->
  handler_try R m st = (Returned tt, caught R e st').
Proof.
  intros H Hfresh. unfold handler_try, try_catch. rewrite H.
  unfold bind at 1, console_error.
  rewrite respond_error by (lia || exact Hfresh). reflexivity.
Qed.

Lemma handler_try_returned (m : M unit) (st st' : St) :
  m st = (Returned tt, st') -> handler_try R m st = (Returned tt, st').
Proof. intros H. unfold handler_try, try_catch. now rewrite H. Qed.

Lemma find_patient_none (z : Z) (w : World) :
  (forall p, In p (patients w) -> Patient.id p <> z) -> find_patient z w = None.
Proof.
  unfold find_patient. induction (patients w) as [| p l IH]; intros H; simpl.
  - reflexivity.
  - destruct (Patient.id p =? z) eqn:E.
    + apply Z.eqb_eq in E. exfalso. now apply (H p (or_introl eq_refl)).
    + apply IH. intros q Hq. apply H. now right.
Qed.


(** A lookup that the client refuses, or that the store rejects, throws. *)
Lemma patient_lookup_throws (id : jsnum) (st : St) :
  id = NaN
  \/ (exists z, id = Num z /\ int32 z = false /\ find_patient z (world st) = None)
  \/ hd false (faults (world st)) = true ->
  exists e,
    prisma_patient_findUnique id st = (Thrown e, set_world st (called (world st))).
Proof.
  intros H. unfold prisma_patient_findUnique.
  destruct (hd false (faults (world st))) eqn:Hf.
  - eexists. now apply store_call_fault.
  - destruct H as [-> | [(z & -> & Hint & Hnone) | H]]; [| | discriminate];
      eexists; rewrite store_call_runs by exact Hf.
    + reflexivity.
    + replace (find_patient z (called (world st))) with (find_patient z (world st))
        by reflexivity.
      rewrite Hnone, Hint. reflexivity.
Qed.



Lemma get_patients_rows (rq : Request) (w : World) (u : Payload.t) (s : string) :
  query_search rq = Some s -> s <> "" ->
  hd false (faults w) = false ->
  get_patients R (admitted GET_patients rq w u)
  = (Returned tt,
     answered R 200 (JArray (map Patient.to_js (patient_rows (Some s) w)))
              (set_world (admitted GET_patients rq w u) (called w))).
Proof.
  intros Hq Hne Hf. apply String.eqb_neq in Hne.
  unfold get_patients, handler_try, try_catch.
  unfold bind at 1, get at 1. cbn [admitted req query_search]. rewrite Hq.
  cbn [of_opt_string truthy]. rewrite Hne. cbn [negb].
  unfold bind at 1, prisma_patient_findMany, store_call. cbn [admitted world].
  destruct (faults w) as [| [|] fs] eqn:Ef; simpl in Hf; try discriminate.
  - rewrite res_json_respond, respond_plain by reflexivity.
    unfold called. rewrite Ef. cbn [tl]. unfold set_world. cbn [req res world].
    do 3 f_equal. now destruct w; simpl in *; subst.
  - replace (patient_rows (Some s) (with_faults w fs)) with (patient_rows (Some s) w)
      by reflexivity.
    rewrite res_json_respond, respond_plain by reflexivity.
    unfold called. now rewrite Ef.
Qed.

(** C8, amended: an authorized GET /api/patients with a search text that
    holds none of the pattern characters [%], [_] and backslash is answered
    200 with rows that are patients of the store whose full_name contains
    the text, case set aside, or whose phone contains it as it is written;
    at most 50 rows, newest first by creation time; they are all the
    patients that match when these are at most 50, and otherwise 50 of them
    than which none left out is newer; no patient that does not match is
    among them. *)
Theorem patient_search_rows (rq : Request) (w : World) (u : Payload.t) (s : string) :
  authorized R GET_patients rq u ->
  query_search rq = Some s -> s <> "" ->
  plain s = true ->
  hd false (faults w) = false ->
  serve R GET_patients rq w
  = (Returned tt,
     answered R 200 (JArray (map Patient.to_js (patient_rows (Some s) w)))
              (set_world (admitted GET_patients rq w u) (called w)))
  /\ (List.length (patient_rows (Some s) w) <= 50)%nat
  /\ newest_first Patient.created_at (patient_rows (Some s) w)
  /\ (forall p, In p (patient_rows (Some s) w) -> In p (patients w) /\ matches s p)
  /\ exists rest others,
       Permutation (patients w) (patient_rows (Some s) w ++ rest ++ others)
       /\ (forall p, In p rest -> matches s p)
       /\ (forall p, In p others -> ~ matches s p)
       /\ (forall a b, In a (patient_rows (Some s) w) -> In b rest ->
                       Patient.created_at b <= Patient.created_at a)
       /\ ((List.length (patient_rows (Some s) w ++ rest) <= 50)%nat -> rest = []).
Proof.
  intros Hauth Hq Hne Hplain Hf.
  split.
  { rewrite (serve_authorized w Hauth). cbn [handler].
    now apply get_patients_rows. }
  unfold patient_rows.
  destruct (take_newest Patient.created_at 50 (filter (patient_where s) (patients w)))
    as (Hlen & Hsorted & rest & Hperm & Hcross & Hall).
  assert (Hin : forall p l, Permutation (filter (patient_where s) (patients w)) l ->
                            In p l -> In p (patients w) /\ matches s p).
  { intros p l Hp Hi. apply (Permutation_in _ (Permutation_sym Hp)) in Hi.
    apply filter_In in Hi. destruct Hi as [Hi Hm]. split; [exact Hi |].
    now apply patient_where_spec. }
  split; [exact Hlen |]. split; [exact Hsorted |]. split.
  - intros p Hp. apply (Hin p _ Hperm). apply in_or_app. now left.
  - exists rest, (filter (fun p => negb (patient_where s p)) (patients w)).
    split; [| split; [| split; [| split]]].
    + rewrite app_assoc, <- Hperm. apply filter_split.
    + intros p Hp. apply (Hin p _ Hperm). apply in_or_app. now right.
    + intros p Hp Hm. apply filter_In in Hp. destruct Hp as [_ Hp].
      apply (proj2 (@patient_where_spec s p Hplain)) in Hm.
      rewrite Hm in Hp. discriminate.
    + exact Hcross.
    + intros Hle. apply Hall. now rewrite (Permutation_length Hperm).
Qed.

(** Every handler answers exactly once; it leaves the audit trail alone, and
    the console too unless it answers 500. *)
Lemma handler_responds (rt : Route) (st : St) :
  delivered (res st) = [] ->
  exists code body w1,
    handler R rt st = respond R code body (set_world st w1)
    /\ auditLogs w1 = auditLogs (world st)
    /\ (console w1 = console (world st) \/ code = 500).
Proof.
  intros Hfresh.
  destruct (handler_bodies rt) as (m & -> & Hm).
  unfold handler_try, try_catch.
  destruct (Hm st Hfresh) as [(code & body & w1 & E & Ha & Hc) | (e & w1 & E & Ha & Hc)];
    rewrite E.
  - destruct (@respond_any R code body (set_world st w1) Hfresh) as (w2 & _ & E2).
    rewrite E2. exists code, body, w1. rewrite <- E2. auto.
  - unfold bind at 1, console_error. cbn [world set_world req res].
    eexists 500, _, _. split; [reflexivity |]. split; [| now right].
    now destruct w1.
Qed.

(** C1, amended: on each of the five routes that install the audit recorder
    (POST /api/patients, GET /api/patients/:id, POST /api/encounters,
    POST /api/prescriptions, GET /api/patients/:id/records) a request that
    completes with a success status, and whose recording step logs no
    failure, leaves exactly one new AuditLogEntry; its user_role is the role
    of the identity the cookie verifies to, its action and entity type are
    the ones the route declares.  The list endpoints GET /api/patients and
    GET /api/audit-logs install no recorder and leave the trail as it was. *)
Theorem audited_routes_record_once (rt : Route) (rq : Request) (w : World) :
  (forall action entityType code text,
      audited rt = Some (action, entityType) ->
      delivered (res (snd (serve R rt rq w))) = [(code, text)] ->
      200 <= code < 300 ->
      console (world (snd (serve R rt rq w))) = console w ->
      exists u row,
        authorized R rt rq u
        /\ user (req (snd (serve R rt rq w))) = Some u
        /\ auditLogs (world (snd (serve R rt rq w))) = auditLogs w ++ [row]
        /\ AuditLog.user_role row = User.role u
        /\ AuditLog.action row = action
        /\ AuditLog.entity_type row = entityType)
  /\ (audited rt = None ->
      auditLogs (world (snd (serve R rt rq w))) = auditLogs w).
Proof.
  destruct (serve_cases rt rq w)
    as [(u & Hauth & E) | (code' & text' & rq' & E & Hcode)]; rewrite E; clear E.
  2:{ split; [| reflexivity].
      intros a e code text _ Hd Hs _. simpl in Hd. inversion Hd. lia. }
  destruct (handler_responds rt (admitted rt rq w u) eq_refl)
    as (code' & body & w1 & E & Ha & Hc).
  rewrite E; clear E. simpl in Ha, Hc.
  split.
  - intros a e code text Haud Hd Hs Hcon.
    assert (Hw : send_wrappers (res (set_world (admitted rt rq w u) w1)) = [(a, e)])
      by (simpl; now rewrite Haud).
    assert (Hcode : code = code').
    { destruct (audit_record_frame R a e (JString (JSON_stringify R body))
                  (set_res (set_world (admitted rt rq w u) w1)
                           (mkResponse code' [(a, e)] []))) as (w2 & Ew2 & _).
      rewrite (@respond_recorder R code' body _ a e w2 Hw eq_refl Ew2) in Hd.
      simpl in Hd. now inversion Hd. }
    subst code'.
    destruct (@audit_record_logs R a e (JString (JSON_stringify R body))
                (set_res (set_world (admitted rt rq w u) w1)
                         (mkResponse code [(a, e)] [])) u Hs eq_refl)
      as [(eid & Er) | (msg & w3 & Er & _ & Hlog)];
      rewrite (@respond_recorder R code body _ a e _ Hw eq_refl Er) in Hcon |- *.
    + exists u. eexists. split; [exact Hauth |]. split; [reflexivity |].
      cbn [world set_world answered set_res snd].
      unfold recorded. cbn. rewrite Ha. repeat split.
    + exfalso. cbn [world set_world answered set_res snd] in Hcon.
      rewrite Hlog in Hcon. cbn in Hcon.
      destruct Hc as [Hc | Hc]; [| lia].
      rewrite Hc in Hcon. now apply app_one_neq in Hcon.
  - intros Haud.
    assert (Hw : send_wrappers (res (set_world (admitted rt rq w u) w1)) = [])
      by (simpl; now rewrite Haud).
    rewrite (@respond_plain R code' body _ Hw eq_refl). exact Ha.
Qed.

End Served.

(** ** Requests that do not reach the handler *)

Section Refusals.

Variable R : Runtime.

(** X1: [validate] lets a body through to the next function when the schema
    finds nothing wrong with it; otherwise it answers 400 with all the
    messages of the violations joined by a comma and a space, the next
    function plays no part, and the store is left as it was. *)
Theorem validate_reports_every_violation (schema : JoiSchema) (next : M unit) (st : St) :
  (Joi_validate R schema (body (req st)) = [] -> validate R schema next st = next st)
  /\ (Joi_validate R schema (body (req st)) <> [] ->
      delivered (res st) = [] ->
      validate R schema next st
      = (Returned tt,
         answered R 400
           (error_body (String.concat ", " (Joi_validate R schema (body (req st))))) st)).
Proof.
  split.
  - intros H. now apply validate_passes.
  - intros H Hfresh. rewrite validate_fails by exact H.
    apply respond_error; [lia | exact Hfresh].
Qed.

(** X2: on every protected route, a request without the cookie, or with an
    empty one, is answered 401, and one whose cookie does not verify is
    answered 403; in both cases nothing after the session middleware runs
    and the store is exactly as it was. *)
Theorem unauthenticated_request_is_turned_away (rt : Route) (rq : Request) (w : World) :
  (cookies_token rq = None \/ cookies_token rq = Some "" ->
   serve R rt rq w
   = (Returned tt,
      answered R 401 (error_body "Access token required") (mkSt w rq fresh_response)))
  /\ (forall t, cookies_token rq = Some t -> t <> "" -> jwt_verify R t = None ->
      serve R rt rq w
      = (Returned tt,
         answered R 403 (error_body "Invalid token") (mkSt w rq fresh_response))).
Proof.
  split.
  - intros H.
    assert (Ht : truthy (of_opt_string (cookies_token rq)) = false)
      by (destruct H as [-> | ->]; reflexivity).
    unfold serve. destruct rt; unfold route, chain;
      rewrite authenticateToken_missing by exact Ht;
      apply respond_error; (lia || reflexivity).
  - intros t Ht Hne Hv. apply String.eqb_neq in Hne.
    unfold serve. destruct rt; unfold route, chain;
      erewrite authenticateToken_invalid by (cbn [req]; eassumption);
      apply respond_error; (lia || reflexivity).
Qed.

(** X3: on every protected route, a request whose cookie verifies to an
    identity whose role is not among the roles the route allows is answered
    403; neither the validation nor the handler runs and the store is
    exactly as it was. *)
Theorem role_outside_the_route_is_refused (rt : Route) (rq : Request) (w : World)
    (t : string) (u : Payload.t) :
  cookies_token rq = Some t -> t <> "" -> jwt_verify R t = Some u ->
  ~ In (User.role u) (allowed_roles rt) ->
  serve R rt rq w
  = (Returned tt,
     answered R 403 (error_body "Insufficient permissions")
       (mkSt w (req (admitted rt rq w u)) fresh_response)).
Proof.
  intros Ht Hne Hv Hrole. apply String.eqb_neq in Hne.
  assert (Hi : includes (allowed_roles rt) (User.role u) = false).
  { destruct (includes (allowed_roles rt) (User.role u)) eqn:E; [| reflexivity].
    apply includes_In in E. contradiction. }
  unfold serve. destruct rt; unfold route, chain;
    erewrite authenticateToken_verified by (cbn [req]; eassumption);
    rewrite requireRole_refuses by exact Hi;
    apply respond_error; (lia || reflexivity).
Qed.

(** X4: on the three routes with a schema, a request from an allowed
    identity whose body violates the schema is answered 400 with the joined
    messages; the handler does not run, no recorder is installed and the
    store is exactly as it was. *)
Theorem invalid_body_is_refused (rt : Route) (rq : Request) (w : World)
    (t : string) (u : Payload.t) (schema : JoiSchema) :
  cookies_token rq = Some t -> t <> "" -> jwt_verify R t = Some u ->
  In (User.role u) (allowed_roles rt) ->
  schema_of rt = Some schema ->
  Joi_validate R schema (body rq) <> [] ->
  serve R rt rq w
  = (Returned tt,
     answered R 400 (error_body (String.concat ", " (Joi_validate R schema (body rq))))
       (mkSt w (req (admitted rt rq w u)) fresh_response)).
Proof.
  intros Ht Hne Hv Hrole Hs Hj.
  apply String.eqb_neq in Hne. apply includes_In in Hrole.
  unfold serve.
  destruct rt; try discriminate; inversion Hs; subst schema;
    unfold route, chain;
    erewrite authenticateToken_verified by (cbn [req]; eassumption);
    erewrite requireRole_allows
      by (cbn [req set_req user]; (reflexivity || eassumption));
    rewrite validate_fails by exact Hj;
    apply respond_error; (lia || reflexivity).
Qed.

End Refusals.

(** ** Every request, whatever it carries *)

Section EveryRequest.

Variable R : Runtime.

Lemma steady_refl (w : World) : steady w w.
Proof. split; [apply quiet_refl | reflexivity]. Qed.

Lemma steady_trans (w1 w2 w3 : World) : steady w1 w2 -> steady w2 w3 -> steady w1 w3.
Proof.
  intros [Hq1 Hu1] [Hq2 Hu2]. split; [exact (quiet_trans Hq1 Hq2) | congruence].
Qed.

Lemma readonly_ret {A} (a : A) : readonly_step (ret a).
Proof.
  intros st. exists (Returned a), (world st). rewrite set_world_same.
  split; [reflexivity |]. split; [apply steady_refl | reflexivity].
Qed.

Lemma readonly_throw {A} (e : string) : readonly_step (@throw A e).
Proof.
  intros st. exists (Thrown e), (world st). rewrite set_world_same.
  split; [reflexivity |]. split; [apply steady_refl | reflexivity].
Qed.

Lemma readonly_get : readonly_step get.
Proof.
  intros st. exists (Returned st), (world st). rewrite set_world_same.
  split; [reflexivity |]. split; [apply steady_refl | reflexivity].
Qed.

Lemma readonly_destructure (b : jsval) : readonly_step (destructure b).
Proof. destruct b; simpl; (apply readonly_ret || apply readonly_throw). Qed.

Lemma readonly_bind {A B} (m : M A) (k : A -> M B) :
  readonly_step m -> (forall a, readonly_step (k a)) -> readonly_step (bind m k).
Proof.
  intros Hm Hk st. unfold bind.
  destruct (Hm st) as (o & w1 & -> & Hs1 & Hc1).
  destruct o as [a | e].
  - destruct (Hk a (set_world st w1)) as (o2 & w2 & -> & Hs2 & Hc2).
    exists o2, w2. split; [reflexivity |].
    split; [exact (steady_trans Hs1 Hs2) | simpl in Hc2; congruence].
  - exists (Thrown e), w1. split; [reflexivity | split; assumption].
Qed.

Lemma with_faults_steady (w : World) (fs : list bool) :
  steady w (with_faults w fs) /\ clinical (with_faults w fs) = clinical w.
Proof. repeat split. Qed.

(** A call that only reads: whatever it gives back, the tables are the same. *)
Lemma readonly_call {A} (op : World -> outcome A * World) :
  (forall w, snd (op w) = w) -> readonly_step (store_call op).
Proof.
  intros Hop st. unfold store_call.
  destruct (faults (world st)) as [| [|] fs] eqn:Ef.
  - pose proof (Hop (world st)) as H. destruct (op (world st)) as [o w']. simpl in H.
    subst w'. exists o, (world st). split; [reflexivity |].
    split; [apply steady_refl | reflexivity].
  - eexists _, _. split; [reflexivity |]. apply with_faults_steady.
  - pose proof (Hop (with_faults (world st) fs)) as H.
    destruct (op (with_faults (world st) fs)) as [o w']. simpl in H. subst w'.
    exists o, (with_faults (world st) fs). split; [reflexivity |].
    apply with_faults_steady.
Qed.

(** A call that writes to a clinical table, or throws without writing. *)
Lemma creating_call {A} (op : World -> outcome A * World) :
  (forall w, steady w (snd (op w))
             /\ forall e, fst (op w) = Thrown e -> snd (op w) = w) ->
  creating_step (store_call op).
Proof.
  intros Hop st. unfold store_call.
  destruct (faults (world st)) as [| [|] fs] eqn:Ef.
  - destruct (Hop (world st)) as [Hs Ht]. destruct (op (world st)) as [o w'].
    simpl in *. exists o, w'. split; [reflexivity |]. split; [exact Hs |].
    intros e ->. now rewrite (Ht e eq_refl).
  - eexists _, _. split; [reflexivity |]. split; [apply with_faults_steady |].
    intros _ _. apply with_faults_steady.
  - destruct (Hop (with_faults (world st) fs)) as [Hs Ht].
    destruct (op (with_faults (world st) fs)) as [o w']. simpl in *.
    exists o, w'. split; [reflexivity |]. split.
    + exact (steady_trans (proj1 (with_faults_steady (world st) fs)) Hs).
    + intros e ->. rewrite (Ht e eq_refl). apply with_faults_steady.
Qed.

Ltac reads := apply readonly_call; intros w; unfold invalid; repeat break_match; reflexivity.

Lemma readonly_patient_findUnique (id : jsnum) :
  readonly_step (prisma_patient_findUnique id).
Proof. reads. Qed.

Lemma readonly_encounter_findUnique (id : jsnum) :
  readonly_step (prisma_encounter_findUnique id).
Proof. reads. Qed.

Lemma readonly_patient_findMany (s : option string) :
  readonly_step (prisma_patient_findMany s).
Proof. reads. Qed.

Lemma readonly_encounter_findMany (pid : jsnum) :
  readonly_step (prisma_encounter_findMany pid).
Proof. reads. Qed.

Lemma readonly_auditLog_findMany : readonly_step prisma_auditLog_findMany.
Proof. reads. Qed.

Lemma readonly_prescribed (pc : Prescription.t * option User.t) :
  readonly_step (prescribed pc).
Proof.
  unfold prescribed. destruct (snd pc); [apply readonly_ret | apply readonly_throw].
Qed.

Lemma readonly_map_M {A B} (f : A -> M B) (l : list A) :
  (forall a, readonly_step (f a)) -> readonly_step (map_M f l).
Proof.
  intros Hf. induction l as [| x l IH]; simpl.
  - apply readonly_ret.
  - apply readonly_bind; [apply Hf |]. intros y.
    apply readonly_bind; [exact IH |]. intros ys. apply readonly_ret.
Qed.

Ltac writes_or_throws :=
  apply creating_call; intros w; unfold invalid;
  repeat break_match; simpl;
  (split; [ (split; [split |]); now destruct w
          | intros e He; (discriminate He || reflexivity) ]).

Lemma creating_patient_create (n : jsval) (d : option Z) (g ph : jsval) :
  creating_step (prisma_patient_create n d g ph).
Proof. writes_or_throws. Qed.

Lemma creating_encounter_create (pid : jsnum) (cr n : jsval) :
  creating_step (prisma_encounter_create pid cr n).
Proof. writes_or_throws. Qed.

Lemma creating_prescription_create (eid : jsnum) (a b c d : jsval) (by_ : Z) :
  creating_step (prisma_prescription_create eid a b c d by_).
Proof. writes_or_throws. Qed.

Lemma shape_respond (codes : list Z) (code : Z) (body : jsval) :
  In code codes -> try_shape R codes (respond R code body).
Proof.
  intros Hin st _ _. left. exists code, body, (world st).
  rewrite set_world_same. split; [reflexivity |].
  split; [apply steady_refl |]. split; [exact Hin | reflexivity].
Qed.

Lemma shape_res_json (codes : list Z) (body : jsval) :
  In 200 codes -> try_shape R codes (res_json R body).
Proof.
  intros Hin st _ Hs. left. exists 200, body, (world st).
  rewrite set_world_same. split; [rewrite <- Hs; apply res_json_respond |].
  split; [apply steady_refl |]. split; [exact Hin | reflexivity].
Qed.

Lemma shape_bind {A} (codes : list Z) (m : M A) (k : A -> M unit) :
  readonly_step m -> (forall a, try_shape R codes (k a)) -> try_shape R codes (bind m k).
Proof.
  intros Hm Hk st Hfresh Hs. unfold bind.
  destruct (Hm st) as (o & w1 & -> & Hs1 & Hc1).
  destruct o as [a | e].
  - destruct (Hk a (set_world st w1) Hfresh Hs)
      as [(code & body & w2 & -> & Hs2 & Hin & Hc2) | (e & w2 & -> & Hs2 & Hc2)].
    + left. exists code, body, w2. split; [reflexivity |].
      split; [exact (steady_trans Hs1 Hs2) |]. split; [exact Hin |].
      intros Hne. simpl in Hc2. rewrite (Hc2 Hne). exact Hc1.
    + right. exists e, w2. split; [reflexivity |].
      split; [exact (steady_trans Hs1 Hs2) | simpl in Hc2; congruence].
  - right. exists e, w1. split; [reflexivity | split; assumption].
Qed.

Lemma shape_bind_created {A} (codes : list Z) (m : M A) (body : A -> jsval) :
  creating_step m -> In 201 codes ->
  try_shape R codes (bind m (fun a => respond R 201 (body a))).
Proof.
  intros Hm Hin st _ _. unfold bind.
  destruct (Hm st) as (o & w1 & -> & Hs1 & Hc1).
  destruct o as [a | e].
  - left. exists 201, (body a), w1. split; [reflexivity |].
    split; [exact Hs1 |]. split; [exact Hin |]. intros Hne. now contradiction Hne.
  - right. exists e, w1. split; [reflexivity |]. split; [exact Hs1 |].
    now apply (Hc1 e).
Qed.

Create HintDb shapes.

#[local] Hint Resolve readonly_ret readonly_throw readonly_get readonly_destructure
  readonly_patient_findUnique readonly_encounter_findUnique readonly_patient_findMany
  readonly_encounter_findMany readonly_auditLog_findMany readonly_prescribed
  readonly_map_M creating_patient_create creating_encounter_create
  creating_prescription_create : shapes.

Ltac shape_steps :=
  repeat first
    [ apply shape_respond; simpl; tauto
    | apply shape_res_json; simpl; tauto
    | apply shape_bind_created; [ now auto with shapes | simpl; tauto ]
    | apply shape_bind; [ now auto with shapes | intros ? ]
    | match goal with
      | |- try_shape _ _ (match ?x with _ => _ end) => destruct x
      | |- try_shape _ _ (bind (match ?x with _ => _ end) _) => destruct x
      end ].

Lemma handler_shapes (rt : Route) :
  exists m, handler R rt = handler_try R m /\ try_shape R (handler_codes rt) m.
Proof.
  destruct rt; (eexists; split; [reflexivity |]); cbn [handler_codes]; shape_steps.
Qed.

Ltac sent_back :=
  right; rewrite respond_error by (reflexivity || lia);
  do 3 eexists; split; [reflexivity | simpl; tauto].

(** The middlewares of a route, with the statuses of their refusals. *)
Lemma serve_outcomes (rt : Route) (rq : Request) (w : World) :
  (exists u, authorized R rt rq u
             /\ serve R rt rq w = handler R rt (admitted rt rq w u))
  \/ (exists code body rq',
        serve R rt rq w
        = (Returned tt, answered R code body (mkSt w rq' fresh_response))
        /\ In code [400; 401; 403]).
Proof.
  destruct (truthy (of_opt_string (cookies_token rq))) eqn:Et.
  2:{ unfold serve.
      destruct rt; unfold route, chain; rewrite authenticateToken_missing by exact Et;
      sent_back. }
  destruct (cookies_token rq) as [t |] eqn:Ec; [| discriminate].
  cbn [of_opt_string truthy] in Et. apply negb_true_iff in Et.
  destruct (jwt_verify R t) as [u |] eqn:Ev.
  2:{ unfold serve. destruct rt; unfold route, chain;
      erewrite authenticateToken_invalid by (cbn [req]; eassumption); sent_back. }
  destruct (includes (allowed_roles rt) (User.role u)) eqn:Ei.
  2:{ unfold serve. destruct rt; unfold route, chain;
      erewrite authenticateToken_verified by (cbn [req]; eassumption);
      rewrite requireRole_refuses by exact Ei; sent_back. }
  assert (Hgo : match schema_of rt with
                | Some schema => Joi_validate R schema (body rq) = []
                | None => True
                end ->
                exists u0, authorized R rt rq u0
                           /\ serve R rt rq w = handler R rt (admitted rt rq w u0)).
  { intros Hs.
    assert (Hauth : authorized R rt rq u).
    { exists t. apply String.eqb_neq in Et. apply includes_In in Ei.
      now repeat split. }
    exists u. split; [exact Hauth | now apply serve_authorized]. }
  destruct (schema_of rt) as [schema |] eqn:Es.
  - destruct (Joi_validate R schema (body rq)) as [| m ms] eqn:Ej.
    + left. now apply Hgo.
    + unfold serve.
      destruct rt; try discriminate; inversion Es; subst schema;
        unfold route, chain;
        erewrite authenticateToken_verified by (cbn [req]; eassumption);
        erewrite requireRole_allows
          by (cbn [req set_req user]; (reflexivity || eassumption));
        rewrite validate_fails by (cbn [body req set_req]; rewrite Ej; discriminate);
        sent_back.
  - left. now apply Hgo.
Qed.

(** Every handler answers once, with one of its statuses or with 500. *)
Lemma handler_outcome (rt : Route) (st : St) :
  delivered (res st) = [] -> statusCode (res st) = 200 ->
  exists code body w1,
    handler R rt st = respond R code body (set_world st w1)
    /\ auditLogs w1 = auditLogs (world st)
    /\ users w1 = users (world st)
    /\ In code (500 :: handler_codes rt)
    /\ (code <> 201 -> clinical w1 = clinical (world st)).
Proof.
  intros Hfresh Hs.
  destruct (handler_shapes rt) as (m & -> & Hm).
  unfold handler_try, try_catch.
  destruct (Hm st Hfresh Hs)
    as [(code & body & w1 & E & [[Ha Hc] Hu] & Hin & Hcl)
       | (e & w1 & E & [[Ha Hc] Hu] & Hcl)];
    rewrite E.
  - destruct (@respond_any R code body (set_world st w1) Hfresh) as (w2 & _ & E2).
    rewrite E2. exists code, body, w1. rewrite <- E2.
    split; [reflexivity |]. split; [exact Ha |]. split; [exact Hu |].
    split; [now right | exact Hcl].
  - unfold bind at 1, console_error. cbn [world set_world req res].
    eexists 500, _, _. split; [reflexivity |].
    split; [now destruct w1 |]. split; [now destruct w1 |].
    split; [now left |]. intros _. rewrite <- Hcl. now destruct w1.
Qed.

(** X5: every request to a protected route is answered, and answered once:
    serving it never throws, and exactly one response goes out, with a
    status that is 400, 401, 403, 500 or one of the statuses of the route's
    handler (201 for a creation, 200 for a read, 404 where the route looks a
    parent or a resource up). *)
Theorem every_request_is_answered_once (rt : Route) (rq : Request) (w : World) :
  exists code text,
    fst (serve R rt rq w) = Returned tt
    /\ delivered (res (snd (serve R rt rq w))) = [(code, text)]
    /\ statusCode (res (snd (serve R rt rq w))) = code
    /\ In code (400 :: 401 :: 403 :: 500 :: handler_codes rt).
Proof.
  destruct (serve_outcomes rt rq w)
    as [(u & _ & E) | (code & body & rq' & E & Hin)]; rewrite E; clear E.
  - destruct (handler_outcome rt (admitted rt rq w u) eq_refl eq_refl)
      as (code & body & w1 & E & _ & _ & Hin & _).
    rewrite E; clear E.
    destruct (@respond_any R code body (set_world (admitted rt rq w u) w1) eq_refl)
      as (w2 & _ & E2).
    rewrite E2. exists code, (JSON_stringify R body).
    repeat split. simpl in Hin |- *. tauto.
  - exists code, (JSON_stringify R body). repeat split.
    simpl in Hin |- *. tauto.
Qed.

(** X6: a request changes the clinical tables only when it is answered 201:
    with any other status the users, patients, encounters and prescriptions,
    the id sequences of these tables and the clock are as they were; and the
    users are as they were in every case. *)
Theorem tables_change_only_with_201 (rt : Route) (rq : Request) (w : World) :
  users (world (snd (serve R rt rq w))) = users w
  /\ (statusCode (res (snd (serve R rt rq w))) <> 201 ->
      clinical (world (snd (serve R rt rq w))) = clinical w).
Proof.
  destruct (serve_outcomes rt rq w)
    as [(u & _ & E) | (code & body & rq' & E & Hin)]; rewrite E; clear E.
  - destruct (handler_outcome rt (admitted rt rq w u) eq_refl eq_refl)
      as (code & body & w1 & E & _ & Hu & _ & Hcl).
    rewrite E; clear E.
    destruct (@respond_any R code body (set_world (admitted rt rq w u) w1) eq_refl)
      as (w2 & Hc2 & E2).
    rewrite E2. cbn [snd world set_world answered set_res res statusCode].
    simpl in Hc2, Hu, Hcl. split.
    + apply (f_equal (fun c => fst (fst (fst (fst c))))) in Hc2. simpl in Hc2. congruence.
    + intros Hne. rewrite Hc2. now apply Hcl.
  - split; reflexivity.
Qed.

(** X7: the audit trail is append-only and sound: a request either leaves
    it as it was, or appends exactly one entry, and then the request was
    authorized on a route that declares an audit, was answered with a
    success status, and the entry carries the role of the verified identity
    and the action and entity type the route declares.  No refused or failed
    request, and no request to a route without recorder, leaves an entry. *)
Theorem audit_trail_grows_only_by_audited_success (rt : Route) (rq : Request) (w : World) :
  auditLogs (world (snd (serve R rt rq w))) = auditLogs w
  \/ exists u action entityType row,
      authorized R rt rq u
      /\ audited rt = Some (action, entityType)
      /\ 200 <= statusCode (res (snd (serve R rt rq w))) < 300
      /\ auditLogs (world (snd (serve R rt rq w))) = auditLogs w ++ [row]
      /\ AuditLog.user_role row = User.role u
      /\ AuditLog.action row = action
      /\ AuditLog.entity_type row = entityType.
Proof.
  destruct (serve_outcomes rt rq w)
    as [(u & Hauth & E) | (code & body & rq' & E & Hin)]; rewrite E; clear E.
  2:{ left. reflexivity. }
  destruct (handler_responds R rt (admitted rt rq w u) eq_refl)
    as (code & body & w1 & E & Ha & _).
  rewrite E; clear E. simpl in Ha.
  destruct (audited rt) as [[a e] |] eqn:Haud.
  - assert (Hw : send_wrappers (res (set_world (admitted rt rq w u) w1)) = [(a, e)])
      by (simpl; now rewrite Haud).
    destruct (audit_record_frame R a e (JString (JSON_stringify R body))
                (set_res (set_world (admitted rt rq w u) w1)
                         (mkResponse code [(a, e)] []))) as (w2 & Ew2 & _).
    pose proof (audit_record_cases R a e (JString (JSON_stringify R body))
                  (set_res (set_world (admitted rt rq w u) w1)
                           (mkResponse code [(a, e)] []))) as Hcases.
    rewrite Ew2 in Hcases. cbn [snd world set_world set_res req res statusCode] in Hcases.
    rewrite (@respond_recorder R code body _ a e w2 Hw eq_refl Ew2).
    cbn [snd world set_world answered set_res res statusCode].
    destruct Hcases as [Hsame | (u' & v & eid & Hs & Hu' & _ & _ & _ & Hrow)].
    + left. congruence.
    + right. exists u, a, e. eexists. split; [exact Hauth |].
      split; [reflexivity |]. split; [exact Hs |].
      split; [rewrite Hrow, Ha; reflexivity |].
      simpl in Hu'. inversion Hu'. subst u'. repeat split.
  - left.
    assert (Hw : send_wrappers (res (set_world (admitted rt rq w u) w1)) = [])
      by (simpl; now rewrite Haud).
    rewrite (@respond_plain R code body _ Hw eq_refl). exact Ha.
Qed.

End EveryRequest.

(** ** The handlers, one by one *)

Section Handlers.

Variable R : Runtime.

Ltac run_store Hf :=
  unfold store_call; cbn [admitted world];
  match type of Hf with
  | hd false (faults ?w) = false =>
      destruct (faults w) as [| [|] ?fs] eqn:?Ef; simpl in Hf; try discriminate
  end.

Lemma find_encounter_none (z : Z) (w : World) :
  (forall e, In e (encounters w) -> Encounter.id e <> z) -> find_encounter z w = None.
Proof.
  unfold find_encounter. induction (encounters w) as [| e l IH]; intros H; simpl.
  - reflexivity.
  - destruct (Encounter.id e =? z) eqn:E.
    + apply Z.eqb_eq in E. exfalso. now apply (H e (or_introl eq_refl)).
    + apply IH. intros q Hq. apply H. now right.
Qed.

Lemma called_no_flag (w : World) : faults w = [] -> called w = w.
Proof. intros H. unfold called. rewrite H. destruct w; simpl in *; now subst. Qed.

Lemma post_prescriptions_missing (rq : Request) (w : World) (u : Payload.t)
    (fields : list (string * jsval)) (z : Z) :
  body rq = JObject fields ->
  parseInt R (opt_prop (body rq) "encounter_id") = Num z ->
  int32 z = true ->
  find_encounter z w = None ->
  hd false (faults w) = false ->
  post_prescriptions R (admitted POST_prescriptions rq w u)
  = (Returned tt,
     answered R 404 (error_body "Encounter not found")
              (set_world (admitted POST_prescriptions rq w u) (called w))).
Proof.
  intros Hbody Hparse Hint Hnone Hf.
  unfold post_prescriptions, handler_try, try_catch.
  unfold bind at 1, get at 1. cbn [admitted req body]. rewrite Hbody.
  unfold bind at 1, destructure, ret at 1.
  unfold bind at 1. rewrite <- Hbody, Hparse.
  unfold prisma_encounter_findUnique. run_store Hf.
  - rewrite Hnone, Hint, respond_error by (lia || reflexivity).
    now rewrite (called_no_flag _ Ef).
  - replace (find_encounter z (with_faults w fs)) with (find_encounter z w)
      by reflexivity.
    rewrite Hnone, Hint, respond_error by (lia || reflexivity).
    unfold called. now rewrite Ef.
Qed.

(** X8: an authorized, schema-valid POST /api/prescriptions whose
    encounter_id [parseInt] reads as a 32-bit integer that is the id of no
    encounter of the store, and whose lookup the store answers, is answered
    404; no Prescription row is inserted and no audit entry is recorded:
    but for the fault flag the lookup consumed, the store is as it was. *)
Theorem prescription_for_missing_encounter (rq : Request) (w : World) (u : Payload.t)
    (fields : list (string * jsval)) (z : Z) :
  authorized R POST_prescriptions rq u ->
  body rq = JObject fields ->
  parseInt R (opt_prop (body rq) "encounter_id") = Num z ->
  int32 z = true ->
  (forall e, In e (encounters w) -> Encounter.id e <> z) ->
  hd false (faults w) = false ->
  serve R POST_prescriptions rq w
  = (Returned tt,
     answered R 404 (error_body "Encounter not found")
              (set_world (admitted POST_prescriptions rq w u) (called w))).
Proof.
  intros Hauth Hbody Hparse Hint Hnone Hf.
  rewrite (serve_authorized w Hauth). cbn [handler].
  now apply post_prescriptions_missing with (fields := fields) (z := z);
    try apply find_encounter_none.
Qed.

Lemma get_patient_found_or_not (rq : Request) (w : World) (u : Payload.t) (z : Z) :
  parseInt R (of_opt_string (params_id rq)) = Num z ->
  (find_patient z w = None -> int32 z = true) ->
  hd false (faults w) = false ->
  get_patient R (admitted GET_patient rq w u)
  = match find_patient z w with
    | None => respond R 404 (error_body "Patient not found")
    | Some p => res_json R (Patient.to_js p)
    end (set_world (admitted GET_patient rq w u) (called w)).
Proof.
  intros Hparse Hint Hf.
  assert (Hfresh : forall w', delivered (res (set_world (admitted GET_patient rq w u) w')) = [])
    by reflexivity.
  unfold get_patient, handler_try, try_catch.
  unfold bind at 1, get at 1. cbn [admitted req params_id]. rewrite Hparse.
  unfold bind at 1, prisma_patient_findUnique.
  rewrite store_call_runs by exact Hf. cbn [admitted world].
  replace (find_patient z (called w)) with (find_patient z w) by reflexivity.
  destruct (find_patient z w) as [p |].
  - cbn [fst snd]. rewrite res_json_respond.
    destruct (@respond_any R 200 (Patient.to_js p)
                (set_world (admitted GET_patient rq w u) (called w)) (Hfresh _))
      as (w2 & _ & E). cbn [statusCode res set_world admitted] in *. now rewrite E.
  - rewrite (Hint eq_refl). cbn [fst snd].
    destruct (@respond_any R 404 (error_body "Patient not found")
                (set_world (admitted GET_patient rq w u) (called w)) (Hfresh _))
      as (w2 & _ & E). cbn [set_world admitted] in *. now rewrite E.
Qed.

(** X9: an authorized GET /api/patients/:id whose id [parseInt] reads as a
    32-bit integer that is the id of no patient of the store, and whose
    lookup the store answers, is answered 404 and leaves no audit entry:
    but for the fault flag the lookup consumed, the store is as it was. *)
Theorem missing_patient_is_a_404 (rq : Request) (w : World) (u : Payload.t) (z : Z) :
  authorized R GET_patient rq u ->
  parseInt R (of_opt_string (params_id rq)) = Num z ->
  int32 z = true ->
  (forall p, In p (patients w) -> Patient.id p <> z) ->
  hd false (faults w) = false ->
  serve R GET_patient rq w
  = (Returned tt,
     answered R 404 (error_body "Patient not found")
              (set_world (admitted GET_patient rq w u) (called w))).
Proof.
  intros Hauth Hparse Hint Hnone Hf.
  rewrite (serve_authorized w Hauth). cbn [handler].
  rewrite (@get_patient_found_or_not rq w u z Hparse (fun _ => Hint) Hf).
  rewrite (find_patient_none _ Hnone).
  apply respond_error; [lia | reflexivity].
Qed.

(** X10: an authorized GET /api/patients/:id whose id names a patient of the
    store is answered 200 with that patient, and the clinical tables are as
    they were. *)
Theorem found_patient_is_returned (rq : Request) (w : World) (u : Payload.t) (z : Z)
    (p : Patient.t) :
  authorized R GET_patient rq u ->
  parseInt R (of_opt_string (params_id rq)) = Num z ->
  find_patient z w = Some p ->
  hd false (faults w) = false ->
  fst (serve R GET_patient rq w) = Returned tt
  /\ delivered (res (snd (serve R GET_patient rq w)))
     = [(200, JSON_stringify R (Patient.to_js p))]
  /\ clinical (world (snd (serve R GET_patient rq w))) = clinical w
  /\ Patient.id p = z /\ In p (patients w).
Proof.
  intros Hauth Hparse Hfound Hf.
  rewrite (serve_authorized w Hauth). cbn [handler].
  assert (Hint : find_patient z w = None -> int32 z = true)
    by (rewrite Hfound; discriminate).
  rewrite (@get_patient_found_or_not rq w u z Hparse Hint Hf), Hfound.
  rewrite res_json_respond. cbn [statusCode res set_world admitted].
  destruct (@respond_any R 200 (Patient.to_js p)
              (set_world (admitted GET_patient rq w u) (called w)) eq_refl)
    as (w2 & Hc & E).
  rewrite E. cbn [fst snd world set_world answered set_res res delivered].
  split; [reflexivity |]. split; [reflexivity |].
  split; [rewrite Hc; reflexivity |].
  apply find_some in Hfound. destruct Hfound as [Hin Hid].
  apply Z.eqb_eq in Hid. now split.
Qed.

Lemma findUnique_NaN_throws (st : St) :
  exists e,
    prisma_patient_findUnique NaN st = (Thrown e, set_world st (called (world st))).
Proof.
  unfold prisma_patient_findUnique.
  destruct (hd false (faults (world st))) eqn:Hf.
  - eexists. now apply store_call_fault.
  - eexists. rewrite store_call_runs by exact Hf. reflexivity.
Qed.

(** X11: an [:id] that [parseInt] reads as [NaN] (a path such as
    /api/patients/abc) is not answered 400 or 404: the lookup throws, the
    handler's [catch] logs the error and answers 500 "Database error", on
    GET /api/patients/:id as on GET /api/patients/:id/records; no audit
    entry is recorded and the clinical tables are as they were. *)
Theorem non_numeric_id_is_a_500 (rt : Route) (rq : Request) (w : World) (u : Payload.t) :
  rt = GET_patient \/ rt = GET_patient_records ->
  authorized R rt rq u ->
  parseInt R (of_opt_string (params_id rq)) = NaN ->
  exists e,
    serve R rt rq w
    = (Returned tt, caught R e (set_world (admitted rt rq w u) (called w))).
Proof.
  intros Hrt Hauth Hparse.
  rewrite (serve_authorized w Hauth).
  destruct (findUnique_NaN_throws (admitted rt rq w u)) as [e He].
  exists e.
  destruct Hrt as [-> | ->]; cbn [handler]; unfold get_patient, get_patient_records;
    apply handler_try_thrown; try reflexivity;
    (erewrite bind_returned by reflexivity);
    cbn [admitted req params_id]; rewrite Hparse;
    (erewrite bind_thrown by exact He); reflexivity.
Qed.

Ltac throws_at_store Hf :=
  repeat (first
            [ erewrite bind_thrown by (apply store_call_fault; exact Hf)
            | erewrite bind_thrown by reflexivity
            | erewrite bind_returned by reflexivity ];
          cbv beta; cbn [admitted req body];
          repeat match goal with
                 | E : body _ = _ |- _ => rewrite E
                 end).

(** X12: when the store rejects the first call a handler makes, an
    authorized request is answered 500 with the one message "Database
    error", whatever the route; the error is logged, no audit entry is
    recorded and the clinical tables are as they were. *)
Theorem store_failure_is_a_500 (rt : Route) (rq : Request) (w : World) (u : Payload.t) :
  authorized R rt rq u ->
  hd false (faults w) = true ->
  exists e w',
    serve R rt rq w = (Returned tt, caught R e (set_world (admitted rt rq w u) w'))
    /\ clinical w' = clinical w
    /\ auditLogs w' = auditLogs w
    /\ console w' = console w.
Proof.
  intros Hauth Hf.
  rewrite (serve_authorized w Hauth).
  assert (Hc : clinical (called w) = clinical w /\ auditLogs (called w) = auditLogs w
               /\ console (called w) = console w) by (repeat split).
  assert (Hw : clinical w = clinical w /\ auditLogs w = auditLogs w
               /\ console w = console w) by (repeat split).
  destruct rt; cbn [handler];
    unfold post_patients, get_patients, get_patient, post_encounters,
      post_prescriptions, get_patient_records, get_audit_logs.
  all: destruct (body rq) eqn:Eb.
  all: eexists _, _; (split; [ apply handler_try_thrown; [| reflexivity ];
                               unfold prisma_patient_create, prisma_patient_findMany,
                                 prisma_patient_findUnique, prisma_encounter_findUnique,
                                 prisma_auditLog_findMany;
                               throws_at_store Hf; reflexivity
                             | ]).
  all: first [ exact Hc | exact Hw ].
Qed.

Lemma post_patients_creates (rq : Request) (w : World) (u : Payload.t)
    (n : string) (d : Z) (g : string) (ph : option string) :
  patient_fields R (body rq) n d g ph ->
  hd false (faults w) = false ->
  post_patients R (admitted POST_patients rq w u)
  = respond R 201 (created_body (patient_seq w) "Patient created successfully")
      (set_world (admitted POST_patients rq w u)
                 (with_new_patient w (new_patient w n d g ph))).
Proof.
  intros ([fields Hb] & Hn & Hd & Hg & Hph) Hf.
  assert (Hfresh : forall w', delivered (res (set_world (admitted POST_patients rq w u) w'))
                              = []) by reflexivity.
  unfold post_patients, handler_try, try_catch.
  unfold bind at 1, get at 1. cbn [admitted req body]. rewrite Hb.
  unfold bind at 1, destructure, ret at 1. rewrite <- Hb, Hn, Hd, Hg.
  unfold bind at 1, prisma_patient_create.
  rewrite store_call_runs by exact Hf. cbn [admitted world]. rewrite Hph.
  cbn [fst snd Patient.id].
  unfold with_new_patient, new_patient.
  replace (patient_seq (called w)) with (patient_seq w) by reflexivity.
  replace (patients (called w)) with (patients w) by reflexivity.
  replace (now (called w)) with (now w) by reflexivity.
  match goal with |- context [respond R 201 ?b ?st] =>
    destruct (@respond_any R 201 b st (Hfresh _)) as (w2 & _ & E) end.
  rewrite E. reflexivity.
Qed.

(** X13: an authorized POST /api/patients whose body the store accepts is
    answered 201 with the id drawn from the patient sequence; exactly one
    patient row is appended, with that id, the posted name, date of birth,
    gender and phone and the store's time; the sequence moves on by one and
    the other clinical tables are as they were. *)
Theorem patient_is_created (rq : Request) (w : World) (u : Payload.t)
    (n : string) (d : Z) (g : string) (ph : option string) :
  authorized R POST_patients rq u ->
  patient_fields R (body rq) n d g ph ->
  hd false (faults w) = false ->
  fst (serve R POST_patients rq w) = Returned tt
  /\ delivered (res (snd (serve R POST_patients rq w)))
     = [(201, JSON_stringify R (created_body (patient_seq w)
                                             "Patient created successfully"))]
  /\ patients (world (snd (serve R POST_patients rq w)))
     = patients w ++ [new_patient w n d g ph]
  /\ patient_seq (world (snd (serve R POST_patients rq w))) = patient_seq w + 1
  /\ encounters (world (snd (serve R POST_patients rq w))) = encounters w
  /\ prescriptions (world (snd (serve R POST_patients rq w))) = prescriptions w.
Proof.
  intros Hauth Hb Hf.
  rewrite (serve_authorized w Hauth). cbn [handler].
  rewrite (@post_patients_creates rq w u n d g ph Hb Hf).
  match goal with |- context [respond R 201 ?b ?st] =>
    destruct (@respond_any R 201 b st eq_refl) as (w2 & Hc & E) end.
  rewrite E. cbn [fst snd world set_world answered set_res res delivered] in *.
  unfold clinical in Hc. inversion Hc as [[Hu Hp He Hpr Hps Hes Hprs Hnow]].
  repeat split; assumption.
Qed.

Lemma find_patient_appended (w w1 : World) (row : Patient.t) :
  (forall p, In p (patients w) -> Patient.id p < Patient.id row) ->
  patients w1 = patients w ++ [row] ->
  find_patient (Patient.id row) w1 = Some row.
Proof.
  intros Hlt Hp. unfold find_patient. rewrite Hp. clear Hp.
  induction (patients w) as [| p l IH]; simpl.
  - now rewrite Z.eqb_refl.
  - destruct (Patient.id p =? Patient.id row) eqn:E.
    + apply Z.eqb_eq in E. specialize (Hlt p (or_introl eq_refl)). lia.
    + apply IH. intros q Hq. apply Hlt. now right.
Qed.

(** X14: what POST /api/patients creates, GET /api/patients/:id reads back:
    in a store whose patient ids are below the sequence, after a successful
    creation a read of the id the creation answered returns the row with the
    posted fields. *)
Theorem created_patient_is_read_back (rq rq' : Request) (w : World) (u u' : Payload.t)
    (n : string) (d : Z) (g : string) (ph : option string) :
  (forall p, In p (patients w) -> Patient.id p < patient_seq w) ->
  authorized R POST_patients rq u ->
  patient_fields R (body rq) n d g ph ->
  hd false (faults w) = false ->
  authorized R GET_patient rq' u' ->
  parseInt R (of_opt_string (params_id rq')) = Num (patient_seq w) ->
  hd false (faults (world (snd (serve R POST_patients rq w)))) = false ->
  delivered (res (snd (serve R GET_patient rq'
                         (world (snd (serve R POST_patients rq w))))))
  = [(200, JSON_stringify R (Patient.to_js (new_patient w n d g ph)))].
Proof.
  intros Hids Hauth Hb Hf Hauth' Hparse Hf'.
  assert (Hp : patients (world (snd (serve R POST_patients rq w)))
               = patients w ++ [new_patient w n d g ph]).
  { rewrite (serve_authorized w Hauth). cbn [handler].
    rewrite (@post_patients_creates rq w u n d g ph Hb Hf).
    match goal with |- context [respond R 201 ?b ?st] =>
      destruct (@respond_any R 201 b st eq_refl) as (w2 & Hc & E) end.
    rewrite E. cbn [fst snd world set_world answered set_res res delivered] in *.
    unfold clinical in Hc. now inversion Hc. }
  set (w1 := world (snd (serve R POST_patients rq w))) in *.
  rewrite (serve_authorized w1 Hauth'). cbn [handler].
  assert (Hfound : find_patient (patient_seq w) w1 = Some (new_patient w n d g ph))
    by exact (@find_patient_appended w w1 (new_patient w n d g ph) Hids Hp).
  assert (Hint : find_patient (patient_seq w) w1 = None -> int32 (patient_seq w) = true)
    by (rewrite Hfound; discriminate).
  rewrite (@get_patient_found_or_not rq' w1 u' (patient_seq w) Hparse Hint Hf').
  rewrite Hfound.
  rewrite res_json_respond. cbn [statusCode res set_world admitted].
  match goal with |- context [respond R 200 ?b ?st] =>
    destruct (@respond_any R 200 b st eq_refl) as (w2 & _ & E) end.
  rewrite E. reflexivity.
Qed.

(** X15: the audit entry of a creation carries the id of what was created:
    after a successful POST /api/patients whose answer parses back with its
    id, with the store taking both writes, the trail has one more entry,
    CREATE / patient / the id of the new patient, in the acting role. *)
Theorem created_patient_is_audited (rq : Request) (w : World) (u : Payload.t)
    (n : string) (d : Z) (g : string) (ph : option string) (v : jsval) :
  authorized R POST_patients rq u ->
  patient_fields R (body rq) n d g ph ->
  params_id rq = None ->
  patient_seq w <> 0 ->
  faults w = [] ->
  JSON_parse R (JSON_stringify R (created_body (patient_seq w)
                                               "Patient created successfully"))
  = Some v ->
  opt_prop v "id" = JNumber (Num (patient_seq w)) ->
  auditLogs (world (snd (serve R POST_patients rq w)))
  = auditLogs w
    ++ [AuditLog.mk (audit_seq w) (User.role u) "CREATE" "patient"
                    (Some (patient_seq w)) (now w)].
Proof.
  intros Hauth Hb Hpid Hseq Hfs Hparse Hid.
  assert (Hf : hd false (faults w) = false) by (now rewrite Hfs).
  rewrite (serve_authorized w Hauth). cbn [handler].
  rewrite (@post_patients_creates rq w u n d g ph Hb Hf).
  set (st1 := set_world (admitted POST_patients rq w u)
                        (with_new_patient w (new_patient w n d g ph))).
  assert (Hw : send_wrappers (res st1) = [("CREATE", "patient")]) by reflexivity.
  set (st2 := set_res st1 (mkResponse 201 [("CREATE", "patient")] [])).
  assert (Ha : audit_record R "CREATE" "patient"
                 (JString (JSON_stringify R (created_body (patient_seq w)
                                                          "Patient created successfully")))
                 st2
               = (Returned tt,
                  set_world st2
                    (recorded (world st2)
                       (audit_row (world st2) u "CREATE" "patient"
                                  (Some (patient_seq w)))))).
  { apply audit_record_success with (v := v).
    - simpl. lia.
    - reflexivity.
    - exact Hparse.
    - unfold derive_entityId. cbn [req set_res st1 st2 set_world admitted params_id].
      rewrite Hpid. cbn [of_opt_string truthy]. rewrite Hid.
      unfold js_or. cbn [truthy].
      apply Z.eqb_neq in Hseq. rewrite Hseq. reflexivity.
    - cbn [world set_res st1 st2 set_world]. unfold with_new_patient, called.
      cbn. now rewrite Hfs. }
  rewrite (@respond_recorder R 201 _ st1 "CREATE" "patient" _ Hw eq_refl Ha).
  reflexivity.
Qed.

Lemma get_patients_all (rq : Request) (w : World) (u : Payload.t) :
  query_search rq = None \/ query_search rq = Some "" ->
  hd false (faults w) = false ->
  get_patients R (admitted GET_patients rq w u)
  = (Returned tt,
     answered R 200 (JArray (map Patient.to_js (patient_rows None w)))
              (set_world (admitted GET_patients rq w u) (called w))).
Proof.
  intros Hq Hf.
  unfold get_patients. apply handler_try_returned.
  erewrite bind_returned by reflexivity. cbv beta. cbn [admitted req query_search].
  replace (if truthy (of_opt_string (query_search rq)) then query_search rq else None)
    with (@None string) by (destruct Hq as [-> | ->]; reflexivity).
  erewrite bind_returned
    by (unfold prisma_patient_findMany; rewrite store_call_runs by exact Hf;
        reflexivity).
  cbn [snd]. rewrite res_json_respond, respond_plain by reflexivity.
  reflexivity.
Qed.

(** X16: an authorized GET /api/patients without a search text, or with an
    empty one, filters nothing: it is answered 200 with patients of the
    store, at most 50, newest first by creation time; all of them when the
    store holds at most 50, and otherwise 50 of them than which none left
    out is newer. *)
Theorem patient_listing_without_search (rq : Request) (w : World) (u : Payload.t) :
  authorized R GET_patients rq u ->
  query_search rq = None \/ query_search rq = Some "" ->
  hd false (faults w) = false ->
  serve R GET_patients rq w
  = (Returned tt,
     answered R 200 (JArray (map Patient.to_js (patient_rows None w)))
              (set_world (admitted GET_patients rq w u) (called w)))
  /\ (List.length (patient_rows None w) <= 50)%nat
  /\ newest_first Patient.created_at (patient_rows None w)
  /\ exists rest,
       Permutation (patients w) (patient_rows None w ++ rest)
       /\ (forall a b, In a (patient_rows None w) -> In b rest ->
                       Patient.created_at b <= Patient.created_at a)
       /\ ((List.length (patients w) <= 50)%nat -> rest = []).
Proof.
  intros Hauth Hq Hf. split.
  { rewrite (serve_authorized w Hauth). cbn [handler]. now apply get_patients_all. }
  unfold patient_rows.
  destruct (take_newest Patient.created_at 50 (patients w))
    as (Hlen & Hsorted & rest & Hperm & Hcross & Hall).
  split; [exact Hlen |]. split; [exact Hsorted |].
  exists rest. now repeat split.
Qed.

(** The entries GET /api/audit-logs answers with. *)
Lemma get_audit_logs_rows (rq : Request) (w : World) (u : Payload.t) :
  hd false (faults w) = false ->
  get_audit_logs R (admitted GET_audit_logs rq w u)
  = (Returned tt,
     answered R 200
       (JArray (map AuditLog.to_js
                    (firstn 100 (orderBy_desc AuditLog.timestamp (auditLogs w)))))
       (set_world (admitted GET_audit_logs rq w u) (called w))).
Proof.
  intros Hf.
  unfold get_audit_logs. apply handler_try_returned.
  erewrite bind_returned
    by (unfold prisma_auditLog_findMany; rewrite store_call_runs by exact Hf;
        reflexivity).
  cbn [snd]. rewrite res_json_respond, respond_plain by reflexivity.
  reflexivity.
Qed.

(** X17: an authorized GET /api/audit-logs is answered 200 with entries of
    the trail, at most 100, newest first by timestamp; all of them when the
    trail holds at most 100, and otherwise 100 of them than which none left
    out is newer.  Reading the trail adds nothing to it. *)
Theorem audit_log_listing (rq : Request) (w : World) (u : Payload.t) :
  authorized R GET_audit_logs rq u ->
  hd false (faults w) = false ->
  exists rows,
    serve R GET_audit_logs rq w
    = (Returned tt,
       answered R 200 (JArray (map AuditLog.to_js rows))
                (set_world (admitted GET_audit_logs rq w u) (called w)))
    /\ (List.length rows <= 100)%nat
    /\ newest_first AuditLog.timestamp rows
    /\ (exists rest,
          Permutation (auditLogs w) (rows ++ rest)
          /\ (forall a b, In a rows -> In b rest ->
                          AuditLog.timestamp b <= AuditLog.timestamp a)
          /\ ((List.length (auditLogs w) <= 100)%nat -> rest = []))
    /\ auditLogs (world (snd (serve R GET_audit_logs rq w))) = auditLogs w.
Proof.
  intros Hauth Hf.
  exists (firstn 100 (orderBy_desc AuditLog.timestamp (auditLogs w))).
  rewrite (serve_authorized w Hauth). cbn [handler].
  rewrite (@get_audit_logs_rows rq w u Hf).
  destruct (take_newest AuditLog.timestamp 100 (auditLogs w))
    as (Hlen & Hsorted & rest & Hperm & Hcross & Hall).
  split; [reflexivity |]. split; [exact Hlen |]. split; [exact Hsorted |].
  split; [exists rest; now repeat split | reflexivity].
Qed.

Lemma post_encounters_creates (rq : Request) (w : World) (u : Payload.t)
    (pid : Z) (cr : string) (n : option string) (p : Patient.t) :
  encounter_fields R (body rq) pid cr n ->
  find_patient pid w = Some p ->
  hd false (faults w) = false ->
  hd false (faults (called w)) = false ->
  post_encounters R (admitted POST_encounters rq w u)
  = respond R 201 (created_body (encounter_seq w) "Encounter created successfully")
      (set_world (admitted POST_encounters rq w u)
                 (with_encounters (called (called w))
                                  (encounters w ++ [new_encounter w pid cr n])
                                  (encounter_seq w + 1))).
Proof.
  intros ([fields Hb] & Hp & Hc & Hn) Hfound Hf Hf2.
  assert (Hfresh : forall w', delivered (res (set_world (admitted POST_encounters rq w u) w'))
                              = []) by reflexivity.
  unfold post_encounters, handler_try, try_catch.
  unfold bind at 1, get at 1. cbn [admitted req body]. rewrite Hb.
  unfold bind at 1, destructure, ret at 1. rewrite <- Hb, Hp, Hc.
  unfold bind at 1, prisma_patient_findUnique.
  rewrite store_call_runs by exact Hf. cbn [admitted world fst snd].
  replace (find_patient pid (called w)) with (find_patient pid w) by reflexivity.
  rewrite Hfound.
  cbn [fst snd set_world world].
  unfold bind at 1, prisma_encounter_create.
  rewrite store_call_runs by exact Hf2. cbn [set_world world]. rewrite Hn.
  replace (find_patient pid (called (called w))) with (find_patient pid w) by reflexivity.
  rewrite Hfound. cbn [fst snd Encounter.id].
  unfold new_encounter.
  replace (encounter_seq (called (called w))) with (encounter_seq w) by reflexivity.
  replace (encounters (called (called w))) with (encounters w) by reflexivity.
  replace (now (called (called w))) with (now w) by reflexivity.
  match goal with |- context [respond R 201 ?b ?st] =>
    destruct (@respond_any R 201 b st (Hfresh _)) as (w2 & _ & E) end.
  rewrite E. symmetry. exact E.
Qed.

(** X25: an authorized POST /api/encounters for a patient of the store, with
    a body the store accepts, is answered 201 with the id drawn from the
    encounter sequence; exactly one encounter row is appended, with that id,
    that patient, the posted clinician role and notes and the store's time;
    the sequence moves on by one and patients and prescriptions are as they
    were. *)
Theorem encounter_is_created (rq : Request) (w : World) (u : Payload.t)
    (pid : Z) (cr : string) (n : option string) (p : Patient.t) :
  authorized R POST_encounters rq u ->
  encounter_fields R (body rq) pid cr n ->
  find_patient pid w = Some p ->
  hd false (faults w) = false ->
  hd false (faults (called w)) = false ->
  fst (serve R POST_encounters rq w) = Returned tt
  /\ delivered (res (snd (serve R POST_encounters rq w)))
     = [(201, JSON_stringify R (created_body (encounter_seq w)
                                             "Encounter created successfully"))]
  /\ encounters (world (snd (serve R POST_encounters rq w)))
     = encounters w ++ [new_encounter w pid cr n]
  /\ encounter_seq (world (snd (serve R POST_encounters rq w))) = encounter_seq w + 1
  /\ patients (world (snd (serve R POST_encounters rq w))) = patients w
  /\ prescriptions (world (snd (serve R POST_encounters rq w))) = prescriptions w.
Proof.
  intros Hauth Hb Hfound Hf Hf2.
  rewrite (serve_authorized w Hauth). cbn [handler].
  rewrite (@post_encounters_creates rq w u pid cr n p Hb Hfound Hf Hf2).
  match goal with |- context [respond R 201 ?b ?st] =>
    destruct (@respond_any R 201 b st eq_refl) as (w2 & Hc & E) end.
  rewrite E. cbn [fst snd world set_world answered set_res res delivered] in *.
  unfold clinical in Hc. inversion Hc as [[Hu Hp He Hpr Hps Hes Hprs Hnow]].
  repeat split; assumption.
Qed.



Lemma map_M_prescribed (rows : list (Prescription.t * User.t)) (st : St) :
  map_M prescribed (map (fun r => (fst r, Some (snd r))) rows) st
  = (Returned (map shown_prescription rows), st).
Proof.
  induction rows as [| r rows IH]; [reflexivity |].
  cbn [map map_M]. unfold bind at 1, prescribed at 1. cbn [snd fst ret].
  unfold bind at 1. rewrite IH. reflexivity.
Qed.

Lemma with_creators (l : list (Prescription.t * option User.t)) :
  (forall pc, In pc l -> snd pc <> None) ->
  exists rows, l = map (fun r => (fst r, Some (snd r))) rows.
Proof.
  induction l as [| [pr [c |]] l IH]; intros H.
  - now exists [].
  - destruct IH as [rows ->]; [intros pc Hpc; apply H; now right |].
    now exists ((pr, c) :: rows).
  - exfalso. now apply (H (pr, None) (or_introl eq_refl)).
Qed.

Lemma creators_found (w : World) :
  well_formed w ->
  forall pr, In pr (prescriptions w) -> find_user (Prescription.created_by pr) w <> None.
Proof.
  intros (_ & _ & _ & _ & _ & Hp) pr Hin.
  destruct (Hp pr Hin) as [_ (c & Hc & Hid)].
  unfold find_user. intros Hnone.
  apply (find_none _ _ Hnone) in Hc. apply Z.eqb_neq in Hc. contradiction.
Qed.

(** The prescriptions the records of patient [z] include: those of the
    encounters of [z], each with its creator. *)
Lemma records_rows (z : Z) (w : World) :
  (forall pr, In pr (prescriptions w) ->
              find_user (Prescription.created_by pr) w <> None) ->
  exists rows,
    List.concat
      (map snd
         (map (fun e => (e, prescriptions_of e w))
              (orderBy_desc Encounter.created_at
                 (filter (fun e => Encounter.patient_id e =? z) (encounters w)))))
    = map (fun r => (fst r, Some (snd r))) rows
    /\ forall pr c,
         In (pr, c) rows
         <-> (In pr (prescriptions w)
              /\ (exists e, In e (encounters w) /\ Encounter.patient_id e = z
                            /\ Prescription.encounter_id pr = Encounter.id e)
              /\ find_user (Prescription.created_by pr) w = Some c).
Proof.
  intros Hcreators.
  set (encs := orderBy_desc Encounter.created_at
                 (filter (fun e => Encounter.patient_id e =? z) (encounters w))).
  assert (Hencs : forall e, In e encs
                            <-> In e (encounters w) /\ Encounter.patient_id e = z).
  { intros e. unfold encs. split.
    - intros H. apply (Permutation_in _ (Permutation_sym (orderBy_desc_perm _ _))) in H.
      apply filter_In in H. destruct H as [H1 H2]. apply Z.eqb_eq in H2. now split.
    - intros [H1 H2]. apply (Permutation_in _ (orderBy_desc_perm _ _)).
      apply filter_In. split; [exact H1 | now apply Z.eqb_eq]. }
  assert (Hof : forall e pr oc,
             In (pr, oc) (prescriptions_of e w)
             <-> In pr (prescriptions w)
                 /\ Prescription.encounter_id pr = Encounter.id e
                 /\ find_user (Prescription.created_by pr) w = oc).
  { intros e pr oc. unfold prescriptions_of. rewrite in_map_iff. split.
    - intros (p0 & E & Hin). inversion E; subst.
      apply (Permutation_in _ (Permutation_sym (orderBy_desc_perm _ _))) in Hin.
      apply filter_In in Hin. destruct Hin as [H1 H2]. apply Z.eqb_eq in H2.
      now repeat split.
    - intros (H1 & H2 & <-). exists pr. split; [reflexivity |].
      apply (Permutation_in _ (orderBy_desc_perm _ _)).
      apply filter_In. split; [exact H1 | now apply Z.eqb_eq]. }
  rewrite map_map. cbn [snd].
  assert (Hin : forall pr oc,
             In (pr, oc) (List.concat (map (fun e => prescriptions_of e w) encs))
             <-> In pr (prescriptions w)
                 /\ (exists e, In e (encounters w) /\ Encounter.patient_id e = z
                               /\ Prescription.encounter_id pr = Encounter.id e)
                 /\ find_user (Prescription.created_by pr) w = oc).
  { intros pr oc. rewrite in_concat. split.
    - intros (l & Hl & Hpr). apply in_map_iff in Hl. destruct Hl as (e & <- & He).
      apply Hencs in He. apply Hof in Hpr.
      destruct He as [He1 He2], Hpr as (H1 & H2 & H3).
      split; [exact H1 |]. split; [now exists e | exact H3].
    - intros (H1 & (e & He1 & He2 & He3) & H3).
      exists (prescriptions_of e w). split.
      + apply in_map_iff. exists e. split; [reflexivity |]. now apply Hencs.
      + now apply Hof. }
  destruct (@with_creators (List.concat (map (fun e => prescriptions_of e w) encs)))
    as [rows Hrows].
  { intros [pr oc] Hpc. apply Hin in Hpc. destruct Hpc as (H1 & _ & <-).
    now apply Hcreators. }
  exists rows. split; [exact Hrows |].
  intros pr c. rewrite <- (Hin pr (Some c)), Hrows, in_map_iff. split.
  - intros H. now exists (pr, c).
  - intros ([pr' c'] & E & H). cbn [fst snd] in E. now inversion E; subst.
Qed.

Lemma get_patient_records_found (rq : Request) (w : World) (u : Payload.t) (z : Z)
    (p : Patient.t) (rows : list (Prescription.t * User.t)) :
  parseInt R (of_opt_string (params_id rq)) = Num z ->
  find_patient z w = Some p ->
  List.concat
    (map snd
       (map (fun e => (e, prescriptions_of e w))
            (orderBy_desc Encounter.created_at
               (filter (fun e => Encounter.patient_id e =? z) (encounters w)))))
  = map (fun r => (fst r, Some (snd r))) rows ->
  hd false (faults w) = false ->
  hd false (faults (called w)) = false ->
  get_patient_records R (admitted GET_patient_records rq w u)
  = respond R 200
      (records_body p
         (orderBy_desc Encounter.created_at
            (filter (fun e => Encounter.patient_id e =? z) (encounters w)))
         rows)
      (set_world (admitted GET_patient_records rq w u) (called (called w))).
Proof.
  intros Hparse Hfound Hrows Hf Hf2.
  assert (Hfresh : forall w',
             delivered (res (set_world (admitted GET_patient_records rq w u) w')) = [])
    by reflexivity.
  unfold get_patient_records, handler_try, try_catch.
  unfold bind at 1, get at 1. cbn [admitted req params_id]. rewrite Hparse.
  unfold bind at 1, prisma_patient_findUnique.
  rewrite store_call_runs by exact Hf. cbn [admitted world fst snd].
  replace (find_patient z (called w)) with (find_patient z w) by reflexivity.
  rewrite Hfound.
  cbn [fst snd set_world world].
  unfold bind at 1, prisma_encounter_findMany.
  rewrite store_call_runs by exact Hf2. cbn [set_world world fst snd].
  change (encounters (called (called w))) with (encounters w).
  replace (map (fun e => (e, prescriptions_of e (called (called w)))))
    with (map (fun e : Encounter.t => (e, prescriptions_of e w))) by reflexivity.
  unfold bind at 1. rewrite Hrows, map_M_prescribed.
  rewrite map_map. cbn [fst].
  rewrite res_json_respond. cbn [statusCode res set_world admitted].
  unfold records_body.
  match goal with |- context [respond R 200 ?b ?st] =>
    destruct (@respond_any R 200 b st (Hfresh _)) as (w2 & _ & E) end.
  rewrite E. symmetry. exact E.
Qed.

(** X27: in a well-formed store, an authorized GET /api/patients/:id/records
    for a patient of the store is answered 200 with the patient, the
    encounters of that patient and no others, newest first, and the
    prescriptions of those encounters and no others, each shown with the
    username of its creator; the clinical tables are as they were. *)
Theorem patient_records_are_the_patients_own (rq : Request) (w : World) (u : Payload.t)
    (z : Z) (p : Patient.t) :
  authorized R GET_patient_records rq u ->
  parseInt R (of_opt_string (params_id rq)) = Num z ->
  find_patient z w = Some p ->
  well_formed w ->
  hd false (faults w) = false ->
  hd false (faults (called w)) = false ->
  exists encs rows,
    fst (serve R GET_patient_records rq w) = Returned tt
    /\ delivered (res (snd (serve R GET_patient_records rq w)))
       = [(200, JSON_stringify R (records_body p encs rows))]
    /\ Permutation (filter (fun e => Encounter.patient_id e =? z) (encounters w)) encs
    /\ newest_first Encounter.created_at encs
    /\ (forall pr c,
          In (pr, c) rows
          <-> (In pr (prescriptions w)
               /\ (exists e, In e (encounters w) /\ Encounter.patient_id e = z
                             /\ Prescription.encounter_id pr = Encounter.id e)
               /\ find_user (Prescription.created_by pr) w = Some c))
    /\ clinical (world (snd (serve R GET_patient_records rq w))) = clinical w.
Proof.
  intros Hauth Hparse Hfound Hwf Hf Hf2.
  destruct (@records_rows z w (creators_found Hwf)) as (rows & Hrows & Hin).
  exists (orderBy_desc Encounter.created_at
            (filter (fun e => Encounter.patient_id e =? z) (encounters w))), rows.
  rewrite (serve_authorized w Hauth). cbn [handler].
  rewrite (@get_patient_records_found rq w u z p rows Hparse Hfound Hrows Hf Hf2).
  match goal with |- context [respond R 200 ?b ?st] =>
    destruct (@respond_any R 200 b st eq_refl) as (w2 & Hc & E) end.
  rewrite E. cbn [fst snd world set_world answered set_res res delivered].
  split; [reflexivity |]. split; [reflexivity |].
  split; [apply orderBy_desc_perm |]. split; [apply orderBy_desc_sorted |].
  split; [exact Hin |]. rewrite Hc. reflexivity.
Qed.

(** X28: an [:id] that [parseInt] reads as an integer outside the 32-bit
    range of the ids, which is the id of no patient, is not answered 404:
    the client refuses the lookup, the handler's [catch] logs the error and
    answers 500 "Database error", on GET /api/patients/:id as on GET
    /api/patients/:id/records; no audit entry is recorded and the clinical
    tables are as they were. *)
Theorem out_of_range_id_is_a_500 (rt : Route) (rq : Request) (w : World) (u : Payload.t)
    (z : Z) :
  rt = GET_patient \/ rt = GET_patient_records ->
  authorized R rt rq u ->
  parseInt R (of_opt_string (params_id rq)) = Num z ->
  int32 z = false ->
  (forall p, In p (patients w) -> Patient.id p <> z) ->
  exists e,
    serve R rt rq w
    = (Returned tt, caught R e (set_world (admitted rt rq w u) (called w))).
Proof.
  intros Hrt Hauth Hparse Hint Hnone.
  rewrite (serve_authorized w Hauth).
  destruct (@patient_lookup_throws (Num z) (admitted rt rq w u)) as [e He].
  { right; left. exists z. split; [reflexivity |]. split; [exact Hint |].
    now apply find_patient_none. }
  exists e.
  destruct Hrt as [-> | ->]; cbn [handler]; unfold get_patient, get_patient_records;
    apply handler_try_thrown; try reflexivity;
    (erewrite bind_returned by reflexivity);
    cbn [admitted req params_id]; rewrite Hparse;
    (erewrite bind_thrown by exact He); reflexivity.
Qed.

Lemma like_any_prefix (pattern : string) :
  (forall s, like pattern s = true) -> forall s, like (String "%" pattern) s = true.
Proof.
  intros H s. rewrite like_percent. apply any_suffix_spec.
  exists EmptyString, s. split; [reflexivity | apply H].
Qed.

Lemma patient_where_percent (p : Patient.t) : patient_where "%" p = true.
Proof.
  unfold patient_where, contains. apply orb_true_iff. left.
  change (toLowerCase "%") with "%"%string.
  change ("%" ++ "%" ++ "%")%string with (String "%" (String "%" "%")).
  apply like_any_prefix, like_any_prefix, like_anything.
Qed.

Lemma filter_all {A} (f : A -> bool) (l : list A) :
  (forall x, f x = true) -> filter f l = l.
Proof.
  intros H. induction l as [| x l IH]; simpl; [reflexivity |].
  now rewrite H, IH.
Qed.

(** X29: the search text goes into the pattern of the store as it is: an
    authorized GET /api/patients with the search text "%" filters nothing
    and is answered like a request without search text, with the newest 50
    patients of the store. *)
Theorem percent_search_lists_everyone (rq : Request) (w : World) (u : Payload.t) :
  authorized R GET_patients rq u ->
  query_search rq = Some "%"%string ->
  hd false (faults w) = false ->
  serve R GET_patients rq w
  = (Returned tt,
     answered R 200 (JArray (map Patient.to_js (patient_rows None w)))
              (set_world (admitted GET_patients rq w u) (called w))).
Proof.
  intros Hauth Hq Hf.
  rewrite (serve_authorized w Hauth). cbn [handler].
  assert (Hne : "%"%string <> ""%string) by discriminate.
  rewrite (@get_patients_rows R rq w u "%" Hq Hne Hf).
  unfold patient_rows. now rewrite (filter_all _ _ patient_where_percent).
Qed.

End Handlers.

(** ** The store stays well formed *)

Section WellFormed.

Variable R : Runtime.

Lemma ids_fresh_next (ids : list Z) (seq : Z) :
  ids_fresh ids seq -> ids_fresh (ids ++ [seq]) (seq + 1).
Proof.
  intros [Hnd Hlt]. split.
  - apply NoDup_app; [exact Hnd | repeat constructor; intros [] |].
    intros x Hx [E | []]. rewrite Forall_forall in Hlt. specialize (Hlt x Hx). lia.
  - apply Forall_app. split.
    + eapply Forall_impl; [| exact Hlt]. simpl. intros. lia.
    + repeat constructor. lia.
Qed.

Lemma keeps_ret {A} (a : A) : keeps_well_formed (ret a).
Proof. intros st H. exact H. Qed.

Lemma keeps_throw {A} (e : string) : keeps_well_formed (@throw A e).
Proof. intros st H. exact H. Qed.

Lemma keeps_get : keeps_well_formed get.
Proof. intros st H. exact H. Qed.

Lemma keeps_bind {A B} (m : M A) (k : A -> M B) :
  keeps_well_formed m -> (forall a, keeps_well_formed (k a)) ->
  keeps_well_formed (bind m k).
Proof.
  intros Hm Hk st H. unfold bind. specialize (Hm st H).
  destruct (m st) as [[a | e] st']; simpl in Hm; [now apply Hk | exact Hm].
Qed.

Lemma keeps_try_catch {A} (m : M A) (h : string -> M A) :
  keeps_well_formed m -> (forall e, keeps_well_formed (h e)) ->
  keeps_well_formed (try_catch m h).
Proof.
  intros Hm Hh st H. unfold try_catch. specialize (Hm st H).
  destruct (m st) as [[a | e] st']; simpl in Hm; [exact Hm | now apply Hh].
Qed.

Lemma keeps_console_error (msg : string) : keeps_well_formed (console_error msg).
Proof. intros st H. exact H. Qed.

Lemma keeps_res_status (code : Z) : keeps_well_formed (res_status code).
Proof. intros st H. exact H. Qed.

Lemma keeps_express_write (s : string) : keeps_well_formed (express_write s).
Proof. intros st H. unfold express_write. now destruct (delivered (res st)). Qed.

Lemma keeps_destructure (b : jsval) : keeps_well_formed (destructure b).
Proof. destruct b; simpl; (apply keeps_ret || apply keeps_throw). Qed.

Lemma keeps_store_call {A} (op : World -> outcome A * World) :
  (forall w, well_formed w -> well_formed (snd (op w))) ->
  keeps_well_formed (store_call op).
Proof.
  intros Hop st H. unfold store_call.
  destruct (faults (world st)) as [| [|] fs].
  - specialize (Hop (world st) H). now destruct (op (world st)).
  - exact H.
  - specialize (Hop (with_faults (world st) fs) H).
    now destruct (op (with_faults (world st) fs)).
Qed.

Ltac found_in H :=
  let Hthere := fresh "Hthere" in
  let Hsame := fresh "Hsame" in
  apply find_some in H; destruct H as [Hthere Hsame]; apply Z.eqb_eq in Hsame.

Ltac found :=
  repeat match goal with
         | H : find_patient _ _ = Some _ |- _ => unfold find_patient in H; found_in H
         | H : find_encounter _ _ = Some _ |- _ => unfold find_encounter in H; found_in H
         | H : find_user _ _ = Some _ |- _ => unfold find_user in H; found_in H
         end.

Ltac keeps_op :=
  apply keeps_store_call; intros w H; unfold invalid;
  repeat break_match; simpl; try exact H.

Lemma keeps_auditLog_create (r : UserRole) (a e : string) (v : jsval) :
  keeps_well_formed (prisma_auditLog_create r a e v).
Proof.
  keeps_op. destruct H as (Hp & He & Hpr & Ha & Hf1 & Hf2).
  unfold well_formed. simpl. rewrite map_app. simpl.
  do 3 (split; [assumption |]). split; [apply (ids_fresh_next Ha) |].
  split; assumption.
Qed.

Lemma keeps_patient_create (n : jsval) (d : option Z) (g ph : jsval) :
  keeps_well_formed (prisma_patient_create n d g ph).
Proof.
  keeps_op. destruct H as (Hp & He & Hpr & Ha & Hf1 & Hf2).
  unfold well_formed. simpl. rewrite map_app. simpl.
  split; [apply (ids_fresh_next Hp) |]. do 3 (split; [assumption |]).
  split; [| exact Hf2].
  intros e' He'. destruct (Hf1 e' He') as (p & Hin & Hid).
  exists p. split; [apply in_or_app; now left | exact Hid].
Qed.

Lemma keeps_encounter_create (pid : jsnum) (cr n : jsval) :
  keeps_well_formed (prisma_encounter_create pid cr n).
Proof.
  keeps_op. destruct H as (Hp & He & Hpr & Ha & Hf1 & Hf2). found.
  unfold well_formed. simpl. rewrite map_app. simpl.
  split; [assumption |]. split; [apply (ids_fresh_next He) |].
  do 2 (split; [assumption |]). split.
  - intros e' He'. apply in_app_or in He'. destruct He' as [He' | [<- | []]].
    + now apply Hf1.
    + eexists. split; [eassumption | simpl; assumption].
  - intros p' Hp'. destruct (Hf2 p' Hp') as [(e' & Hin & Hid') Hu].
    split; [| exact Hu]. exists e'. split; [apply in_or_app; now left | exact Hid'].
Qed.

Lemma keeps_prescription_create (eid : jsnum) (a b c d : jsval) (by_ : Z) :
  keeps_well_formed (prisma_prescription_create eid a b c d by_).
Proof.
  keeps_op. destruct H as (Hp & He & Hpr & Ha & Hf1 & Hf2). found.
  unfold well_formed. simpl. rewrite map_app. simpl.
  do 2 (split; [assumption |]). split; [apply (ids_fresh_next Hpr) |].
  split; [assumption |]. split; [exact Hf1 |].
  intros p' Hp'. apply in_app_or in Hp'. destruct Hp' as [Hp' | [<- | []]].
  - now apply Hf2.
  - split; eexists; (split; [eassumption | simpl; assumption]).
Qed.

Ltac keeps_read := keeps_op.

Lemma keeps_patient_findUnique (id : jsnum) :
  keeps_well_formed (prisma_patient_findUnique id).
Proof. keeps_read. Qed.

Lemma keeps_encounter_findUnique (id : jsnum) :
  keeps_well_formed (prisma_encounter_findUnique id).
Proof. keeps_read. Qed.

Lemma keeps_patient_findMany (s : option string) :
  keeps_well_formed (prisma_patient_findMany s).
Proof. keeps_read. Qed.

Lemma keeps_encounter_findMany (pid : jsnum) :
  keeps_well_formed (prisma_encounter_findMany pid).
Proof. keeps_read. Qed.

Lemma keeps_auditLog_findMany : keeps_well_formed prisma_auditLog_findMany.
Proof. keeps_read. Qed.

Lemma keeps_prescribed (pc : Prescription.t * option User.t) :
  keeps_well_formed (prescribed pc).
Proof.
  unfold prescribed. destruct (snd pc); [apply keeps_ret | apply keeps_throw].
Qed.

Lemma keeps_map_M {A B} (f : A -> M B) (l : list A) :
  (forall a, keeps_well_formed (f a)) -> keeps_well_formed (map_M f l).
Proof.
  intros Hf. induction l as [| x l IH]; simpl.
  - apply keeps_ret.
  - apply keeps_bind; [apply Hf |]. intros y.
    apply keeps_bind; [exact IH |]. intros ys. apply keeps_ret.
Qed.

Create HintDb keeps.

#[local] Hint Resolve keeps_ret keeps_throw keeps_get keeps_console_error keeps_res_status
  keeps_express_write keeps_destructure keeps_auditLog_create keeps_patient_create
  keeps_encounter_create keeps_prescription_create keeps_patient_findUnique
  keeps_encounter_findUnique keeps_patient_findMany keeps_encounter_findMany
  keeps_auditLog_findMany keeps_prescribed keeps_map_M : keeps.

Ltac keeps_steps :=
  repeat first
    [ now auto with keeps
    | apply keeps_bind; [| intros ? ]
    | apply keeps_try_catch; [| intros ? ]
    | match goal with
      | |- keeps_well_formed (match ?x with _ => _ end) => destruct x
      | |- keeps_well_formed (if ?x then _ else _) => destruct x
      end ].

Lemma keeps_audit_record (action entityType : string) (data : jsval) :
  keeps_well_formed (audit_record R action entityType data).
Proof. unfold audit_record, parse_data. keeps_steps. Qed.

Lemma keeps_send_through (ws : list (string * string)) (data : jsval) (original : M unit) :
  keeps_well_formed original -> keeps_well_formed (send_through R ws data original).
Proof.
  intros Ho. induction ws as [| [a e] ws IH]; simpl; [exact Ho |].
  unfold auditLog_send. apply keeps_bind; [apply keeps_audit_record | intros _; exact IH].
Qed.

Lemma keeps_res_json (body : jsval) : keeps_well_formed (res_json R body).
Proof.
  unfold res_json. apply keeps_bind; [apply keeps_get | intros st].
  apply keeps_send_through, keeps_express_write.
Qed.

Lemma keeps_respond (code : Z) (body : jsval) : keeps_well_formed (respond R code body).
Proof.
  unfold respond. apply keeps_bind; [apply keeps_res_status | intros _].
  apply keeps_res_json.
Qed.

#[local] Hint Resolve keeps_res_json keeps_respond : keeps.

Lemma keeps_handler (rt : Route) : keeps_well_formed (handler R rt).
Proof.
  destruct rt; cbn [handler];
    unfold post_patients, get_patients, get_patient, post_encounters,
      post_prescriptions, get_patient_records, get_audit_logs, handler_try;
    keeps_steps.
Qed.

Lemma keeps_authenticateToken (next : M unit) :
  keeps_well_formed next -> keeps_well_formed (authenticateToken R next).
Proof.
  intros Hn. unfold authenticateToken, set_user. keeps_steps.
Qed.

Lemma keeps_requireRole (roles : list UserRole) (next : M unit) :
  keeps_well_formed next -> keeps_well_formed (requireRole R roles next).
Proof. intros Hn. unfold requireRole. keeps_steps. Qed.

Lemma keeps_validate (schema : JoiSchema) (next : M unit) :
  keeps_well_formed next -> keeps_well_formed (validate R schema next).
Proof. intros Hn. unfold validate. keeps_steps. Qed.

Lemma keeps_auditLog (action entityType : string) (next : M unit) :
  keeps_well_formed next -> keeps_well_formed (auditLog action entityType next).
Proof.
  intros Hn. unfold auditLog. apply keeps_bind; [| intros _; exact Hn].
  intros st H. exact H.
Qed.

(** X18: serving a request keeps the store well formed, whatever the route,
    the request and the faults of the store: in every table the ids stay
    all different and below the table's sequence, every encounter stays the
    encounter of a patient of the store, and every prescription stays with
    an encounter and a creator of the store. *)
Theorem serving_keeps_the_store_well_formed (rt : Route) (rq : Request) (w : World) :
  well_formed w -> well_formed (world (snd (serve R rt rq w))).
Proof.
  intros H. unfold serve.
  assert (Hh : forall rt', keeps_well_formed (handler R rt')) by apply keeps_handler.
  assert (K : keeps_well_formed (route R rt)).
  { destruct rt; unfold route, chain;
      repeat first [ apply keeps_authenticateToken | apply keeps_requireRole
                   | apply keeps_validate | apply keeps_auditLog ].
    - exact (Hh POST_patients).
    - exact (Hh GET_patients).
    - exact (Hh GET_patient).
    - exact (Hh POST_encounters).
    - exact (Hh POST_prescriptions).
    - exact (Hh GET_patient_records).
    - exact (Hh GET_audit_logs). }
  exact (K (mkSt w rq fresh_response) H).
Qed.

End WellFormed.

(** ** The session endpoints *)

Section SessionEndpoints.

Variable R : Runtime.
Variable P : AuthPlatform.

Lemma liftX_runs {A} (m : M A) (x : Exchange) (o : outcome A) (st' : St) :
  m (exchange_st x) = (o, st') ->
  liftX m x = (o, mkExchange st' (accounts x) (cookie_ops x)).
Proof. intros H. unfold liftX. now rewrite H. Qed.

Lemma bindX_returned {A B} (m : MX A) (k : A -> MX B) (x x' : Exchange) (a : A) :
  m x = (Returned a, x') -> bindX m k x = k a x'.
Proof. intros H. unfold bindX. now rewrite H. Qed.

Lemma bindX_thrown {A B} (m : MX A) (k : A -> MX B) (x x' : Exchange) (e : string) :
  m x = (Thrown e, x') -> bindX m k x = (Thrown e, x').
Proof. intros H. unfold bindX. now rewrite H. Qed.

(** An answer of a session endpoint on a response not yet sent: no recorder
    is installed on these routes. *)
Lemma answerX (code : Z) (body : jsval) (x : Exchange) :
  send_wrappers (res (exchange_st x)) = [] ->
  delivered (res (exchange_st x)) = [] ->
  liftX (respond R code body) x
  = (Returned tt,
     mkExchange (answered R code body (exchange_st x)) (accounts x) (cookie_ops x)).
Proof.
  intros Hw Hd. apply liftX_runs. now apply respond_plain.
Qed.

Lemma user_lookup (n : string) (x : Exchange) :
  hd false (faults (world (exchange_st x))) = false ->
  prisma_user_findUnique (JString n) x
  = (Returned (find (fun a => String.eqb (Account.username a) n) (accounts x)),
     mkExchange (set_world (exchange_st x) (called (world (exchange_st x))))
                (accounts x) (cookie_ops x)).
Proof.
  intros Hf. unfold prisma_user_findUnique.
  erewrite bindX_returned
    by (apply liftX_runs; rewrite store_call_runs by exact Hf; reflexivity).
  reflexivity.
Qed.

(** X19: GET /api/auth/me sends back the payload the cookie verifies to, as
    the cookie carries it: the answer is 200 with the id, username and role
    of the payload followed by its other claims, and the store is neither
    consulted nor changed, so the same cookie gets the same answer on any
    store (an account removed since is shown all the same).  Without the
    cookie the answer is 401, and [getMe] on its own, should no identity be
    attached, answers 401 too. *)
Theorem me_shows_the_cookie_identity (rq : Request) (w : World) :
  (forall t u, cookies_token rq = Some t -> t <> "" -> jwt_verify R t = Some u ->
     route_me R (mkSt w rq fresh_response)
     = (Returned tt,
        answered R 200
          (JObject [("user",
                     JObject ([("id", JNumber (Num (User.id u)));
                               ("username", JString (User.username u));
                               ("role", JString (UserRole_to_string (User.role u)))]
                              ++ Payload.claims u))])
          (mkSt w (req (admitted GET_patients rq w u)) fresh_response)))
  /\ (cookies_token rq = None \/ cookies_token rq = Some "" ->
      route_me R (mkSt w rq fresh_response)
      = (Returned tt,
         answered R 401 (error_body "Access token required")
           (mkSt w rq fresh_response)))
  /\ (user rq = None ->
      getMe R (mkSt w rq fresh_response)
      = (Returned tt,
         answered R 401 (error_body "Not authenticated") (mkSt w rq fresh_response))).
Proof.
  split; [| split].
  - intros t u Ht Hne Hv. apply String.eqb_neq in Hne.
    unfold route_me, chain.
    erewrite authenticateToken_verified by (cbn [req]; eassumption).
    unfold getMe. erewrite bind_returned by reflexivity.
    cbn [req set_req user].
    rewrite res_json_respond, respond_plain by reflexivity. reflexivity.
  - intros H.
    assert (Ht : truthy (of_opt_string (cookies_token rq)) = false)
      by (destruct H as [-> | ->]; reflexivity).
    unfold route_me, chain. rewrite authenticateToken_missing by exact Ht.
    apply respond_error; (lia || reflexivity).
  - intros Hu. unfold getMe. erewrite bind_returned by reflexivity.
    cbn [req]. rewrite Hu. apply respond_error; (lia || reflexivity).
Qed.

(** X20: POST /api/auth/login turns an incomplete request down before it
    looks anything up: a body the login schema rejects is answered 400 with
    the joined messages, and [login] itself answers 400 "Username and
    password required" to a body whose username or password is missing or
    empty; no cookie is set and the store is not consulted. *)
Theorem login_needs_both_fields (rq : Request) (w : World) (accts : list Account.t) :
  (Joi_validate R loginSchema (body rq) <> [] ->
   serveX (route_login R P) rq w accts
   = (Returned tt,
      mkExchange
        (answered R 400
           (error_body (String.concat ", " (Joi_validate R loginSchema (body rq))))
           (mkSt w rq fresh_response))
        accts []))
  /\ (forall fields,
        body rq = JObject fields ->
        truthy (opt_prop (body rq) "username") = false
        \/ truthy (opt_prop (body rq) "password") = false ->
        serveX (login R P) rq w accts
        = (Returned tt,
           mkExchange
             (answered R 400 (error_body "Username and password required")
                       (mkSt w rq fresh_response))
             accts [])).
Proof.
  split.
  - intros Hj. unfold serveX, route_login, validateX.
    erewrite bindX_returned by reflexivity. cbn [exchange_st req body].
    destruct (Joi_validate R loginSchema (body rq)) as [| m ms] eqn:E;
      [congruence |].
    now rewrite answerX.
  - intros fields Hb Hmiss. unfold serveX, login.
    erewrite bindX_returned by reflexivity. cbn [exchange_st req body].
    erewrite bindX_returned by (apply liftX_runs; rewrite Hb; reflexivity).
    rewrite <- Hb.
    replace (negb (truthy (opt_prop (body rq) "username"))
             || negb (truthy (opt_prop (body rq) "password"))) with true
      by (destruct Hmiss as [-> | ->]; simpl; now rewrite ?orb_true_r).
    now rewrite answerX.
Qed.

Lemma login_reaches_lookup (rq : Request) (w : World) (accts : list Account.t)
    (name password : string) :
  login_request R rq name password ->
  hd false (faults w) = false ->
  serveX (route_login R P) rq w accts
  = try_catchX
      (match find (fun a => String.eqb (Account.username a) name) accts with
       | None => liftX (respond R 401 (error_body "Invalid credentials"))
       | Some a =>
           bindX (compareSync P (JString password) (Account.password_hash a)) (fun ok =>
           if negb ok then liftX (respond R 401 (error_body "Invalid credentials"))
           else
             bindX (cookie_header
                      (SetCookie "token" (jwt_sign P (Account.identity a))
                                 (login_cookie P)))
                   (fun _ => liftX (res_json R (login_body (Account.identity a)))))
       end)
      (fun _ =>
         bindX (liftX (console_error "Login error:")) (fun _ =>
         liftX (respond R 500 (error_body "Internal server error"))))
      (mkExchange (mkSt (called w) rq fresh_response) accts []).
Proof.
  intros (Hj & [fields Hb] & Hn & Hp & Hne & Hpe) Hf.
  apply String.eqb_neq in Hne. apply String.eqb_neq in Hpe.
  unfold serveX, route_login, validateX.
  erewrite bindX_returned by reflexivity. cbn [exchange_st req body].
  rewrite Hj. unfold login.
  erewrite bindX_returned by reflexivity. cbn [exchange_st req body].
  erewrite bindX_returned by (apply liftX_runs; rewrite Hb; reflexivity).
  rewrite <- Hb, Hn, Hp. cbn [truthy]. rewrite Hne, Hpe. cbn [negb orb].
  unfold try_catchX at 1.
  erewrite bindX_returned by (apply user_lookup; exact Hf).
  reflexivity.
Qed.

(** X21: a login with an unknown username and a login with a known username
    and a password that does not match its hash get one and the same
    answer, 401 "Invalid credentials", and no cookie is set in either case;
    the store only loses the fault flag of the lookup. *)
Theorem login_refuses_bad_credentials (rq : Request) (w : World)
    (accts : list Account.t) (name password : string) :
  login_request R rq name password ->
  hd false (faults w) = false ->
  (forall a, In a accts -> Account.username a = name ->
             bcrypt_compareSync P password (Account.password_hash a) = false) ->
  serveX (route_login R P) rq w accts
  = (Returned tt,
     mkExchange
       (answered R 401 (error_body "Invalid credentials")
                 (mkSt (called w) rq fresh_response))
       accts []).
Proof.
  intros Hrq Hf Hbad.
  rewrite (@login_reaches_lookup rq w accts name password Hrq Hf). unfold try_catchX.
  destruct (find (fun a => String.eqb (Account.username a) name) accts) as [a |] eqn:E.
  - apply find_some in E. destruct E as [Hin Hname]. apply String.eqb_eq in Hname.
    unfold compareSync. unfold bindX at 1, retX.
    rewrite (Hbad a Hin Hname). cbn [negb].
    now rewrite answerX.
  - now rewrite answerX.
Qed.

Lemma login_succeeds (rq : Request) (w : World)
    (accts : list Account.t) (name password : string) (a : Account.t) :
  login_request R rq name password ->
  hd false (faults w) = false ->
  find (fun a => String.eqb (Account.username a) name) accts = Some a ->
  bcrypt_compareSync P password (Account.password_hash a) = true ->
  serveX (route_login R P) rq w accts
  = (Returned tt,
     mkExchange
       (answered R 200 (login_body (Account.identity a))
                 (mkSt (called w) rq fresh_response))
       accts
       [SetCookie "token" (jwt_sign P (Account.identity a)) (login_cookie P)]).
Proof.
  intros Hrq Hf Hfound Hok.
  rewrite (@login_reaches_lookup rq w accts name password Hrq Hf). unfold try_catchX.
  rewrite Hfound. unfold compareSync. unfold bindX at 1, retX.
  rewrite Hok. cbn [negb].
  unfold bindX at 1, cookie_header. cbn [exchange_st accounts cookie_ops app].
  erewrite liftX_runs
    by (rewrite res_json_respond, respond_plain by reflexivity; reflexivity).
  reflexivity.
Qed.

(** X22: a login with the username of an account and a password that
    matches its hash sets exactly one cookie, named token, HttpOnly, valid
    24 hours, secure and cross-site only in production, whose value is the
    token signed for the account's id, username and role; it is answered
    200 with that identity and without the hash, and the store only loses
    the fault flag of the lookup. *)
Theorem login_sets_the_token_cookie (rq : Request) (w : World)
    (accts : list Account.t) (name password : string) (a : Account.t) :
  login_request R rq name password ->
  hd false (faults w) = false ->
  find (fun a => String.eqb (Account.username a) name) accts = Some a ->
  bcrypt_compareSync P password (Account.password_hash a) = true ->
  serveX (route_login R P) rq w accts
  = (Returned tt,
     mkExchange
       (answered R 200
          (JObject [("message", JString "Login successful");
                    ("user", JObject [("id", JNumber (Num (Account.id a)));
                                      ("username", JString (Account.username a));
                                      ("role", JString (UserRole_to_string (Account.role a)))])])
          (mkSt (called w) rq fresh_response))
       accts
       [SetCookie "token"
          (jwt_sign P (User.mk (Account.id a) (Account.username a) (Account.role a)))
          (mkCookieOptions true (production P)
                           (if production P then "none" else "lax")
                           (Some 86400000) None)]).
Proof.
  intros Hrq Hf Hfound Hok.
  rewrite (@login_succeeds rq w accts name password a Hrq Hf Hfound Hok).
  reflexivity.
Qed.

(** X23: the cookie a login sets is the credential of the session: where
    the verifier decodes what the signer signed (the id, username and role
    of the account, with whatever claims the signer added), any later
    request that carries the value of the cookie set by a successful login
    passes the session middleware as the account that logged in, and GET
    /api/auth/me answers 200 with the id, username and role of that account
    followed by the other claims of the token, whatever the store holds by
    then. *)
Theorem login_cookie_opens_the_session (rq : Request) (w : World)
    (accts : list Account.t) (name password : string) (a : Account.t)
    (decoded : Payload.t) :
  login_request R rq name password ->
  hd false (faults w) = false ->
  find (fun a => String.eqb (Account.username a) name) accts = Some a ->
  bcrypt_compareSync P password (Account.password_hash a) = true ->
  jwt_verify R (jwt_sign P (Account.identity a)) = Some decoded ->
  Payload.identity decoded = Account.identity a ->
  jwt_sign P (Account.identity a) <> "" ->
  exists token options,
    cookie_ops (snd (serveX (route_login R P) rq w accts))
    = [SetCookie "token" token options]
    /\ forall rq' w',
         cookies_token rq' = Some token ->
         route_me R (mkSt w' rq' fresh_response)
         = (Returned tt,
            answered R 200
              (JObject [("user",
                         JObject ([("id", JNumber (Num (Account.id a)));
                                   ("username", JString (Account.username a));
                                   ("role", JString (UserRole_to_string (Account.role a)))]
                                  ++ Payload.claims decoded))])
              (mkSt w' (req (admitted GET_patients rq' w' decoded)) fresh_response)).
Proof.
  intros Hrq Hf Hfound Hok Hv Hid Hne.
  exists (jwt_sign P (Account.identity a)), (login_cookie P). split.
  - now rewrite (@login_succeeds rq w accts name password a Hrq Hf Hfound Hok).
  - intros rq' w' Hc. apply String.eqb_neq in Hne.
    unfold route_me, chain.
    erewrite authenticateToken_verified by (cbn [req]; eassumption).
    unfold getMe. erewrite bind_returned by reflexivity.
    cbn [req set_req user].
    rewrite res_json_respond, respond_plain by reflexivity.
    unfold Payload.to_js. rewrite Hid. reflexivity.
Qed.

(** X24: a login whose account lookup fails is answered 500 "Internal
    server error": the failure is logged to the console, no cookie is set,
    and nothing of the failure reaches the client. *)
Theorem login_store_failure_is_a_500 (rq : Request) (w : World)
    (accts : list Account.t) (name password : string) :
  login_request R rq name password ->
  hd false (faults w) = true ->
  serveX (route_login R P) rq w accts
  = (Returned tt,
     mkExchange
       (answered R 500 (error_body "Internal server error")
          (mkSt (with_console (called w) (console (called w) ++ ["Login error:"]))
                rq fresh_response))
       accts []).
Proof.
  intros (Hj & [fields Hb] & Hn & Hp & Hne & Hpe) Hf.
  apply String.eqb_neq in Hne. apply String.eqb_neq in Hpe.
  unfold serveX, route_login, validateX.
  erewrite bindX_returned by reflexivity. cbn [exchange_st req body].
  rewrite Hj. unfold login.
  erewrite bindX_returned by reflexivity. cbn [exchange_st req body].
  erewrite bindX_returned by (apply liftX_runs; rewrite Hb; reflexivity).
  rewrite <- Hb, Hn, Hp. cbn [truthy]. rewrite Hne, Hpe. cbn [negb orb].
  unfold try_catchX at 1.
  erewrite bindX_thrown
    by (unfold prisma_user_findUnique; eapply bindX_thrown; apply liftX_runs;
        rewrite store_call_fault by exact Hf; reflexivity).
  erewrite bindX_returned by (apply liftX_runs; reflexivity).
  cbn [exchange_st accounts cookie_ops world set_world].
  now rewrite answerX.
Qed.

End SessionEndpoints.

(** ** Examples on the demonstration platform *)

Module Examples.

Import Demo.

(** C1, counterexample: a doctor lists the patients; the answer is 200 and
    the audit trail is as it was. *)
Lemma list_route_leaves_no_record :
  (exists text,
      delivered (res (snd (serve platform GET_patients
                             (request (Some "doctor.jwt") None None JUndefined) clinic)))
      = [(200, text)])
  /\ auditLogs (world (snd (serve platform GET_patients
                             (request (Some "doctor.jwt") None None JUndefined) clinic)))
     = auditLogs clinic
  /\ ~ one_record_as_stated platform GET_patients
         (request (Some "doctor.jwt") None None JUndefined) clinic.
Proof.
  split; [eexists; vm_compute; reflexivity |]. split; [reflexivity |].
  intros H.
  destruct (H 200 (JSON_stringify (JArray (map Patient.to_js [john; jane]))))
    as (u & row & _ & Hrow & _).
  - vm_compute. reflexivity.
  - lia.
  - vm_compute in Hrow. discriminate.
Qed.

(** C3, counterexample: the cookie is there, empty; it would not verify,
    and the answer is 401, not 403. *)
Lemma empty_cookie_is_401 :
  jwt_verify "" = None
  /\ statusCode (res (snd (authenticateToken platform (ret tt)
                             (mkSt clinic (request (Some "") None None JUndefined)
                                   fresh_response))))
     = 401
  /\ ~ session_as_stated platform (ret tt)
         (mkSt clinic (request (Some "") None None JUndefined) fresh_response).
Proof.
  split; [reflexivity |]. split; [reflexivity |].
  intros (_ & H & _).
  specialize (H "" eq_refl eq_refl).
  vm_compute in H. discriminate.
Qed.

(** C4, counterexample: status 200 and an identity attached, yet nothing is
    persisted, once because the body is no JSON text, once because the
    store rejects the write. *)
Lemma success_without_record :
  (auditLogs (world (snd (audit_record platform "READ" "patient" (JString "OK")
                                       (reading (Some "1") clinic))))
   = []
   /\ ~ persisted_as_stated platform "READ" "patient" (JString "OK")
          (reading (Some "1") clinic))
  /\ (auditLogs (world (snd (audit_record platform "READ" "patient" (JString jane_text)
                                          (reading (Some "1") failing))))
      = []
      /\ ~ persisted_as_stated platform "READ" "patient" (JString jane_text)
             (reading (Some "1") failing)).
Proof.
  split; (split; [reflexivity |]); intros [_ H];
    (destruct H as [row Hrow];
     [ split; [simpl; lia | discriminate]
     | vm_compute in Hrow; discriminate ]).
Qed.

(** C5, counterexample: the path parameter is "0"; the record carries a
    null entity_id, not the integer 0. *)
Lemma path_id_zero_recorded_null :
  auditLogs (world (snd (audit_record platform "READ" "patient" (JString jane_text)
                                      (reading (Some "0") clinic))))
  = [AuditLog.mk 1 doctor "READ" "patient" None 3000]
  /\ (forall v, stated_entity_id platform (req (reading (Some "0") clinic)) v = Some 0)
  /\ ~ entity_id_as_stated platform "READ" "patient" (JString jane_text)
         (reading (Some "0") clinic).
Proof.
  split; [vm_compute; reflexivity |]. split; [reflexivity |].
  intros H.
  match eval vm_compute in (JSON_parse jane_text) with
  | Some ?v => specialize (H dr_smith v)
  end.
  assert (E : auditLogs (world (snd (audit_record platform "READ" "patient"
                                       (JString jane_text) (reading (Some "0") clinic))))
              = [AuditLog.mk 1 doctor "READ" "patient" None 3000])
    by (vm_compute; reflexivity).
  rewrite E in H. clear E.
  assert (H' : [AuditLog.mk 1 doctor "READ" "patient" None 3000]
               = [AuditLog.mk 1 doctor "READ" "patient" (Some 0) 3000]).
  { apply H.
    - simpl; lia.
    - reflexivity.
    - vm_compute; reflexivity.
    - intros Ht. vm_compute in Ht. discriminate.
    - reflexivity. }
  discriminate.
Qed.

(** C6, counterexample: the handler writes twice; two records. *)
Lemma two_writes_two_records :
  List.length
    (auditLogs (world (snd (writes platform [Patient.to_js jane; Patient.to_js jane]
                                   (reading (Some "1") clinic)))))
  = 2%nat
  /\ ~ recorded_once_as_stated platform "READ" "patient"
         [Patient.to_js jane; Patient.to_js jane] (reading (Some "1") clinic).
Proof.
  split; [vm_compute; reflexivity |].
  intros H.
  assert (H' : List.length
                 (auditLogs (world (snd (writes platform
                                           [Patient.to_js jane; Patient.to_js jane]
                                           (reading (Some "1") clinic)))))
               = 1%nat).
  { apply H; [discriminate |].
    split; [reflexivity |]. split; [simpl; lia |]. split; [discriminate |].
    split; [reflexivity |].
    intros b [<- | [<- | []]]; eexists _, _; split; vm_compute; reflexivity. }
  vm_compute in H'. discriminate.
Qed.

(** C8, counterexample: Jane's phone is 555-CALL; the search for "call"
    does not return her. *)
Lemma phone_search_minds_case :
  patient_rows (Some "call") clinic = []
  /\ matches_insensitive "call" jane
  /\ ~ search_as_stated "call" clinic.
Proof.
  assert (Hm : matches_insensitive "call" jane).
  { right. exists "555-CALL". split; [reflexivity |].
    exists "555-", "". reflexivity. }
  split; [reflexivity |]. split; [exact Hm |].
  intros (H & _ & _).
  assert (Hin : In jane (patient_rows (Some "call") clinic)).
  { apply H. split; [now left | exact Hm]. }
  vm_compute in Hin. exact Hin.
Qed.

Lemma doctor_authorized (rt : Route) (id search : option string) (b : jsval) :
  In doctor (allowed_roles rt) ->
  match schema_of rt with
  | Some schema => Joi_validate schema b = []
  | None => True
  end ->
  authorized platform rt (request (Some "doctor.jwt") id search b) dr_smith.
Proof.
  intros Hin Hs. exists "doctor.jwt".
  split; [reflexivity |]. split; [discriminate |]. split; [reflexivity |].
  split; [exact Hin | exact Hs].
Defined.

(** C1, witness: a doctor reads patient 1. *)
Lemma audited_routes_record_once_witness :
  exists u row,
    authorized platform GET_patient (request (Some "doctor.jwt") (Some "1") None JUndefined) u
    /\ user (req (snd (serve platform GET_patient
                         (request (Some "doctor.jwt") (Some "1") None JUndefined) clinic)))
       = Some u
    /\ auditLogs (world (snd (serve platform GET_patient
                                (request (Some "doctor.jwt") (Some "1") None JUndefined)
                                clinic)))
       = auditLogs clinic ++ [row]
    /\ AuditLog.user_role row = User.role u
    /\ AuditLog.action row = "READ"
    /\ AuditLog.entity_type row = "patient".
Proof.
  eapply (proj1 (audited_routes_record_once platform GET_patient
                   (request (Some "doctor.jwt") (Some "1") None JUndefined) clinic)).
  - reflexivity.
  - vm_compute. reflexivity.
  - simpl; lia.
  - vm_compute. reflexivity.
Defined.

(** C2, witness: the prescription gate lets the doctor through and turns
    the nurse down. *)
Lemma requireRole_gate_witness :
  requireRole platform [doctor] (ret tt)
    (mkSt clinic (mkRequest None None None JUndefined (Some dr_smith)) fresh_response)
  = ret tt (mkSt clinic (mkRequest None None None JUndefined (Some dr_smith)) fresh_response)
  /\ requireRole platform [doctor] (ret tt)
       (mkSt clinic (mkRequest None None None JUndefined (Some nurse_jane)) fresh_response)
     = (Returned tt,
        answered platform 403 (error_body "Insufficient permissions")
          (mkSt clinic (mkRequest None None None JUndefined (Some nurse_jane))
                fresh_response))
  /\ requireRole platform [doctor] (ret tt)
       (mkSt clinic (mkRequest None None None JUndefined None) fresh_response)
     = respond platform 403 (error_body "Insufficient permissions")
         (mkSt clinic (mkRequest None None None JUndefined None) fresh_response).
Proof.
  split; [| split].
  - apply (proj1 (requireRole_gate platform [doctor] (ret tt) _)) with (u := dr_smith);
      [reflexivity | now left].
  - apply (proj1 (proj2 (requireRole_gate platform [doctor] (ret tt) _))).
    + intros u Hu [Hd | []]. inversion Hu. subst u. discriminate.
    + reflexivity.
  - apply (proj2 (proj2 (requireRole_gate platform [doctor] (ret tt) _))).
    reflexivity.
Defined.

(** C3, witness: no cookie, a forged cookie, the nurse's cookie. *)
Lemma authenticateToken_cases_witness :
  authenticateToken platform (ret tt)
    (mkSt clinic (request None None None JUndefined) fresh_response)
  = (Returned tt,
     answered platform 401 (error_body "Access token required")
       (mkSt clinic (request None None None JUndefined) fresh_response))
  /\ authenticateToken platform (ret tt)
       (mkSt clinic (request (Some "forged") None None JUndefined) fresh_response)
     = (Returned tt,
        answered platform 403 (error_body "Invalid token")
          (mkSt clinic (request (Some "forged") None None JUndefined) fresh_response))
  /\ authenticateToken platform (ret tt)
       (mkSt clinic (request (Some "nurse.jwt") None None JUndefined) fresh_response)
     = ret tt (attach (mkSt clinic (request (Some "nurse.jwt") None None JUndefined)
                            fresh_response)
                      nurse_jane).
Proof.
  split; [| split].
  - apply (proj1 (authenticateToken_cases platform (ret tt) _));
      [left; reflexivity | reflexivity].
  - apply (proj1 (proj2 (authenticateToken_cases platform (ret tt) _)) "forged");
      [reflexivity | discriminate | reflexivity | reflexivity].
  - apply (proj2 (proj2 (authenticateToken_cases platform (ret tt) _)) "nurse.jwt");
      [reflexivity | discriminate | reflexivity].
Defined.

(** C4, witness: the body parses, the store is up; the record is there. *)
Lemma audit_persisted_iff_witness :
  persisted (reading (Some "1") clinic)
    (snd (audit_record platform "READ" "patient" (JString jane_text)
                       (reading (Some "1") clinic))).
Proof.
  apply (proj1 (audit_persisted_iff platform "READ" "patient" (JString jane_text)
                  (reading (Some "1") clinic))).
  split; [simpl; lia |]. split; [discriminate |].
  eexists _, _. split; [vm_compute; reflexivity |].
  split; [vm_compute; reflexivity | reflexivity].
Defined.

(** C5, witness: a creation is answered with the id 3; no path parameter,
    the record takes the id from the text sent. *)
Lemma audit_entity_id_order_witness :
  exists row,
    auditLogs (world (snd (audit_record platform "CREATE" "patient"
                             (JString (JSON_stringify
                                         (created_body 3 "Patient created successfully")))
                             (creating patient_body clinic))))
    = auditLogs (world (creating patient_body clinic)) ++ [row]
    /\ AuditLog.user_role row = doctor
    /\ AuditLog.action row = "CREATE"
    /\ AuditLog.entity_type row = "patient"
    /\ AuditLog.entity_id row = Some 3.
Proof.
  apply (@audit_entity_id_order platform "CREATE" "patient"
           (JString (JSON_stringify (created_body 3 "Patient created successfully")))
           (creating patient_body clinic) dr_smith
           (created_body 3 "Patient created successfully")).
  - simpl; lia.
  - reflexivity.
  - vm_compute. reflexivity.
  - intros _ _. exists 3. reflexivity.
  - reflexivity.
Defined.

(** C6, witness: two writes. *)
Lemma recorded_once_per_write_witness :
  List.length
    (auditLogs (world (snd (writes platform [Patient.to_js jane; Patient.to_js john]
                                   (reading (Some "1") clinic)))))
  = (List.length (auditLogs (world (reading (Some "1") clinic))) + 2)%nat.
Proof.
  apply (@recorded_once_per_write platform "READ" "patient"
           [Patient.to_js jane; Patient.to_js john] (reading (Some "1") clinic)).
  split; [reflexivity |]. split; [simpl; lia |]. split; [discriminate |].
  split; [reflexivity |].
  intros b [<- | [<- | []]]; eexists _, _; split; vm_compute; reflexivity.
Defined.

(** C8, witness: the doctor searches for "555", which is in no name and
    in Jane's phone. *)
Lemma patient_search_rows_witness :
  (serve platform GET_patients (request (Some "doctor.jwt") None (Some "555") JUndefined)
         clinic
   = (Returned tt,
      answered platform 200 (JArray (map Patient.to_js (patient_rows (Some "555") clinic)))
        (set_world (admitted GET_patients
                      (request (Some "doctor.jwt") None (Some "555") JUndefined)
                      clinic dr_smith)
                   (called clinic)))
   /\ (List.length (patient_rows (Some "555") clinic) <= 50)%nat
   /\ newest_first Patient.created_at (patient_rows (Some "555") clinic)
   /\ (forall p, In p (patient_rows (Some "555") clinic) ->
                 In p (patients clinic) /\ matches "555" p)
   /\ exists rest others,
        Permutation (patients clinic) (patient_rows (Some "555") clinic ++ rest ++ others)
        /\ (forall p, In p rest -> matches "555" p)
        /\ (forall p, In p others -> ~ matches "555" p)
        /\ (forall a b, In a (patient_rows (Some "555") clinic) -> In b rest ->
                        Patient.created_at b <= Patient.created_at a)
        /\ ((List.length (patient_rows (Some "555") clinic ++ rest) <= 50)%nat ->
            rest = []))
  /\ patient_rows (Some "555") clinic = [jane].
Proof.
  split; [| reflexivity].
  apply (@patient_search_rows platform
           (request (Some "doctor.jwt") None (Some "555") JUndefined)
           clinic dr_smith "555").
  - apply doctor_authorized; [now left | exact I].
  - reflexivity.
  - discriminate.
  - reflexivity.
  - reflexivity.
Defined.



(** C10, witness: the path parameter is "0". *)
Lemma falsy_entity_id_is_null_witness :
  auditLogs (world (snd (audit_record platform "READ" "patient" (JObject [])
                                      (reading (Some "0") clinic))))
  = auditLogs (world (reading (Some "0") clinic))
    ++ [audit_row (world (reading (Some "0") clinic)) dr_smith "READ" "patient" None].
Proof.
  apply (proj1 (falsy_entity_id_is_null platform "READ" "patient" (JObject [])
                  (reading (Some "0") clinic)) dr_smith (JObject [])).
  - simpl; lia.
  - reflexivity.
  - reflexivity.
  - reflexivity.
  - left. exists "0". split; [reflexivity |]. split; [discriminate |].
    left. reflexivity.
Defined.

Lemma admin_authorized (id search : option string) (b : jsval) :
  authorized platform GET_audit_logs (request (Some "admin.jwt") id search b)
             administrator.
Proof.
  exists "admin.jwt".
  split; [reflexivity |]. split; [discriminate |]. split; [reflexivity |].
  split; [now left | exact I].
Defined.

Lemma clinic_well_formed : well_formed clinic.
Proof.
  unfold well_formed, ids_fresh. simpl.
  repeat split;
    try (repeat constructor; simpl; try lia; intuition discriminate);
    intros ? [].
Defined.

(** X1, witness: an empty body against the patient schema. *)
Lemma validate_reports_every_violation_witness :
  validate platform patientSchema (ret tt)
    (mkSt clinic (request (Some "doctor.jwt") None None (JObject [])) fresh_response)
  = (Returned tt,
     answered platform 400
       (error_body (String.concat ", " (Joi_validate patientSchema (JObject []))))
       (mkSt clinic (request (Some "doctor.jwt") None None (JObject [])) fresh_response)).
Proof.
  apply (proj2 (@validate_reports_every_violation platform patientSchema (ret tt)
                  (mkSt clinic (request (Some "doctor.jwt") None None (JObject []))
                        fresh_response))).
  - vm_compute. discriminate.
  - reflexivity.
Defined.

(** X2, witness: no cookie, and a forged one, on the prescription route. *)
Lemma unauthenticated_request_is_turned_away_witness :
  serve platform POST_prescriptions (request None None None prescription_body) clinic
  = (Returned tt,
     answered platform 401 (error_body "Access token required")
       (mkSt clinic (request None None None prescription_body) fresh_response))
  /\ serve platform POST_prescriptions
           (request (Some "forged") None None prescription_body) clinic
     = (Returned tt,
        answered platform 403 (error_body "Invalid token")
          (mkSt clinic (request (Some "forged") None None prescription_body)
                fresh_response)).
Proof.
  split.
  - apply (proj1 (@unauthenticated_request_is_turned_away platform POST_prescriptions
                    (request None None None prescription_body) clinic)).
    left. reflexivity.
  - apply (proj2 (@unauthenticated_request_is_turned_away platform POST_prescriptions
                    (request (Some "forged") None None prescription_body) clinic)
                 "forged");
      [reflexivity | discriminate | reflexivity].
Defined.

(** X3, witness: the nurse prescribes. *)
Lemma role_outside_the_route_is_refused_witness :
  serve platform POST_prescriptions
        (request (Some "nurse.jwt") None None prescription_body) clinic
  = (Returned tt,
     answered platform 403 (error_body "Insufficient permissions")
       (mkSt clinic
             (req (admitted POST_prescriptions
                     (request (Some "nurse.jwt") None None prescription_body)
                     clinic nurse_jane))
             fresh_response)).
Proof.
  apply (@role_outside_the_route_is_refused platform POST_prescriptions
           (request (Some "nurse.jwt") None None prescription_body) clinic
           "nurse.jwt" nurse_jane).
  - reflexivity.
  - discriminate.
  - reflexivity.
  - intros [H | []]. discriminate H.
Defined.

(** X4, witness: the doctor posts a patient without any field. *)
Lemma invalid_body_is_refused_witness :
  serve platform POST_patients (request (Some "doctor.jwt") None None (JObject [])) clinic
  = (Returned tt,
     answered platform 400
       (error_body (String.concat ", " (Joi_validate patientSchema (JObject []))))
       (mkSt clinic
             (req (admitted POST_patients
                     (request (Some "doctor.jwt") None None (JObject [])) clinic dr_smith))
             fresh_response)).
Proof.
  apply (@invalid_body_is_refused platform POST_patients
           (request (Some "doctor.jwt") None None (JObject [])) clinic
           "doctor.jwt" dr_smith patientSchema).
  - reflexivity.
  - discriminate.
  - reflexivity.
  - now left.
  - reflexivity.
  - vm_compute. discriminate.
Defined.

(** X6, witness: the doctor lists the patients; the tables are as they were. *)
Lemma tables_change_only_with_201_witness :
  clinical (world (snd (serve platform GET_patients
                          (request (Some "doctor.jwt") None None JUndefined) clinic)))
  = clinical clinic.
Proof.
  apply (proj2 (@tables_change_only_with_201 platform GET_patients
                  (request (Some "doctor.jwt") None None JUndefined) clinic)).
  vm_compute. discriminate.
Defined.

(** X8, witness: a prescription for encounter 7; the clinic has none. *)
Lemma prescription_for_missing_encounter_witness :
  serve platform POST_prescriptions
        (request (Some "doctor.jwt") None None prescription_body) clinic
  = (Returned tt,
     answered platform 404 (error_body "Encounter not found")
       (set_world (admitted POST_prescriptions
                     (request (Some "doctor.jwt") None None prescription_body)
                     clinic dr_smith)
                  (called clinic))).
Proof.
  apply (@prescription_for_missing_encounter platform
           (request (Some "doctor.jwt") None None prescription_body) clinic dr_smith
           [("encounter_id", JNumber (Num 7)); ("drug_name", JString "Amoxicillin");
            ("dosage", JString "500mg"); ("frequency", JString "8h");
            ("duration", JString "7d")] 7).
  - apply doctor_authorized; [now left | reflexivity].
  - reflexivity.
  - reflexivity.
  - reflexivity.
  - intros e [].
  - reflexivity.
Defined.

(** X9, witness: the doctor asks for patient 99. *)
Lemma missing_patient_is_a_404_witness :
  serve platform GET_patient (request (Some "doctor.jwt") (Some "99") None JUndefined) clinic
  = (Returned tt,
     answered platform 404 (error_body "Patient not found")
       (set_world (admitted GET_patient
                     (request (Some "doctor.jwt") (Some "99") None JUndefined)
                     clinic dr_smith)
                  (called clinic))).
Proof.
  apply (@missing_patient_is_a_404 platform
           (request (Some "doctor.jwt") (Some "99") None JUndefined) clinic dr_smith 99).
  - apply doctor_authorized; [now left | exact I].
  - reflexivity.
  - reflexivity.
  - intros p [<- | [<- | []]]; discriminate.
  - reflexivity.
Defined.

(** X10, witness: the doctor asks for patient 1. *)
Lemma found_patient_is_returned_witness :
  fst (serve platform GET_patient
             (request (Some "doctor.jwt") (Some "1") None JUndefined) clinic)
  = Returned tt
  /\ delivered (res (snd (serve platform GET_patient
                            (request (Some "doctor.jwt") (Some "1") None JUndefined)
                            clinic)))
     = [(200, JSON_stringify (Patient.to_js jane))]
  /\ clinical (world (snd (serve platform GET_patient
                             (request (Some "doctor.jwt") (Some "1") None JUndefined)
                             clinic)))
     = clinical clinic
  /\ Patient.id jane = 1 /\ In jane (patients clinic).
Proof.
  apply (@found_patient_is_returned platform
           (request (Some "doctor.jwt") (Some "1") None JUndefined) clinic dr_smith 1 jane).
  - apply doctor_authorized; [now left | exact I].
  - reflexivity.
  - reflexivity.
  - reflexivity.
Defined.

(** X11, witness: the path is /api/patients/abc. *)
Lemma non_numeric_id_is_a_500_witness :
  exists e,
    serve platform GET_patient
          (request (Some "doctor.jwt") (Some "abc") None JUndefined) clinic
    = (Returned tt,
       caught platform e
         (set_world (admitted GET_patient
                       (request (Some "doctor.jwt") (Some "abc") None JUndefined)
                       clinic dr_smith)
                    (called clinic))).
Proof.
  apply (@non_numeric_id_is_a_500 platform GET_patient
           (request (Some "doctor.jwt") (Some "abc") None JUndefined) clinic dr_smith).
  - now left.
  - apply doctor_authorized; [now left | exact I].
  - reflexivity.
Defined.

(** X12, witness: the store rejects the listing of the patients. *)
Lemma store_failure_is_a_500_witness :
  exists e w',
    serve platform GET_patients (request (Some "doctor.jwt") None None JUndefined) failing
    = (Returned tt,
       caught platform e
         (set_world (admitted GET_patients
                       (request (Some "doctor.jwt") None None JUndefined)
                       failing dr_smith)
                    w'))
    /\ clinical w' = clinical failing
    /\ auditLogs w' = auditLogs failing
    /\ console w' = console failing.
Proof.
  apply (@store_failure_is_a_500 platform GET_patients
           (request (Some "doctor.jwt") None None JUndefined) failing dr_smith).
  - apply doctor_authorized; [now left | exact I].
  - reflexivity.
Defined.

Lemma patient_body_fields :
  patient_fields platform patient_body "Ann Poe" 946684800000 "other" None.
Proof.
  split; [eexists; reflexivity |]. repeat split; reflexivity.
Defined.

(** X13, witness: the doctor registers Ann Poe. *)
Lemma patient_is_created_witness :
  fst (serve platform POST_patients
             (request (Some "doctor.jwt") None None patient_body) clinic)
  = Returned tt
  /\ delivered (res (snd (serve platform POST_patients
                            (request (Some "doctor.jwt") None None patient_body) clinic)))
     = [(201, JSON_stringify (created_body (patient_seq clinic)
                                           "Patient created successfully"))]
  /\ patients (world (snd (serve platform POST_patients
                             (request (Some "doctor.jwt") None None patient_body) clinic)))
     = patients clinic ++ [new_patient clinic "Ann Poe" 946684800000 "other" None]
  /\ patient_seq (world (snd (serve platform POST_patients
                                (request (Some "doctor.jwt") None None patient_body)
                                clinic)))
     = patient_seq clinic + 1
  /\ encounters (world (snd (serve platform POST_patients
                               (request (Some "doctor.jwt") None None patient_body)
                               clinic)))
     = encounters clinic
  /\ prescriptions (world (snd (serve platform POST_patients
                                  (request (Some "doctor.jwt") None None patient_body)
                                  clinic)))
     = prescriptions clinic.
Proof.
  apply (@patient_is_created platform
           (request (Some "doctor.jwt") None None patient_body) clinic dr_smith
           "Ann Poe" 946684800000 "other" None).
  - apply doctor_authorized; [now left | reflexivity].
  - exact patient_body_fields.
  - reflexivity.
Defined.

(** X14, witness: Ann Poe is registered, then read as patient 3. *)
Lemma created_patient_is_read_back_witness :
  delivered (res (snd (serve platform GET_patient
                         (request (Some "doctor.jwt") (Some "3") None JUndefined)
                         (world (snd (serve platform POST_patients
                                        (request (Some "doctor.jwt") None None patient_body)
                                        clinic))))))
  = [(200, JSON_stringify
             (Patient.to_js (new_patient clinic "Ann Poe" 946684800000 "other" None)))].
Proof.
  apply (@created_patient_is_read_back platform
           (request (Some "doctor.jwt") None None patient_body)
           (request (Some "doctor.jwt") (Some "3") None JUndefined)
           clinic dr_smith dr_smith "Ann Poe" 946684800000 "other" None).
  - intros p [<- | [<- | []]]; reflexivity.
  - apply doctor_authorized; [now left | reflexivity].
  - exact patient_body_fields.
  - reflexivity.
  - apply doctor_authorized; [now left | exact I].
  - reflexivity.
  - vm_compute. reflexivity.
Defined.

(** X15, witness: the registration of Ann Poe is on the trail. *)
Lemma created_patient_is_audited_witness :
  auditLogs (world (snd (serve platform POST_patients
                           (request (Some "doctor.jwt") None None patient_body) clinic)))
  = auditLogs clinic ++ [AuditLog.mk 1 doctor "CREATE" "patient" (Some 3) 3000].
Proof.
  apply (@created_patient_is_audited platform
           (request (Some "doctor.jwt") None None patient_body) clinic dr_smith
           "Ann Poe" 946684800000 "other" None
           (created_body 3 "Patient created successfully")).
  - apply doctor_authorized; [now left | reflexivity].
  - exact patient_body_fields.
  - reflexivity.
  - discriminate.
  - reflexivity.
  - vm_compute. reflexivity.
  - reflexivity.
Defined.

(** X16, witness: the doctor lists the patients. *)
Lemma patient_listing_without_search_witness :
  serve platform GET_patients (request (Some "doctor.jwt") None None JUndefined) clinic
  = (Returned tt,
     answered platform 200 (JArray (map Patient.to_js (patient_rows None clinic)))
       (set_world (admitted GET_patients
                     (request (Some "doctor.jwt") None None JUndefined) clinic dr_smith)
                  (called clinic)))
  /\ (List.length (patient_rows None clinic) <= 50)%nat
  /\ newest_first Patient.created_at (patient_rows None clinic)
  /\ exists rest,
       Permutation (patients clinic) (patient_rows None clinic ++ rest)
       /\ (forall a b, In a (patient_rows None clinic) -> In b rest ->
                       Patient.created_at b <= Patient.created_at a)
       /\ ((List.length (patients clinic) <= 50)%nat -> rest = []).
Proof.
  apply (@patient_listing_without_search platform
           (request (Some "doctor.jwt") None None JUndefined) clinic dr_smith).
  - apply doctor_authorized; [now left | exact I].
  - now left.
  - reflexivity.
Defined.

(** X17, witness: the administrator reads the trail. *)
Lemma audit_log_listing_witness :
  exists rows,
    serve platform GET_audit_logs (request (Some "admin.jwt") None None JUndefined) clinic
    = (Returned tt,
       answered platform 200 (JArray (map AuditLog.to_js rows))
         (set_world (admitted GET_audit_logs
                       (request (Some "admin.jwt") None None JUndefined)
                       clinic administrator)
                    (called clinic)))
    /\ (List.length rows <= 100)%nat
    /\ newest_first AuditLog.timestamp rows
    /\ (exists rest,
          Permutation (auditLogs clinic) (rows ++ rest)
          /\ (forall a b, In a rows -> In b rest ->
                          AuditLog.timestamp b <= AuditLog.timestamp a)
          /\ ((List.length (auditLogs clinic) <= 100)%nat -> rest = []))
    /\ auditLogs (world (snd (serve platform GET_audit_logs
                                (request (Some "admin.jwt") None None JUndefined) clinic)))
       = auditLogs clinic.
Proof.
  apply (@audit_log_listing platform
           (request (Some "admin.jwt") None None JUndefined) clinic
           administrator).
  - apply admin_authorized.
  - reflexivity.
Defined.

(** X18, witness: the clinic stays well formed when Ann Poe is registered. *)
Lemma serving_keeps_the_store_well_formed_witness :
  well_formed (world (snd (serve platform POST_patients
                             (request (Some "doctor.jwt") None None patient_body) clinic))).
Proof.
  apply (@serving_keeps_the_store_well_formed platform POST_patients
           (request (Some "doctor.jwt") None None patient_body) clinic).
  exact clinic_well_formed.
Defined.

(** X19, witness: the doctor asks who they are, on an empty store as well. *)
Lemma me_shows_the_cookie_identity_witness :
  route_me platform
    (mkSt clinic (request (Some "doctor.jwt") None None JUndefined) fresh_response)
  = (Returned tt,
     answered platform 200
       (JObject [("user",
                  JObject [("id", JNumber (Num 1)); ("username", JString "dr_smith");
                           ("role", JString "doctor");
                           ("iat", JNumber (Num 1700000000));
                           ("exp", JNumber (Num 1700086400))])])
       (mkSt clinic
             (req (admitted GET_patients
                     (request (Some "doctor.jwt") None None JUndefined) clinic dr_smith))
             fresh_response))
  /\ route_me platform
       (mkSt clinic (request None None None JUndefined) fresh_response)
     = (Returned tt,
        answered platform 401 (error_body "Access token required")
          (mkSt clinic (request None None None JUndefined) fresh_response))
  /\ getMe platform
       (mkSt clinic (request None None None JUndefined) fresh_response)
     = (Returned tt,
        answered platform 401 (error_body "Not authenticated")
          (mkSt clinic (request None None None JUndefined) fresh_response)).
Proof.
  split; [| split].
  - apply (proj1 (@me_shows_the_cookie_identity platform
                    (request (Some "doctor.jwt") None None JUndefined) clinic)
                 "doctor.jwt" dr_smith);
      [reflexivity | discriminate | reflexivity].
  - apply (proj1 (proj2 (@me_shows_the_cookie_identity platform
                           (request None None None JUndefined) clinic))).
    now left.
  - apply (proj2 (proj2 (@me_shows_the_cookie_identity platform
                           (request None None None JUndefined) clinic))).
    reflexivity.
Defined.

(** X20, witness: a login without a password, at the route and at the
    handler. *)
Lemma login_needs_both_fields_witness :
  serveX (route_login platform DemoAuth.auth)
         (request None None None (DemoAuth.credentials "dr_smith" ""))
         clinic DemoAuth.seeded
  = (Returned tt,
     mkExchange
       (answered platform 400
          (error_body (String.concat ", "
                         (Joi_validate loginSchema (DemoAuth.credentials "dr_smith" ""))))
          (mkSt clinic (request None None None (DemoAuth.credentials "dr_smith" ""))
                fresh_response))
       DemoAuth.seeded [])
  /\ serveX (login platform DemoAuth.auth)
            (request None None None (DemoAuth.credentials "dr_smith" ""))
            clinic DemoAuth.seeded
     = (Returned tt,
        mkExchange
          (answered platform 400 (error_body "Username and password required")
             (mkSt clinic (request None None None (DemoAuth.credentials "dr_smith" ""))
                   fresh_response))
          DemoAuth.seeded []).
Proof.
  split.
  - apply (proj1 (@login_needs_both_fields platform DemoAuth.auth
                    (request None None None (DemoAuth.credentials "dr_smith" ""))
                    clinic DemoAuth.seeded)).
    vm_compute. discriminate.
  - apply (proj2 (@login_needs_both_fields platform DemoAuth.auth
                    (request None None None (DemoAuth.credentials "dr_smith" ""))
                    clinic DemoAuth.seeded)
                 [("username", JString "dr_smith"); ("password", JString "")]).
    + reflexivity.
    + now right.
Defined.

Lemma demo_login_request (name password : string) :
  name <> "" -> password <> "" ->
  login_request platform (request None None None (DemoAuth.credentials name password))
                name password.
Proof.
  intros Hn Hp. split.
  - unfold platform, Joi_validate, loginSchema, DemoAuth.credentials, request.
    cbn. destruct name; [congruence |]. destruct password; [congruence |]. reflexivity.
  - split; [eexists; reflexivity |]. repeat split; assumption.
Defined.

(** X21, witness: the doctor's username with a wrong password. *)
Lemma login_refuses_bad_credentials_witness :
  serveX (route_login platform DemoAuth.auth)
         (request None None None (DemoAuth.credentials "dr_smith" "guess"))
         clinic DemoAuth.seeded
  = (Returned tt,
     mkExchange
       (answered platform 401 (error_body "Invalid credentials")
          (mkSt (called clinic)
                (request None None None (DemoAuth.credentials "dr_smith" "guess"))
                fresh_response))
       DemoAuth.seeded []).
Proof.
  apply (@login_refuses_bad_credentials platform DemoAuth.auth
           (request None None None (DemoAuth.credentials "dr_smith" "guess"))
           clinic DemoAuth.seeded "dr_smith" "guess").
  - apply demo_login_request; discriminate.
  - reflexivity.
  - intros a [<- | [<- | [<- | []]]] _; reflexivity.
Defined.

(** X22, witness: the doctor logs in. *)
Lemma login_sets_the_token_cookie_witness :
  serveX (route_login platform DemoAuth.auth)
         (request None None None (DemoAuth.credentials "dr_smith" "password123"))
         clinic DemoAuth.seeded
  = (Returned tt,
     mkExchange
       (answered platform 200
          (JObject [("message", JString "Login successful");
                    ("user", JObject [("id", JNumber (Num 1));
                                      ("username", JString "dr_smith");
                                      ("role", JString "doctor")])])
          (mkSt (called clinic)
                (request None None None (DemoAuth.credentials "dr_smith" "password123"))
                fresh_response))
       DemoAuth.seeded
       [SetCookie "token" "doctor.jwt"
                  (mkCookieOptions true false "lax" (Some 86400000) None)]).
Proof.
  apply (@login_sets_the_token_cookie platform DemoAuth.auth
           (request None None None (DemoAuth.credentials "dr_smith" "password123"))
           clinic DemoAuth.seeded "dr_smith" "password123"
           (Account.mk 1 "dr_smith" doctor "password123")).
  - apply demo_login_request; discriminate.
  - reflexivity.
  - reflexivity.
  - reflexivity.
Defined.

(** X23, witness: the doctor logs in, and the cookie opens the session. *)
Lemma login_cookie_opens_the_session_witness :
  exists token options,
    cookie_ops (snd (serveX (route_login platform DemoAuth.auth)
                       (request None None None
                                (DemoAuth.credentials "dr_smith" "password123"))
                       clinic DemoAuth.seeded))
    = [SetCookie "token" token options]
    /\ forall rq' w',
         cookies_token rq' = Some token ->
         route_me platform (mkSt w' rq' fresh_response)
         = (Returned tt,
            answered platform 200
              (JObject [("user",
                         JObject [("id", JNumber (Num 1)); ("username", JString "dr_smith");
                                  ("role", JString "doctor");
                                  ("iat", JNumber (Num 1700000000));
                                  ("exp", JNumber (Num 1700086400))])])
              (mkSt w' (req (admitted GET_patients rq' w' dr_smith)) fresh_response)).
Proof.
  apply (@login_cookie_opens_the_session platform DemoAuth.auth
           (request None None None (DemoAuth.credentials "dr_smith" "password123"))
           clinic DemoAuth.seeded "dr_smith" "password123"
           (Account.mk 1 "dr_smith" doctor "password123") dr_smith).
  - apply demo_login_request; discriminate.
  - reflexivity.
  - reflexivity.
  - reflexivity.
  - reflexivity.
  - reflexivity.
  - discriminate.
Defined.

(** X24, witness: the store rejects the lookup of the account. *)
Lemma login_store_failure_is_a_500_witness :
  serveX (route_login platform DemoAuth.auth)
         (request None None None (DemoAuth.credentials "dr_smith" "password123"))
         failing DemoAuth.seeded
  = (Returned tt,
     mkExchange
       (answered platform 500 (error_body "Internal server error")
          (mkSt (with_console (called failing)
                              (console (called failing) ++ ["Login error:"]))
                (request None None None (DemoAuth.credentials "dr_smith" "password123"))
                fresh_response))
       DemoAuth.seeded []).
Proof.
  apply (@login_store_failure_is_a_500 platform DemoAuth.auth
           (request None None None (DemoAuth.credentials "dr_smith" "password123"))
           failing DemoAuth.seeded "dr_smith" "password123").
  - apply demo_login_request; discriminate.
  - reflexivity.
Defined.

Lemma ward_well_formed : well_formed ward.
Proof.
  unfold well_formed, ids_fresh. simpl.
  split; [| split; [| split; [| split; [| split]]]];
    try (split; repeat constructor; simpl; try lia; intuition discriminate).
  - intros e [<- | [<- | []]]; [exists jane | exists john]; split; simpl; auto.
  - intros pr [<- | [<- | []]].
    + split; [exists (Encounter.mk 1 1 "doctor" None 2500) | exists dr_smith];
        split; simpl; auto.
    + split; [exists (Encounter.mk 2 2 "nurse" (Some "flu") 2600) | exists dr_smith];
        split; simpl; auto.
Defined.

(** X25, witness: the doctor opens a visit for patient 1. *)
Lemma encounter_is_created_witness :
  fst (serve platform POST_encounters
             (request (Some "doctor.jwt") None None visit_body) clinic)
  = Returned tt
  /\ delivered (res (snd (serve platform POST_encounters
                            (request (Some "doctor.jwt") None None visit_body) clinic)))
     = [(201, JSON_stringify (created_body (encounter_seq clinic)
                                           "Encounter created successfully"))]
  /\ encounters (world (snd (serve platform POST_encounters
                               (request (Some "doctor.jwt") None None visit_body) clinic)))
     = encounters clinic ++ [new_encounter clinic 1 "doctor" None]
  /\ encounter_seq (world (snd (serve platform POST_encounters
                                  (request (Some "doctor.jwt") None None visit_body)
                                  clinic)))
     = encounter_seq clinic + 1
  /\ patients (world (snd (serve platform POST_encounters
                             (request (Some "doctor.jwt") None None visit_body) clinic)))
     = patients clinic
  /\ prescriptions (world (snd (serve platform POST_encounters
                                  (request (Some "doctor.jwt") None None visit_body)
                                  clinic)))
     = prescriptions clinic.
Proof.
  apply (@encounter_is_created platform
           (request (Some "doctor.jwt") None None visit_body) clinic dr_smith
           1 "doctor" None jane).
  - apply doctor_authorized; [now left | reflexivity].
  - split; [eexists; reflexivity |]. repeat split; reflexivity.
  - reflexivity.
  - reflexivity.
  - reflexivity.
Defined.


(** X27, witness: the doctor reads the records of patient 1. *)
Lemma patient_records_are_the_patients_own_witness :
  exists encs rows,
    fst (serve platform GET_patient_records
               (request (Some "doctor.jwt") (Some "1") None JUndefined) ward)
    = Returned tt
    /\ delivered (res (snd (serve platform GET_patient_records
                              (request (Some "doctor.jwt") (Some "1") None JUndefined)
                              ward)))
       = [(200, JSON_stringify (records_body jane encs rows))]
    /\ Permutation (filter (fun e => Encounter.patient_id e =? 1) (encounters ward)) encs
    /\ newest_first Encounter.created_at encs
    /\ (forall pr c,
          In (pr, c) rows
          <-> (In pr (prescriptions ward)
               /\ (exists e, In e (encounters ward) /\ Encounter.patient_id e = 1
                             /\ Prescription.encounter_id pr = Encounter.id e)
               /\ find_user (Prescription.created_by pr) ward = Some c))
    /\ clinical (world (snd (serve platform GET_patient_records
                               (request (Some "doctor.jwt") (Some "1") None JUndefined)
                               ward)))
       = clinical ward.
Proof.
  apply (@patient_records_are_the_patients_own platform
           (request (Some "doctor.jwt") (Some "1") None JUndefined) ward dr_smith 1 jane).
  - apply doctor_authorized; [now left | exact I].
  - reflexivity.
  - reflexivity.
  - exact ward_well_formed.
  - reflexivity.
  - reflexivity.
Defined.

(** X28, witness: the path is /api/patients/99999999999. *)
Lemma out_of_range_id_is_a_500_witness :
  exists e,
    serve platform GET_patient
          (request (Some "doctor.jwt") (Some "99999999999") None JUndefined) clinic
    = (Returned tt,
       caught platform e
         (set_world (admitted GET_patient
                       (request (Some "doctor.jwt") (Some "99999999999") None JUndefined)
                       clinic dr_smith)
                    (called clinic))).
Proof.
  apply (@out_of_range_id_is_a_500 platform GET_patient
           (request (Some "doctor.jwt") (Some "99999999999") None JUndefined)
           clinic dr_smith 99999999999).
  - now left.
  - apply doctor_authorized; [now left | exact I].
  - reflexivity.
  - reflexivity.
  - intros p [<- | [<- | []]]; discriminate.
Defined.

(** X29, witness: the doctor searches for "%". *)
Lemma percent_search_lists_everyone_witness :
  serve platform GET_patients (request (Some "doctor.jwt") None (Some "%") JUndefined) clinic
  = (Returned tt,
     answered platform 200 (JArray (map Patient.to_js (patient_rows None clinic)))
       (set_world (admitted GET_patients
                     (request (Some "doctor.jwt") None (Some "%") JUndefined)
                     clinic dr_smith)
                  (called clinic))).
Proof.
  apply (@percent_search_lists_everyone platform
           (request (Some "doctor.jwt") None (Some "%") JUndefined) clinic dr_smith).
  - apply doctor_authorized; [now left | exact I].
  - reflexivity.
  - reflexivity.
Defined.

End Examples.
